(** * MediaEnhanceAI: adaptive audio cleaner and video enhancer

    A shallow embedding of [audio_enhancer/core.py] (class [AudioCleaner])
    and [video_enhancer/core.py] (class [VideoEnhancer]), with the
    properties of the analysis-to-parameter tables and of the correction
    pipelines proved over it.

    Conventions.
    - Sample values, metrics and thresholds are exact rationals ([Q]);
      a float that may be "not a number" (the mean of an empty slice) is
      an [fval].  Decimal literals of the source ([0.7], [0.005], ...) are
      the rationals they denote.
    - A method that mutates [self] is a function from the object to the
      updated object; a method that can raise returns a [result].
    - External library calls (librosa, noisereduce, scipy, OpenCV) whose
      numerical content is not part of this repository are fields of a
      record ([Audio.Libs], [Video.Cv]) that the methods take as a section
      variable; [cv2.convertScaleAbs] is written out from its documented
      formula. *)

From Stdlib Require Import Bool String ZArith QArith Qabs Qround Qminmax.
From Stdlib Require Import List Lia Lqa.
From Equations Require Import Equations.
Import ListNotations.

Open Scope Q_scope.

(** ** Numbers *)

(** Python's [a < b] on rationals. *)
Definition Qlt_bool (a b : Q) : bool := negb (Qle_bool b a).

(** A float as the analysis sees it: a number, or NaN (numpy's mean of an
    empty slice; warnings are silenced at import).  Every comparison with
    NaN is false. *)
Inductive fval : Type :=
| Num (q : Q)
| NaN.

Definition f_lt (a : fval) (b : Q) : bool :=
  match a with Num q => Qlt_bool q b | NaN => false end.

Definition f_gt (a : fval) (b : Q) : bool :=
  match a with Num q => Qlt_bool b q | NaN => false end.

(** Python's builtin [min(a, b)]: the second argument only when it is
    strictly smaller. *)
Definition py_min (a b : Q) : Q := if Qlt_bool b a then b else a.

(** ** Exceptions *)

Inductive exn : Type :=
| ValueError
| AttributeError
| KeyError
| ZeroDivisionError
| ExternalError.

Inductive result (A : Type) : Type :=
| Ok (a : A)
| Raise (e : exn).
Arguments Ok {A} a.
Arguments Raise {A} e.

Definition bind {A B : Type} (c : result A) (k : A -> result B) : result B :=
  match c with
  | Ok a => k a
  | Raise e => Raise e
  end.

(** [try: c  except Exception: h] *)
Definition try_except {A : Type} (c : result A) (h : A) : A :=
  match c with
  | Ok a => a
  | Raise _ => h
  end.

Declare Scope result_scope.
Delimit Scope result_scope with result.
Notation "x <- c ;; k" := (bind c (fun x => k))
  (at level 61, c at next level, right associativity) : result_scope.
Notation "' pat <- c ;; k" := (bind c (fun x => match x with pat => k end))
  (at level 61, pat pattern, c at next level, right associativity) : result_scope.

Fixpoint mapM {A B : Type} (f : A -> result B) (l : list A) : result (list B) :=
  match l with
  | [] => Ok []
  | x :: xs =>
      match f x with
      | Ok y => match mapM f xs with
                | Ok ys => Ok (y :: ys)
                | Raise e => Raise e
                end
      | Raise e => Raise e
      end
  end.

(** * Audio *)

Module Audio.

(** ** Parameter record ([self.processing_params]) *)

Record ProcessingParams : Type := mkParams {
  noise_reduction : Q;
  high_pass_cutoff : Z;
  normalization_target : Q;
  needs_limiting : bool
}.

Definition set_noise_reduction (v : Q) (p : ProcessingParams) :=
  mkParams v (high_pass_cutoff p) (normalization_target p) (needs_limiting p).
Definition set_high_pass_cutoff (v : Z) (p : ProcessingParams) :=
  mkParams (noise_reduction p) v (normalization_target p) (needs_limiting p).
Definition set_normalization_target (v : Q) (p : ProcessingParams) :=
  mkParams (noise_reduction p) (high_pass_cutoff p) v (needs_limiting p).
Definition set_needs_limiting (v : bool) (p : ProcessingParams) :=
  mkParams (noise_reduction p) (high_pass_cutoff p) (normalization_target p) v.

(** The metrics of one analysis pass (the locals [peak], [noise_floor],
    [signal_level], [snr], [hf_ratio] of [analyze_quality]). *)
Record QualitySnapshot : Type := mkSnapshot {
  q_peak : fval;
  q_noise_floor : fval;
  q_signal_level : fval;
  q_snr : fval;
  q_hf_ratio : fval
}.

(** The pair ([self.needs_processing], [self.processing_params]) that the
    derivation rules mutate. *)
Definition derivation : Type := (bool * ProcessingParams)%type.

Definition default_params : ProcessingParams := mkParams 0 0 (8 # 10) false.

(** [analyze_quality], lines 125-148: noise reduction by SNR. *)
Definition rule_snr (snr : fval) (d : derivation) : derivation :=
  let '(needs, p) := d in
  if f_lt snr 15 then (true, set_noise_reduction (7 # 10) p)
  else if f_lt snr 25 then (true, set_noise_reduction (5 # 10) p)
  else if f_lt snr 40 then (true, set_noise_reduction (3 # 10) p)
  else (needs, set_noise_reduction 0 p).

(** Lines 150-154: high-frequency noise raises the reduction, capped. *)
Definition rule_hf (hf_ratio : fval) (d : derivation) : derivation :=
  let '(needs, p) := d in
  if f_gt hf_ratio (3 # 10)
  then (needs, set_noise_reduction (py_min (noise_reduction p + (1 # 10)) (8 # 10)) p)
  else (needs, p).

(** Lines 156-170: high-pass cutoff by noise floor. *)
Definition rule_noise_floor (noise_floor : fval) (d : derivation) : derivation :=
  let '(needs, p) := d in
  if f_gt noise_floor (1 # 100) then (true, set_high_pass_cutoff 80 p)
  else if f_gt noise_floor (5 # 1000) then (true, set_high_pass_cutoff 60 p)
  else if f_gt noise_floor (2 # 1000) then (needs, set_high_pass_cutoff 40 p)
  else (needs, set_high_pass_cutoff 0 p).

(** Lines 172-187: normalization target and limiter flag by peak. *)
Definition rule_peak (peak : fval) (d : derivation) : derivation :=
  let '(needs, p) := d in
  if f_gt peak (99 # 100)
  then (true, set_normalization_target (75 # 100) (set_needs_limiting true p))
  else if f_lt peak (2 # 10) then (true, set_normalization_target (8 # 10) p)
  else if f_lt peak (5 # 10) then (needs, set_normalization_target (8 # 10) p)
  else (needs, set_normalization_target (85 # 100) p).

(** Lines 116-189 of [analyze_quality]: the rules in source order. *)
Definition derive_params (s : QualitySnapshot) : derivation :=
  rule_peak (q_peak s)
    (rule_noise_floor (q_noise_floor s)
      (rule_hf (q_hf_ratio s)
        (rule_snr (q_snr s) (false, default_params)))).

(** The cutoff derived for a snapshot. *)
Definition cutoff_of (s : QualitySnapshot) : Z :=
  high_pass_cutoff (snd (derive_params s)).

(** ** Sample buffers *)

(** A numpy array of samples: 1-D (mono) or 2-D (channels by frames). *)
Inductive ndarray : Type :=
| Arr1 (xs : list Q)
| Arr2 (rows : list (list Q)).

Definition ndim (a : ndarray) : Z :=
  match a with Arr1 _ => 1 | Arr2 _ => 2 end%Z.

(** [a.shape[0]] *)
Definition shape0 (a : ndarray) : Z :=
  match a with
  | Arr1 xs => Z.of_nat (length xs)
  | Arr2 rows => Z.of_nat (length rows)
  end.

(** All samples of the array, row after row. *)
Definition samples (a : ndarray) : list Q :=
  match a with Arr1 xs => xs | Arr2 rows => concat rows end.

(** Elementwise operation. *)
Definition arr_map (f : Q -> Q) (a : ndarray) : ndarray :=
  match a with
  | Arr1 xs => Arr1 (map f xs)
  | Arr2 rows => Arr2 (map (map f) rows)
  end.

(** A 1-D operation of an external library applied along the last axis. *)
Definition along_last_axis (f : list Q -> result (list Q)) (a : ndarray)
  : result ndarray :=
  match a with
  | Arr1 xs => (ys <- f xs ;; Ok (Arr1 ys))%result
  | Arr2 rows => (rs <- mapM f rows ;; Ok (Arr2 rs))%result
  end.

Fixpoint same_length (n : nat) (rows : list (list Q)) : bool :=
  match rows with
  | [] => true
  | r :: rs => Nat.eqb (length r) n && same_length n rs
  end.

(** [np.vstack] of 1-D arrays: one row each; the lengths must agree and
    the sequence must not be empty. *)
Definition np_vstack (rows : list (list Q)) : result ndarray :=
  match rows with
  | [] => Raise ValueError
  | r :: rs => if same_length (length r) rs then Ok (Arr2 rows)
               else Raise ValueError
  end.

Fixpoint Qsum (l : list Q) : Q :=
  match l with
  | [] => 0
  | x :: xs => x + Qsum xs
  end.

(** [np.mean]: NaN on an empty array. *)
Definition np_mean (l : list Q) : fval :=
  match l with
  | [] => NaN
  | _ => Num (Qsum l / inject_Z (Z.of_nat (length l)))
  end.

Definition Qmax_of (x : Q) (l : list Q) : Q :=
  fold_left (fun m y => if Qlt_bool m y then y else m) l x.

(** [np.max]: raises on an empty array. *)
Definition np_max (l : list Q) : result Q :=
  match l with
  | [] => Raise ValueError
  | x :: xs => Ok (Qmax_of x xs)
  end.

Fixpoint insert_sorted (x : Q) (l : list Q) : list Q :=
  match l with
  | [] => [x]
  | y :: ys => if Qle_bool x y then x :: l else y :: insert_sorted x ys
  end.

(** [np.sort], ascending. *)
Definition np_sort (l : list Q) : list Q := fold_right insert_sorted [] l.

Fixpoint add_rows (r s : list Q) : list Q :=
  match r, s with
  | x :: r', y :: s' => (x + y) :: add_rows r' s'
  | _, _ => []
  end.

(** [librosa.to_mono]: a 1-D array is returned as it is, a 2-D array is
    averaged over its channels, sample by sample.  (An array with no rows
    does not come out of a decoded file.) *)
Definition to_mono (a : ndarray) : list Q :=
  match a with
  | Arr1 xs => xs
  | Arr2 [] => []
  | Arr2 (r :: rs) =>
      map (fun s => s / inject_Z (Z.of_nat (length (r :: rs))))
          (fold_left add_rows rs r)
  end.

(** [np.abs(a).max()] over the whole array. *)
Definition abs_max (a : ndarray) : result Q := np_max (map Qabs (samples a)).

(** Array layout: 1-D, or 2-D with a number of rows. *)
Inductive layout : Type :=
| Mono1D
| Rows (n : nat).

Definition layout_of (a : ndarray) : layout :=
  match a with
  | Arr1 _ => Mono1D
  | Arr2 rows => Rows (length rows)
  end.

(** [np.clip(x, lo, hi)] on one sample. *)
Definition clip (lo hi x : Q) : Q :=
  if Qlt_bool x lo then lo else if Qlt_bool hi x then hi else x.

(** ** The cleaner object *)

Record AudioCleaner : Type := mkCleaner {
  input_file : string;
  output_file : string;
  target_sr : Z;
  audio : option ndarray;
  analysis_audio : option (list Q);
  original_audio : option ndarray;
  sr : option Z;
  channels : Z;
  is_stereo : option bool;          (* not set before [load_audio] *)
  processing_params : option ProcessingParams;  (* [None] is the empty dict *)
  needs_processing : option bool    (* not set before [analyze_quality] *)
}.

(** [__init__] with an explicit output file. *)
Definition new_cleaner (input output : string) (target_sample_rate : Z)
  : AudioCleaner :=
  mkCleaner input output target_sample_rate None None None None 0 None None None.

Definition set_audio (a : ndarray) (c : AudioCleaner) : AudioCleaner :=
  mkCleaner (input_file c) (output_file c) (target_sr c) (Some a)
            (analysis_audio c) (original_audio c) (sr c) (channels c)
            (is_stereo c) (processing_params c) (needs_processing c).

Definition set_sr (r : Z) (c : AudioCleaner) : AudioCleaner :=
  mkCleaner (input_file c) (output_file c) (target_sr c) (audio c)
            (analysis_audio c) (original_audio c) (Some r) (channels c)
            (is_stereo c) (processing_params c) (needs_processing c).

Definition set_analysis (needs : bool) (p : ProcessingParams) (c : AudioCleaner)
  : AudioCleaner :=
  mkCleaner (input_file c) (output_file c) (target_sr c) (audio c)
            (analysis_audio c) (original_audio c) (sr c) (channels c)
            (is_stereo c) (Some p) (Some needs).

Definition audio_layout (c : AudioCleaner) : option layout :=
  option_map layout_of (audio c).

(** The layout of the buffer, the stereo flag and the channel count are
    the same in two states of the object. *)
Definition same_layout (s s' : AudioCleaner) : Prop :=
  audio_layout s' = audio_layout s
  /\ is_stereo s' = is_stereo s
  /\ channels s' = channels s.

(** ** External numerical libraries

    What librosa, noisereduce, scipy and numpy's transcendental functions
    contribute; each is total on its domain and deterministic. *)
Record Libs : Type := mkLibs {
  (* [librosa.load(path, sr=None, mono=False)]: the decoded array and its
     sample rate, or an exception *)
  librosa_load : string -> result (ndarray * Z);
  (* [np.log10] *)
  np_log10 : Q -> Q;
  (* lines 103-108: the ratio of mean STFT magnitude above 8 kHz to the
     mean below; NaN when no frequency bin lies above 8 kHz *)
  stft_hf_ratio : list Q -> Z -> fval;
  (* [nr.reduce_noise(y, sr, stationary=True, prop_decrease, ...)] *)
  nr_reduce_noise : list Q -> option Z -> Q -> result (list Q);
  (* [signal.butter(order, normal_cutoff, btype='high')] *)
  signal_butter : Z -> Q -> result (list Q * list Q);
  (* [signal.filtfilt(b, a, x)] *)
  signal_filtfilt : list Q -> list Q -> list Q -> result (list Q);
  (* [librosa.resample(y, orig_sr, target_sr)] on one channel *)
  librosa_resample : list Q -> Z -> Z -> result (list Q);
  (* [10 ** x] *)
  pow10 : Q -> Q
}.

Section Cleaner.

Context (L : Libs).

(** [load_audio] (lines 44-75).  Nothing is assigned when the decoder
    raises. *)
Definition load_audio (self : AudioCleaner) : bool * AudioCleaner :=
  match librosa_load L (input_file self) with
  | Raise _ => (false, self)
  | Ok (a, rate) =>
      let chans := if (ndim a =? 1)%Z then 1%Z else shape0 a in
      let stereo := if (ndim a =? 1)%Z then false else (1 <? chans)%Z in
      (true,
       mkCleaner (input_file self) (output_file self) (target_sr self)
                 (Some a) (Some (to_mono a)) (Some a) (Some rate)
                 chans (Some stereo)
                 (processing_params self) (needs_processing self))
  end.

(** [analyze_quality], lines 85-108: the metrics.  ([rms] is only
    printed.) *)
Definition measure (analysis : list Q) (rate : Z) : result QualitySnapshot :=
  (peak <- np_max (map Qabs analysis) ;;
   let sorted_audio := np_sort (map Qabs analysis) in
   let n := length sorted_audio in
   let noise_floor := np_mean (firstn (n / 10) sorted_audio) in
   let signal_level := np_mean (skipn (n / 2) sorted_audio) in
   let snr :=
     if f_gt noise_floor 0 then
       match signal_level, noise_floor with
       | Num s, Num nf => Num (20 * np_log10 L (s / nf))
       | _, _ => NaN
       end
     else Num 100 in
   let hf_ratio := stft_hf_ratio L analysis rate in
   Ok (mkSnapshot (Num peak) noise_floor signal_level snr hf_ratio))%result.

(** [analyze_quality] (lines 77-189): returns [self.needs_processing]. *)
Definition analyze_quality (self : AudioCleaner) : result (bool * AudioCleaner) :=
  match audio self, analysis_audio self, sr self with
  | Some _, Some analysis, Some rate =>
      (snap <- measure analysis rate ;;
       let '(needs, p) := derive_params snap in
       Ok (needs, set_analysis needs p self))%result
  | _, _, _ => Ok (false, self)
  end.

(** [_apply_channelwise] (lines 191-201).  Iterating a 1-D array hands
    scalars to [func], which the external operations reject. *)
Definition _apply_channelwise (func : list Q -> result (list Q))
    (self : AudioCleaner) : result AudioCleaner :=
  match audio self with
  | None => Ok self
  | Some a =>
      if (channels self <=? 1)%Z then
        (a' <- along_last_axis func a ;; Ok (set_audio a' self))%result
      else
        match a with
        | Arr1 _ => Raise ExternalError
        | Arr2 rows =>
            (processed_channels <- mapM func rows ;;
             a' <- np_vstack processed_channels ;;
             Ok (set_audio a' self))%result
        end
  end.

(** [adaptive_noise_reduction] (lines 203-224). *)
Definition adaptive_noise_reduction (amount : Q) (self : AudioCleaner)
  : AudioCleaner :=
  if Qle_bool amount 0 then self
  else
    let _reduce := fun channel => nr_reduce_noise L channel (sr self) amount in
    try_except (_apply_channelwise _reduce self) self.

(** [smart_normalize] (lines 226-241). *)
Definition smart_normalize (target : Q) (self : AudioCleaner) : AudioCleaner :=
  try_except
    (match audio self with
     | None => Ok self
     | Some a =>
         (peak <- abs_max a ;;
          if Qlt_bool 0 peak
          then Ok (set_audio (arr_map (fun x => x * (target / peak)) a) self)
          else Ok self)%result
     end)
    self.

(** [adaptive_high_pass] (lines 243-263). *)
Definition adaptive_high_pass (cutoff : Z) (self : AudioCleaner) : AudioCleaner :=
  if (cutoff <=? 0)%Z then self
  else
    try_except
      (match audio self, sr self with
       | Some _, Some rate =>
           let nyquist := inject_Z rate / 2 in
           if Qeq_bool nyquist 0 then Raise ZeroDivisionError
           else
             let normal_cutoff := inject_Z cutoff / nyquist in
             let order := if (cutoff <=? 60)%Z then 2%Z else 3%Z in
             ('(b, a) <- signal_butter L order normal_cutoff ;;
              _apply_channelwise (signal_filtfilt L b a) self)%result
       | _, _ => Ok self
       end)
      self.

(** [gentle_limiter] (lines 265-277). *)
Definition gentle_limiter (threshold : Q) (self : AudioCleaner) : AudioCleaner :=
  match audio self with
  | None => self
  | Some a =>
      let threshold_linear := pow10 L (threshold / 20) in
      set_audio (arr_map (clip (- threshold_linear) threshold_linear) a) self
  end.

(** [resample_if_needed] (lines 279-293); a resampler failure is not
    caught. *)
Definition resample_if_needed (self : AudioCleaner) : result AudioCleaner :=
  match audio self, sr self with
  | Some a, Some rate =>
      if negb (rate =? target_sr self)%Z then
        (a' <- along_last_axis
                 (fun ch => librosa_resample L ch rate (target_sr self)) a ;;
         Ok (set_sr (target_sr self) (set_audio a' self)))%result
      else Ok self
  | _, _ => Ok self
  end.

(** The guard of the duplication branch of [restore_stereo]: the source
    was multi-channel and the buffer is 1-D. *)
Definition mono_collapsed (self : AudioCleaner) : bool :=
  match is_stereo self, audio self with
  | Some true, Some (Arr1 _) => true
  | _, _ => false
  end.

(** [restore_stereo] (lines 295-303). *)
Definition restore_stereo (self : AudioCleaner) : result AudioCleaner :=
  match is_stereo self with
  | None => Raise AttributeError
  | Some stereo =>
      if negb stereo then Ok self
      else
        match audio self with
        | None => Ok self
        | Some (Arr1 xs) =>
            (a' <- np_vstack [xs; xs] ;; Ok (set_audio a' self))%result
        | Some (Arr2 _) => Ok self
        end
  end.

(** [self.processing_params[key]] *)
Definition param {A : Type} (key : ProcessingParams -> A) (self : AudioCleaner)
  : result A :=
  match processing_params self with
  | Some p => Ok (key p)
  | None => Raise KeyError
  end.

(** [process], lines 337-348: the corrections the analysis asked for. *)
Definition apply_corrections (needs : bool) (self : AudioCleaner)
  : result AudioCleaner :=
  if needs then
    (nr <- param noise_reduction self ;;
     let self := if Qlt_bool 0 nr then adaptive_noise_reduction nr self
                 else self in
     hp <- param high_pass_cutoff self ;;
     Ok (if (0 <? hp)%Z then adaptive_high_pass hp self else self))%result
  else Ok self.

(** [process], lines 332-351: load, analyse, correct, normalize.  The
    boolean is [false] when loading failed. *)
Definition process_to_normalized (self : AudioCleaner)
  : result (bool * AudioCleaner) :=
  let '(loaded, self) := load_audio self in
  if negb loaded then Ok (false, self)
  else
    ('(needs, self) <- analyze_quality self ;;
     self <- apply_corrections needs self ;;
     target <- param normalization_target self ;;
     Ok (true, smart_normalize target self))%result.

(** [process], lines 354-355: limiter only if clipping was detected
    ([dict.get] with default [False]). *)
Definition limit_if_flagged (self : AudioCleaner) : AudioCleaner :=
  match processing_params self with
  | Some p => if needs_limiting p then gentle_limiter (- (1 # 2)) self else self
  | None => self
  end.

(** [process], lines 332-357: everything before channel restoration. *)
Definition process_to_resampled (self : AudioCleaner)
  : result (bool * AudioCleaner) :=
  ('(loaded, self) <- process_to_normalized self ;;
   if negb loaded then Ok (false, self)
   else
     (self <- resample_if_needed (limit_if_flagged self) ;;
      Ok (true, self)))%result.

(** [process] (lines 325-364). *)
Definition process (self : AudioCleaner) : result (bool * AudioCleaner) :=
  ('(loaded, self) <- process_to_resampled self ;;
   if negb loaded then Ok (false, self)
   else
     (self <- restore_stereo self ;;
      Ok (true, self)))%result.

End Cleaner.

(** ** Example objects *)

(** A mono buffer whose quietest tenth is silent and whose peak is 0.5. *)
Definition quiet_buffer : list Q :=
  [0; 1 # 2; 1 # 2; 1 # 2; 1 # 2; 1 # 2; 1 # 2; 1 # 2; 1 # 2; 1 # 2].

(** The object as [load_audio] leaves it for a mono file. *)
Definition loaded_mono (buf : list Q) (rate : Z) : AudioCleaner :=
  mkCleaner "clean.wav" "clean_cleaned.wav" 48000 (Some (Arr1 buf)) (Some buf)
            (Some (Arr1 buf)) (Some rate) 1 (Some false) None None.

(** A three-channel source whose buffer was replaced by a mono mix. *)
Definition surround_collapsed : AudioCleaner :=
  mkCleaner "surround.wav" "surround_cleaned.wav" 48000
            (Some (Arr1 [1 # 2; - (1 # 4)])) (Some [1 # 2; - (1 # 4)])
            (Some (Arr2 [[1 # 2; - (1 # 4)]; [1 # 2; - (1 # 4)];
                         [1 # 2; - (1 # 4)]]))
            (Some 48000%Z) 3 (Some true) None None.

(** A decoder that yields [decoded] at 44.1 kHz, with external operations
    that pass their input through and a limiter threshold of 0.944. *)
Definition passthrough_libs (decoded : ndarray) : Libs :=
  mkLibs (fun _ => Ok (decoded, 44100%Z)) (fun _ => 0) (fun _ _ => NaN)
         (fun y _ _ => Ok y) (fun _ _ => Ok ([1], [1])) (fun _ _ x => Ok x)
         (fun y _ _ => Ok y) (fun _ => 944 # 1000).

(** Two channels that both reach full scale. *)
Definition clipped_stereo : ndarray :=
  Arr2 [[1; - (1 # 2)]; [1; 1 # 4]].

(** A stereo source whose buffer was replaced by a mono mix. *)
Definition stereo_collapsed : AudioCleaner :=
  mkCleaner "stereo.wav" "stereo_cleaned.wav" 48000
            (Some (Arr1 [1 # 2; - (1 # 4)])) (Some [1 # 2; - (1 # 4)])
            (Some (Arr2 [[1 # 2; - (1 # 4)]; [1 # 2; - (1 # 4)]]))
            (Some 48000%Z) 2 (Some true) None None.

End Audio.

(** * Video *)

Module Video.

(** A BGR frame: rows of pixels, each pixel a list of 8-bit intensities. *)
Definition frame : Type := list (list (list Z)).

Definition frame_map (f : Z -> Z) (fr : frame) : frame :=
  map (map (map f)) fr.

(** ** Parameter record ([self.enhancement_params]) *)

Record EnhancementParams : Type := mkEnh {
  needs_upscaling : bool;
  upscale_factor : Q;
  denoise_strength : Z;
  sharpen_amount : Q;
  brightness_adjust : Z;
  contrast_adjust : Q;
  color_enhance : bool
}.

Definition default_enhancement : EnhancementParams :=
  mkEnh false 1 0 0 0 1 false.

Definition set_upscaling (f : Q) (p : EnhancementParams) :=
  mkEnh true f (denoise_strength p) (sharpen_amount p) (brightness_adjust p)
        (contrast_adjust p) (color_enhance p).
Definition set_denoise_strength (v : Z) (p : EnhancementParams) :=
  mkEnh (needs_upscaling p) (upscale_factor p) v (sharpen_amount p)
        (brightness_adjust p) (contrast_adjust p) (color_enhance p).
Definition set_sharpen_amount (v : Q) (p : EnhancementParams) :=
  mkEnh (needs_upscaling p) (upscale_factor p) (denoise_strength p) v
        (brightness_adjust p) (contrast_adjust p) (color_enhance p).
Definition set_brightness_adjust (v : Z) (p : EnhancementParams) :=
  mkEnh (needs_upscaling p) (upscale_factor p) (denoise_strength p)
        (sharpen_amount p) v (contrast_adjust p) (color_enhance p).
Definition set_contrast_adjust (v : Q) (p : EnhancementParams) :=
  mkEnh (needs_upscaling p) (upscale_factor p) (denoise_strength p)
        (sharpen_amount p) (brightness_adjust p) v (color_enhance p).
Definition set_color_enhance (v : bool) (p : EnhancementParams) :=
  mkEnh (needs_upscaling p) (upscale_factor p) (denoise_strength p)
        (sharpen_amount p) (brightness_adjust p) (contrast_adjust p) v.

(** ** Capture and writer handles *)

(** [cv2.VideoCapture]: the decoded frames, the read cursor, and what the
    container reports. *)
Record VideoCapture : Type := mkCapture {
  vc_opened : bool;
  vc_frames : list frame;
  vc_pos : nat;
  vc_fps : Q;            (* CAP_PROP_FPS *)
  vc_frame_count : Z;    (* int(CAP_PROP_FRAME_COUNT) *)
  vc_width : Z;          (* int(CAP_PROP_FRAME_WIDTH) *)
  vc_height : Z          (* int(CAP_PROP_FRAME_HEIGHT) *)
}.

Definition isOpened (c : VideoCapture) : bool := vc_opened c.

(** [cap.set(cv2.CAP_PROP_POS_FRAMES, idx)] *)
Definition set_pos (idx : nat) (c : VideoCapture) : VideoCapture :=
  mkCapture (vc_opened c) (vc_frames c) idx (vc_fps c) (vc_frame_count c)
            (vc_width c) (vc_height c).

(** [cap.release()] *)
Definition release (c : VideoCapture) : VideoCapture :=
  mkCapture false (vc_frames c) (vc_pos c) (vc_fps c) (vc_frame_count c)
            (vc_width c) (vc_height c).

(** Two states of one handle: the same stream, the same open flag. *)
Definition same_stream (c c' : VideoCapture) : Prop :=
  vc_opened c' = vc_opened c /\ vc_frames c' = vc_frames c.

(** [cap.read()]: the frame under the cursor, which then advances; fails
    past the last frame and on a released handle. *)
Definition read (c : VideoCapture) : bool * option frame * VideoCapture :=
  if vc_opened c then
    match nth_error (vc_frames c) (vc_pos c) with
    | Some f => (true, Some f, set_pos (S (vc_pos c)) c)
    | None => (false, None, c)
    end
  else (false, None, c).

(** Frames left under and after the cursor. *)
Definition remaining (c : VideoCapture) : nat :=
  (length (vc_frames c) - vc_pos c)%nat.

(** [cv2.VideoWriter]: whether the stream was opened, and the frames
    written so far. *)
Record VideoWriter : Type := mkWriter {
  vw_opened : bool;
  vw_frames : list frame
}.

Definition write (f : frame) (w : VideoWriter) : VideoWriter :=
  mkWriter (vw_opened w) (vw_frames w ++ [f]).

Definition release_writer (w : VideoWriter) : VideoWriter :=
  mkWriter false (vw_frames w).

(** ** The enhancer object *)

Record VideoEnhancer : Type := mkEnhancer {
  input_file : string;
  output_file : string;
  target_resolution : option (Z * Z);
  cap : option VideoCapture;
  enhancement_params : option EnhancementParams;  (* [None] is the empty dict *)
  (* set by [analyze_video]; no method reads them earlier *)
  fps : Q;
  frame_count : Z;
  width : Z;
  height : Z;
  duration : Q
}.

(** [__init__] with an explicit output file. *)
Definition new_enhancer (input output : string) (target : option (Z * Z))
  : VideoEnhancer :=
  mkEnhancer input output target None None 0 0 0 0 0.

Definition set_cap (c : VideoCapture) (e : VideoEnhancer) : VideoEnhancer :=
  mkEnhancer (input_file e) (output_file e) (target_resolution e) (Some c)
             (enhancement_params e) (fps e) (frame_count e) (width e)
             (height e) (duration e).

Definition set_properties (f : Q) (n w h : Z) (e : VideoEnhancer) : VideoEnhancer :=
  mkEnhancer (input_file e) (output_file e) (target_resolution e) (cap e)
             (enhancement_params e) f n w h (duration e).

Definition set_fps (f : Q) (e : VideoEnhancer) : VideoEnhancer :=
  set_properties f (frame_count e) (width e) (height e) e.

Definition set_frame_count (n : Z) (e : VideoEnhancer) : VideoEnhancer :=
  set_properties (fps e) n (width e) (height e) e.

Definition set_duration (d : Q) (e : VideoEnhancer) : VideoEnhancer :=
  mkEnhancer (input_file e) (output_file e) (target_resolution e) (cap e)
             (enhancement_params e) (fps e) (frame_count e) (width e)
             (height e) d.

Definition set_enhancement (p : EnhancementParams) (e : VideoEnhancer)
  : VideoEnhancer :=
  mkEnhancer (input_file e) (output_file e) (target_resolution e) (cap e)
             (Some p) (fps e) (frame_count e) (width e) (height e)
             (duration e).

(** ** Pixel arithmetic of [cv2.convertScaleAbs]

    OpenCV documents the operation as
    [dst = saturate_cast<uchar>(|src * alpha + beta|)]: scale, take the
    absolute value, round to the nearest integer (ties to even) and
    saturate to [0, 255]. *)

Definition cvRound (q : Q) : Z :=
  let f := Qfloor q in
  let r := q - inject_Z f in
  if Qlt_bool r (1 # 2) then f
  else if Qlt_bool (1 # 2) r then (f + 1)%Z
  else if Z.even f then f else (f + 1)%Z.

Definition saturate_u8 (v : Z) : Z := Z.max 0 (Z.min 255 v).

Definition convertScaleAbs_px (alpha beta : Q) (x : Z) : Z :=
  saturate_u8 (cvRound (Qabs (inject_Z x * alpha + beta))).

Definition convertScaleAbs (fr : frame) (alpha beta : Q) : frame :=
  frame_map (convertScaleAbs_px alpha beta) fr.

(** [enhance_frame], lines 250-252: brightness adjustment. *)
Definition brightness_stage (p : EnhancementParams) (fr : frame) : frame :=
  if negb (brightness_adjust p =? 0)%Z
  then convertScaleAbs fr 1 (inject_Z (brightness_adjust p))
  else fr.

(** [enhance_frame], lines 254-256: contrast adjustment. *)
Definition contrast_stage (p : EnhancementParams) (fr : frame) : frame :=
  if negb (Qeq_bool (contrast_adjust p) 1)
  then convertScaleAbs fr (contrast_adjust p) 0
  else fr.

(** Stages 4 and 5 of [enhance_frame], in source order. *)
Definition brightness_contrast (p : EnhancementParams) (fr : frame) : frame :=
  contrast_stage p (brightness_stage p fr).



(** Lines 261-263 on one HSV pixel: saturation scaled by 1.2, clipped to
    [0, 255] and truncated back to 8 bits. *)
Definition boost_saturation (px : list Z) : list Z :=
  match px with
  | h :: s :: rest =>
      h :: Qfloor (Qmin 255 (Qmax 0 (inject_Z s * (12 # 10)))) :: rest
  | _ => px
  end.

(** ** OpenCV and numpy operations kept abstract *)
Record Cv : Type := mkCv {
  (* [cv2.VideoCapture(path)] *)
  VideoCapture_open : string -> VideoCapture;
  (* [cv2.VideoWriter(path, fourcc, fps, (w, h))] *)
  VideoWriter_open : string -> Q -> Z * Z -> VideoWriter;
  (* [np.mean], [np.std], Laplacian variance of the grayscale frame, and
     [_estimate_noise] of it (lines 103-120, 211-219) *)
  gray_mean : frame -> Q;
  gray_std : frame -> Q;
  laplacian_var : frame -> Q;
  _estimate_noise : frame -> Q;
  (* [cv2.fastNlMeansDenoisingColored(frame, None, h, hColor, 7, 21)] *)
  fastNlMeansDenoisingColored : frame -> Z -> frame;
  (* [cv2.resize(frame, (w, h), interpolation=INTER_LANCZOS4)] *)
  resize : frame -> Z * Z -> frame;
  (* [cv2.GaussianBlur(frame, (0, 0), sigma)] *)
  GaussianBlur : frame -> Q -> frame;
  (* [cv2.addWeighted(a, alpha, b, beta, gamma)] *)
  addWeighted : frame -> Q -> frame -> Q -> Q -> frame;
  (* [cv2.cvtColor] between BGR and HSV *)
  BGR2HSV : frame -> frame;
  HSV2BGR : frame -> frame
}.

(** [np.mean] of a Python list of measurements. *)
Definition mean_of (l : list Q) : fval :=
  match l with
  | [] => NaN
  | _ => Num (fold_right Qplus 0 l / inject_Z (Z.of_nat (length l)))
  end.

(** [np.linspace(0, n - 1, min(20, n), dtype=int)] for [n >= 1]. *)
Definition sample_indices (n : Z) : list nat :=
  let k := Z.min 20 n in
  if (k <=? 1)%Z then (if (k =? 1)%Z then [0%nat] else [])
  else map (fun i => Z.to_nat ((Z.of_nat i * (n - 1)) / (k - 1)))
           (seq 0 (Z.to_nat k)).

(** The four measurement lists of the sampling loop. *)
Record Samples : Type := mkSamples {
  brightness_values : list Q;
  contrast_values : list Q;
  sharpness_values : list Q;
  noise_levels : list Q
}.

(** Python's [int(x)] on a float: truncation toward zero. *)
Definition py_int (q : Q) : Z :=
  if Qlt_bool q 0 then (- Qfloor (- q))%Z else Qfloor q.

Definition Qmax_py (a b : Q) : Q := if Qlt_bool a b then b else a.

(** [analyze_video], lines 133-206: parameters from the averaged metrics. *)
Definition derive_enhancement (target : option (Z * Z)) (w h : Z)
    (avg_brightness avg_contrast avg_sharpness avg_noise : fval)
  : result EnhancementParams :=
  let p := default_enhancement in
  (p <- match target with
        | Some (target_w, target_h) =>
            if ((w <? target_w) || (h <? target_h))%Z then
              if ((w =? 0) || (h =? 0))%Z then Raise ZeroDivisionError
              else Ok (set_upscaling
                         (Qmax_py (inject_Z target_w / inject_Z w)
                                  (inject_Z target_h / inject_Z h)) p)
            else Ok p
        | None =>
            if ((w <? 1280) || (h <? 720))%Z then
              if (w <? 640)%Z then Ok (set_upscaling 2 p)
              else Ok (set_upscaling (15 # 10) p)
            else Ok p
        end ;;
   let p := if f_gt avg_noise 15 then set_denoise_strength 10 p
            else if f_gt avg_noise 8 then set_denoise_strength 5 p
            else if f_gt avg_noise 4 then set_denoise_strength 3 p
            else p in
   let p := if f_lt avg_sharpness 100 then set_sharpen_amount (15 # 10) p
            else if f_lt avg_sharpness 300 then set_sharpen_amount (8 # 10) p
            else if f_lt avg_sharpness 500 then set_sharpen_amount (3 # 10) p
            else p in
   let p := if f_lt avg_brightness 80 then set_brightness_adjust 30 p
            else if f_gt avg_brightness 180 then set_brightness_adjust (-20) p
            else p in
   let p := if f_lt avg_contrast 30 then set_contrast_adjust (13 # 10) p
            else if f_lt avg_contrast 50 then set_contrast_adjust (115 # 100) p
            else p in
   let p := if f_lt avg_contrast 40 then set_color_enhance true p else p in
   Ok p)%result.

Definition inspect {A : Type} (a : A) : {b : A | a = b} := exist _ a eq_refl.

(** [analyze_video], lines 61-66: count frames by reading until a read
    fails. *)
Equations count_frames (c : VideoCapture) (frame_count : Z)
  : Z * VideoCapture by wf (remaining c) lt :=
  count_frames c frame_count with inspect (read c) := {
    | exist _ (true, _, c') _ => count_frames c' (frame_count + 1);
    | exist _ (false, _, c') _ => (frame_count, c') }.
Next Obligation.
  clear count_frames. revert e. unfold read, remaining.
  destruct (vc_opened c); [|discriminate].
  destruct (nth_error (vc_frames c) (vc_pos c)) eqn:E; [|discriminate].
  intro H. injection H as _ <-. simpl.
  assert (vc_pos c < length (vc_frames c))%nat
    by (apply nth_error_Some; congruence).
  lia.
Qed.

Section Enhancer.

Context (cv : Cv).

(** [analyze_video], lines 95-120: one iteration of the sampling loop. *)
Definition sample_frame (acc : VideoCapture * Samples) (idx : nat)
  : VideoCapture * Samples :=
  let '(c, s) := acc in
  let c := set_pos idx c in
  match read c with
  | (true, Some f, c') =>
      (c', mkSamples (brightness_values s ++ [gray_mean cv f])
                     (contrast_values s ++ [gray_std cv f])
                     (sharpness_values s ++ [laplacian_var cv f])
                     (noise_levels s ++ [_estimate_noise cv f]))
  | (_, _, c') => (c', s)
  end.

(** [analyze_video], lines 57-73: when the container reports no frame
    count or no frame rate, count the frames by reading them all, rewind,
    and fall back to 30 frames per second. *)
Definition recover_metadata (c : VideoCapture) (self : VideoEnhancer)
  : VideoCapture * VideoEnhancer :=
  if ((frame_count self <=? 0)%Z || Qle_bool (fps self) 0)%bool then
    let '(n, c) := count_frames c 0 in
    let self := set_frame_count n self in
    let c := set_pos 0 c in
    let self := if Qle_bool (fps self) 0 then set_fps 30 self else self in
    (c, self)
  else (c, self).

(** [analyze_video] (lines 41-209). *)
Definition analyze_video (self : VideoEnhancer) : result (bool * VideoEnhancer) :=
  let c := VideoCapture_open cv (input_file self) in
  let self := set_cap c self in
  if negb (isOpened c) then Ok (false, self)
  else
    let self := set_properties (vc_fps c) (vc_frame_count c) (vc_width c)
                               (vc_height c) self in
    let '(c, self) := recover_metadata c self in
    let self := set_cap c self in
    (* lines 75-77 *)
    if (frame_count self <=? 0)%Z then Ok (false, self)
    else
      let self :=
        set_duration (if Qlt_bool 0 (fps self)
                      then inject_Z (frame_count self) / fps self else 0) self in
      let '(c, s) :=
        fold_left sample_frame (sample_indices (frame_count self))
                  (c, mkSamples [] [] [] []) in
      (p <- derive_enhancement (target_resolution self) (width self) (height self)
              (mean_of (brightness_values s)) (mean_of (contrast_values s))
              (mean_of (sharpness_values s)) (mean_of (noise_levels s)) ;;
       Ok (true, set_enhancement p (set_cap (set_pos 0 c) self)))%result.

(** [enhance_frame], lines 224-233. *)
Definition denoise_stage (p : EnhancementParams) (fr : frame) : frame :=
  if (0 <? denoise_strength p)%Z
  then fastNlMeansDenoisingColored cv fr (denoise_strength p)
  else fr.

(** Lines 235-241. *)
Definition upscale_stage (p : EnhancementParams) (fr : frame) : frame :=
  if needs_upscaling p then
    let factor := upscale_factor p in
    let new_width :=
      py_int (inject_Z (Z.of_nat (length (hd [] fr))) * factor) in
    let new_height := py_int (inject_Z (Z.of_nat (length fr)) * factor) in
    resize cv fr (new_width, new_height)
  else fr.

(** Lines 243-248: unsharp mask. *)
Definition sharpen_stage (p : EnhancementParams) (fr : frame) : frame :=
  if Qlt_bool 0 (sharpen_amount p) then
    let amount := sharpen_amount p in
    let gaussian := GaussianBlur cv fr 2 in
    addWeighted cv fr (1 + amount) gaussian (- amount) 0
  else fr.

(** Lines 258-264. *)
Definition color_stage (p : EnhancementParams) (fr : frame) : frame :=
  if color_enhance p
  then HSV2BGR cv (map (map boost_saturation) (BGR2HSV cv fr))
  else fr.

(** [enhance_frame] (lines 221-266). *)
Definition enhance_frame (self : VideoEnhancer) (fr : frame) : result frame :=
  match enhancement_params self with
  | None => Raise KeyError
  | Some p =>
      Ok (color_stage p
           (brightness_contrast p
             (sharpen_stage p (upscale_stage p (denoise_stage p fr)))))
  end.

(** [process], lines 302-319: read, enhance, write until a read fails. *)
Equations process_frames (self : VideoEnhancer) (c : VideoCapture)
    (out : VideoWriter) (frame_num : Z)
  : result (VideoCapture * VideoWriter * Z) by wf (remaining c) lt :=
  process_frames self c out frame_num with inspect (read c) := {
    | exist _ (true, Some f, c') _ with enhance_frame self f => {
        | Ok enhanced_frame =>
            process_frames self c' (write enhanced_frame out) (frame_num + 1);
        | Raise e => Raise e };
    | exist _ (_, _, c') _ => Ok (c', out, frame_num) }.
Next Obligation.
  clear process_frames. revert e. unfold read, remaining.
  destruct (vc_opened c); [|discriminate].
  destruct (nth_error (vc_frames c) (vc_pos c)) eqn:E; [|discriminate].
  intro H. injection H as _ <-. simpl.
  assert (vc_pos c < length (vc_frames c))%nat
    by (apply nth_error_Some; congruence).
  lia.
Qed.

(** What a call of [process] leaves behind: the return value, the object,
    and the output stream if one was created. *)
Definition outcome : Type := (bool * VideoEnhancer * option VideoWriter)%type.

(** [process] (lines 268-332). *)
Definition process (self : VideoEnhancer) : result outcome :=
  ('(analyzed, self) <- analyze_video self ;;
   if negb analyzed then Ok (false, self, None)
   else
     match enhancement_params self, cap self with
     | Some p, Some c =>
         let '(out_width, out_height) :=
           if needs_upscaling p
           then (py_int (inject_Z (width self) * upscale_factor p),
                 py_int (inject_Z (height self) * upscale_factor p))
           else (width self, height self) in
         let out := VideoWriter_open cv (output_file self) (fps self)
                                     (out_width, out_height) in
         if negb (vw_opened out) then Ok (false, self, Some out)
         else
           ('(c, out, frame_num) <- process_frames self c out 0 ;;
            (* Cleanup *)
            let self := set_cap (release c) self in
            let out := release_writer out in
            Ok (true, self, Some out))
     | None, _ => Raise KeyError
     | _, None => Raise AttributeError
     end)%result.

End Enhancer.

(** ** Example objects *)

(** A one-pixel grey frame. *)
Definition grey (v : Z) : frame := [[[v; v; v]]].


(** A three-frame stream with correct metadata. *)
Definition reported_stream : VideoCapture :=
  mkCapture true [grey 10; grey 100; grey 200] 0 25 3 1 1.

(** An environment serving [c] as the input, with pass-through image
    operations, whose output stream opens or not as [writable] says. *)
Definition stub_cv (c : VideoCapture) (writable : bool) : Cv :=
  mkCv (fun _ => c) (fun _ _ _ => mkWriter writable [])
       (fun _ => 100) (fun _ => 60) (fun _ => 600) (fun _ => 1)
       (fun f _ => f) (fun f _ => f) (fun f _ => f) (fun f _ _ _ _ => f)
       (fun f => f) (fun f => f).

End Video.

(** * Further definitions *)

Module AudioMore.
Import Audio.

(** The noise reduction derived for a snapshot. *)
Definition reduction_of (s : QualitySnapshot) : Q :=
  noise_reduction (snd (derive_params s)).


(** The channels an external per-channel operation is applied to. *)
Definition channel_rows (a : ndarray) : list (list Q) :=
  match a with
  | Arr1 xs => [xs]
  | Arr2 rows => rows
  end.

(** The sample rate, the target rate and the file names are the same in
    two states of the object. *)
Definition same_rates (s s' : AudioCleaner) : Prop :=
  sr s' = sr s /\ target_sr s' = target_sr s
  /\ input_file s' = input_file s /\ output_file s' = output_file s.

(** An environment like [passthrough_libs] whose noise reduction and
    filtering always fail. *)
Definition failing_libs (decoded : ndarray) : Libs :=
  mkLibs (fun _ => Ok (decoded, 44100%Z)) (fun _ => 0) (fun _ _ => NaN)
         (fun _ _ _ => Raise ExternalError) (fun _ _ => Ok ([1], [1]))
         (fun _ _ _ => Raise ExternalError)
         (fun y _ _ => Ok y) (fun _ => 944 # 1000).

(** A loaded stereo object. *)
Definition loaded_stereo : AudioCleaner :=
  mkCleaner "clip.wav" "clip_cleaned.wav" 48000 (Some clipped_stereo)
            (Some (to_mono clipped_stereo)) (Some clipped_stereo)
            (Some 44100%Z) 2 (Some true) None None.

(** Every element is at most the elements after it. *)
Fixpoint ascending (l : list Q) : Prop :=
  match l with
  | [] => True
  | x :: rest => (forall y, In y rest -> x <= y) /\ ascending rest
  end.

(** [a.T] of a 2-D array: one row per frame, one entry per channel. *)
Definition np_transpose (rows : list (list Q)) : list (list Q) :=
  map (fun j => map (fun r => nth j r 0) rows) (seq 0 (length (hd [] rows))).

(** [save_audio], lines 313-316: multi-channel buffers are written
    frames first. *)
Definition audio_to_save (stereo : bool) (a : ndarray) : ndarray :=
  match a with
  | Arr2 rows => if stereo then Arr2 (np_transpose rows) else a
  | Arr1 _ => a
  end.

(** [save_audio] (lines 305-323); [sf_write] stands for
    [sf.write(path, data, rate, subtype='PCM_24')]. *)
Definition save_audio (sf_write : string -> ndarray -> Z -> result unit)
    (self : AudioCleaner) : option string :=
  try_except
    (match audio self, sr self with
     | Some a, Some rate =>
         (stereo <- match is_stereo self with
                    | Some b => Ok b
                    | None => Raise AttributeError
                    end ;;
          _ <- sf_write (output_file self) (audio_to_save stereo a) rate ;;
          Ok (Some (output_file self)))%result
     | _, _ => Ok None
     end)
    None.

(** [__init__] (lines 22-42); [splitext] stands for [os.path.splitext]. *)
Definition init_cleaner (splitext : string -> string * string)
    (input : string) (output : option string) (target_sample_rate : Z)
  : AudioCleaner :=
  new_cleaner input
    (match output with
     | None => let '(name, _) := splitext input in name ++ "_cleaned.wav"
     | Some o => o
     end)%string
    target_sample_rate.

End AudioMore.

Module VideoMore.
Import Video.

(** The six stages of [enhance_frame] for given parameters. *)
Definition enhance_with (cv : Cv) (p : EnhancementParams) (fr : frame) : frame :=
  color_stage cv p
    (brightness_contrast p
      (sharpen_stage cv p (upscale_stage cv p (denoise_stage cv p fr)))).


End VideoMore.

(** * Callers: command line and batch processing *)

Module AudioCallers.
Import Audio AudioMore.

(** A [pathlib.Path] as the callers use it: its string form, its stem and
    its suffix. *)
Record PathInfo : Type := mkPath {
  path_str : string;
  stem : string;
  suffix : string
}.

(** The host the callers run on: the audio libraries, the sound-file
    writer, and the path and file-system functions. *)
Record Host : Type := mkHost {
  libs : Libs;
  sf_write : string -> ndarray -> Z -> result unit;
  os_path_splitext : string -> string * string;
  joinpath : string -> string -> string;          (* str(Path(dir) / name) *)
  str_lower : string -> string;                   (* str.lower *)
  resolve : string -> PathInfo;                   (* Path(p).expanduser().resolve() *)
  is_dir : PathInfo -> bool;
  is_file : PathInfo -> bool;
  sorted_iterdir : PathInfo -> list PathInfo;     (* sorted(path.iterdir()) *)
  mkdir : string -> result unit;                  (* mkdir(parents=True, exist_ok=True) *)
  folder_exists : string -> bool;                 (* Path(folder).exists() *)
  iterdir : string -> result (list PathInfo)      (* Path(folder).iterdir() *)
}.

Section Cli.

Context (H : Host).

(** [cli._iter_audio_files] (lines 14-25), consumed by [list(...)];
    [None] is the [FileNotFoundError]. *)
Fixpoint _iter_audio_files (paths : list string) : option (list PathInfo) :=
  match paths with
  | [] => Some []
  | p :: rest =>
      let path := resolve H p in
      let here :=
        if is_dir H path then Some (filter (is_file H) (sorted_iterdir H path))
        else if is_file H path then Some [path]
        else None in
      match here, _iter_audio_files rest with
      | Some a, Some b => Some (a ++ b)
      | _, _ => None
      end
  end.

(** The cleaner [cli.main] builds for one file (lines 74-82). *)
Definition cli_cleaner (file_path : PathInfo) (output_root : option string)
    (sample_rate : Z) : AudioCleaner :=
  let destination :=
    match output_root with
    | Some root => Some (joinpath H root (stem file_path ++ "_cleaned.wav"))
    | None => None
    end in
  init_cleaner (os_path_splitext H) (path_str file_path) destination sample_rate.

(** [cli.main], lines 73-94: the loop over the files; the result is the
    exit status. *)
Fixpoint clean_files (files : list PathInfo) (output_root : option string)
    (sample_rate : Z) (dry_run : bool) : result Z :=
  match files with
  | [] => Ok 0%Z
  | file_path :: rest =>
      let cleaner := cli_cleaner file_path output_root sample_rate in
      if dry_run then clean_files rest output_root sample_rate dry_run
      else
        match process (libs H) cleaner with
        | Raise e => Raise e
        | Ok (false, _) => Ok 1%Z
        | Ok (true, cleaner) =>
            match save_audio (sf_write H) cleaner with
            | None => Ok 1%Z
            | Some _ => clean_files rest output_root sample_rate dry_run
            end
        end
  end.

(** [cli.main] (lines 56-96); [parser.error] exits with status 2. *)
Definition main (inputs : list string) (output_dir : option string)
    (sample_rate : Z) (dry_run : bool) : result Z :=
  match _iter_audio_files inputs with
  | None => Ok 2%Z
  | Some [] => Ok 2%Z
  | Some files =>
      match (match output_dir with
             | Some root => mkdir H root
             | None => Ok tt
             end) with
      | Raise e => Raise e
      | Ok _ => clean_files files output_dir sample_rate dry_run
      end
  end.

(** A file the loop gets past: processing succeeds and the result is
    saved. *)
Definition cleans (output_root : option string) (sample_rate : Z)
    (f : PathInfo) : Prop :=
  exists s out,
    process (libs H) (cli_cleaner f output_root sample_rate) = Ok (true, s)
    /\ save_audio (sf_write H) s = Some out.

(** A file the loop stops at: processing returns [False], or saving
    returns [None]. *)
Definition fails (output_root : option string) (sample_rate : Z)
    (f : PathInfo) : Prop :=
  exists ok s,
    process (libs H) (cli_cleaner f output_root sample_rate) = Ok (ok, s)
    /\ (ok = false \/ save_audio (sf_write H) s = None).

(** [batch_process.process_audio_folder] *)

Definition audio_extensions : list string :=
  [".wav"; ".mp3"; ".m4a"; ".flac"; ".aac"; ".ogg"]%string.

Definition has_audio_extension (f : PathInfo) : bool :=
  existsb (String.eqb (str_lower H (suffix f))) audio_extensions.

(** Python truthiness of an optional string argument. *)
Definition given (s : option string) : option string :=
  match s with
  | Some EmptyString => None
  | _ => s
  end.

(** Lines 53-57: the cleaner for one file, at the default 48 kHz. *)
Definition batch_cleaner (input : PathInfo) (output_folder : option string)
  : AudioCleaner :=
  match given output_folder with
  | Some folder =>
      init_cleaner (os_path_splitext H) (path_str input)
        (Some (joinpath H folder (stem input ++ "_cleaned.wav"))) 48000
  | None => init_cleaner (os_path_splitext H) (path_str input) None 48000
  end.

(** Lines 52-66: one iteration; [true] counts as successful, [false] as
    failed.  The result of [save_audio] is not looked at. *)
Definition batch_clean_one (input : PathInfo) (output_folder : option string)
  : bool :=
  match process (libs H) (batch_cleaner input output_folder) with
  | Ok (true, cleaner) =>
      match save_audio (sf_write H) cleaner with _ => true end
  | Ok (false, _) => false
  | Raise _ => false
  end.

(** Lines 47-66: the counters [successful] and [failed]. *)
Definition batch_count (files : list PathInfo) (output_folder : option string)
  : nat * nat :=
  fold_left
    (fun '(successful, failed) input =>
       if batch_clean_one input output_folder
       then (S successful, failed) else (successful, S failed))
    files (0%nat, 0%nat).

(** [process_audio_folder] (lines 20-70): the counters of the final
    report, or [None] when it returns early. *)
Definition process_audio_folder (folder : string) (output_folder : option string)
  : result (option (nat * nat)) :=
  if negb (folder_exists H folder) then Ok None
  else
    match iterdir H folder with
    | Raise e => Raise e
    | Ok entries =>
        let files := filter has_audio_extension entries in
        match files with
        | [] => Ok None
        | _ => Ok (Some (batch_count files output_folder))
        end
    end.

End Cli.

(** A host with one decodable stereo file behind every path, a writer
    that accepts everything, and a folder holding an audio file and a
    text file. *)
Definition stub_host : Host :=
  mkHost (passthrough_libs clipped_stereo) (fun _ _ _ => Ok tt)
         (fun p => (p, EmptyString)) (fun d n => d ++ "/" ++ n)%string
         (fun s => s) (fun p => mkPath p p EmptyString)
         (fun _ => false) (fun _ => true) (fun _ => [])
         (fun _ => Ok tt) (fun _ => true)
         (fun _ => Ok [mkPath "a.wav" "a" ".wav";
                       mkPath "notes.txt" "notes" ".txt"]).

End AudioCallers.

Module VideoCallers.
Import Video VideoMore.

(** [VideoEnhancer.__init__] (lines 16-39); [splitext] stands for
    [os.path.splitext]. *)
Definition init_enhancer (splitext : string -> string * string)
    (input : string) (output : option string) (target : option (Z * Z))
  : VideoEnhancer :=
  new_enhancer input
    (match output with
     | None => let '(name, ext) := splitext input in name ++ "_enhanced" ++ ext
     | Some o => o
     end)%string
    target.

(** [video_enhancer/cli.py], [_RESOLUTION_MAP] applied to one of its
    keys. *)
Definition _RESOLUTION_MAP (key : string) : option (option (Z * Z)) :=
  if (key =? "auto")%string then Some None
  else if (key =? "1080p")%string then Some (Some (1920, 1080)%Z)
  else if (key =? "4k")%string then Some (Some (3840, 2160)%Z)
  else None.

(** [batch_process.process_video_folder], lines 98-105. *)
Definition batch_target_res (resolution : string) : option (Z * Z) :=
  if (resolution =? "1080p")%string then Some (1920, 1080)%Z
  else if (resolution =? "4k")%string then Some (3840, 2160)%Z
  else None.

(** [gui.get_target_resolution] followed by the choice in
    [gui.process_files] (lines 523-533, 593-599): the target handed to
    [VideoEnhancer]. *)
Definition gui_target_res (value : string) : option (Z * Z) :=
  if (value =? "1080p")%string then Some (1920, 1080)%Z
  else if (value =? "4k")%string then Some (3840, 2160)%Z
  else if (value =? "original")%string then None
  else None.

End VideoCallers.

(** * Properties *)

(** ** Comparisons *)

Lemma Qlt_bool_iff (a b : Q) : Qlt_bool a b = true <-> a < b.
Proof.
  unfold Qlt_bool. rewrite negb_true_iff.
  split; intro H.
  - apply Qnot_le_lt. intro Hle. apply Qle_bool_iff in Hle. congruence.
  - destruct (Qle_bool b a) eqn:E; [|reflexivity].
    apply Qle_bool_iff in E. exfalso. apply (Qlt_not_le _ _ H E).
Qed.

Lemma Qlt_bool_false (a b : Q) : Qlt_bool a b = false <-> b <= a.
Proof.
  unfold Qlt_bool. rewrite negb_false_iff. apply Qle_bool_iff.
Qed.

Lemma Qlt_bool_spec (a b : Q) : reflect (a < b) (Qlt_bool a b).
Proof.
  destruct (Qlt_bool a b) eqn:E; constructor.
  - now apply Qlt_bool_iff.
  - apply Qlt_bool_false in E. now apply Qle_not_lt.
Qed.

(** Case analysis on every comparison the goal branches on. *)
Ltac split_ifs :=
  repeat match goal with
         | |- context [if ?b then _ else _] => destruct b eqn:?
         end.

Module AudioFacts.
Import Audio.

(** ** Parameter derivation *)

Lemma cutoff_of_noise_floor (s : QualitySnapshot) :
  cutoff_of s =
  if f_gt (q_noise_floor s) (1 # 100) then 80%Z
  else if f_gt (q_noise_floor s) (5 # 1000) then 60%Z
  else if f_gt (q_noise_floor s) (2 # 1000) then 40%Z
  else 0%Z.
Proof.
  unfold cutoff_of, derive_params, rule_peak, rule_noise_floor, rule_hf, rule_snr.
  split_ifs; reflexivity.
Qed.

(** C6. Two snapshots that differ only in their noise floor: the derived
    high-pass cutoff does not decrease when the noise floor increases, and
    it is 80 above 0.01, 60 above 0.005, 40 above 0.002 and 0 otherwise. *)
Theorem high_pass_cutoff_monotone
    (peak signal snr hf : fval) (nf1 nf2 : Q) :
  nf1 <= nf2 ->
  let s1 := mkSnapshot peak (Num nf1) signal snr hf in
  let s2 := mkSnapshot peak (Num nf2) signal snr hf in
  (cutoff_of s1 <= cutoff_of s2)%Z
  /\ In (cutoff_of s2) [0; 40; 60; 80]%Z
  /\ (1 # 100 < nf2 -> cutoff_of s2 = 80%Z)
  /\ (5 # 1000 < nf2 <= 1 # 100 -> cutoff_of s2 = 60%Z)
  /\ (2 # 1000 < nf2 <= 5 # 1000 -> cutoff_of s2 = 40%Z)
  /\ (nf2 <= 2 # 1000 -> cutoff_of s2 = 0%Z).
Proof.
  intros Hle s1 s2. subst s1 s2.
  rewrite !cutoff_of_noise_floor. cbn [q_noise_floor f_gt].
  destruct (Qlt_bool_spec (1 # 100) nf1), (Qlt_bool_spec (5 # 1000) nf1),
    (Qlt_bool_spec (2 # 1000) nf1), (Qlt_bool_spec (1 # 100) nf2),
    (Qlt_bool_spec (5 # 1000) nf2), (Qlt_bool_spec (2 # 1000) nf2);
    try (exfalso; lra);
    (repeat split; [lia | simpl; tauto | intros; try reflexivity; exfalso; lra ..]).
Qed.

Lemma high_pass_cutoff_monotone_witness :
  let s1 := mkSnapshot (Num (3 # 10)) (Num (3 # 1000)) (Num (1 # 10)) (Num 30) NaN in
  let s2 := mkSnapshot (Num (3 # 10)) (Num (7 # 1000)) (Num (1 # 10)) (Num 30) NaN in
  (cutoff_of s1 <= cutoff_of s2)%Z /\ cutoff_of s1 = 40%Z /\ cutoff_of s2 = 60%Z.
Proof.
  pose proof (high_pass_cutoff_monotone (Num (3 # 10)) (Num (1 # 10)) (Num 30)
                NaN (3 # 1000) (7 # 1000)) as H.
  simpl in H. destruct H as [H _]; [vm_compute; discriminate|].
  split; [exact H | split; reflexivity].
Defined.

(** C7. Whatever the metrics (NaN included), the derived record has
    [noise_reduction] in [0, 0.8], [high_pass_cutoff] in {0, 40, 60, 80}
    and [normalization_target] in (0, 1], namely 0.75, 0.8 or 0.85. *)
Theorem derive_params_invariant (s : QualitySnapshot) :
  let p := snd (derive_params s) in
  (0 <= noise_reduction p /\ noise_reduction p <= 8 # 10)
  /\ In (high_pass_cutoff p) [0; 40; 60; 80]%Z
  /\ (0 < normalization_target p /\ normalization_target p <= 1)
  /\ In (normalization_target p) [75 # 100; 8 # 10; 85 # 100].
Proof.
  destruct s as [peak nf sl snr hf].
  unfold derive_params, rule_peak, rule_noise_floor, rule_hf, rule_snr.
  cbn [q_peak q_noise_floor q_snr q_hf_ratio].
  destruct (f_lt snr 15), (f_lt snr 25), (f_lt snr 40), (f_gt hf (3 # 10)),
    (f_gt nf (1 # 100)), (f_gt nf (5 # 1000)), (f_gt nf (2 # 1000)),
    (f_gt peak (99 # 100)), (f_lt peak (2 # 10)), (f_lt peak (5 # 10));
    vm_compute; intuition discriminate.
Qed.

End AudioFacts.

Module AudioBufferFacts.
Import Audio.

(** ** Analysis return value *)

(** C8. [analyze_quality] returns [needs_processing]: there is a loaded
    buffer with SNR at least 40, noise floor at most 0.005 and peak at
    least 0.2 for which it returns [False], the value it also returns when
    nothing is loaded. *)
Theorem analyze_quality_false_is_ambiguous (L : Libs) :
  let unloaded := new_cleaner "clean.wav" "clean_cleaned.wav" 48000 in
  let loaded := loaded_mono quiet_buffer 48000 in
  audio unloaded = None
  /\ audio loaded = Some (Arr1 quiet_buffer)
  /\ analyze_quality L unloaded = Ok (false, unloaded)
  /\ (exists s', analyze_quality L loaded = Ok (false, s'))
  /\ (exists snap snr nf peak,
        measure L quiet_buffer 48000 = Ok snap
        /\ q_snr snap = Num snr /\ 40 <= snr
        /\ q_noise_floor snap = Num nf /\ nf <= 5 # 1000
        /\ q_peak snap = Num peak /\ 2 # 10 <= peak).
Proof.
  cbv zeta. repeat split.
  - unfold analyze_quality, loaded_mono, measure, derive_params. cbn.
    unfold rule_hf. cbn.
    destruct (f_gt (stft_hf_ratio L quiet_buffer 48000) (3 # 10));
      eexists; reflexivity.
  - eexists. exists 100, 0, (1 # 2).
    repeat split; try (vm_compute; discriminate).
Qed.

(** ** Maximum of a list *)

Lemma Qmax_of_ge (l : list Q) : forall x y, In y (x :: l) -> y <= Qmax_of x l.
Proof.
  unfold Qmax_of. induction l as [|z l IH]; intros x y Hin; simpl.
  - destruct Hin as [<-|[]]. apply Qle_refl.
  - destruct (Qlt_bool_spec x z) as [Hlt|Hge].
    + destruct Hin as [<-|Hin].
      * apply Qle_trans with z; [now apply Qlt_le_weak|]. apply IH. now left.
      * apply IH. exact Hin.
    + destruct Hin as [<-|[<-|Hin]].
      * apply IH. now left.
      * apply Qle_trans with x; [now apply Qnot_lt_le|]. apply IH. now left.
      * apply IH. now right.
Qed.

Lemma Qmax_of_In (l : list Q) : forall x, In (Qmax_of x l) (x :: l).
Proof.
  unfold Qmax_of. induction l as [|z l IH]; intros x; simpl.
  - now left.
  - destruct (Qlt_bool x z).
    + right. apply IH.
    + destruct (IH x) as [H|H]; [left; exact H | right; right; exact H].
Qed.

Lemma Qmax_of_map (f : Q -> Q) (l : list Q) :
  (forall m y, Qlt_bool (f m) (f y) = Qlt_bool m y) ->
  forall x, Qmax_of (f x) (map f l) = f (Qmax_of x l).
Proof.
  intros Hf. unfold Qmax_of. induction l as [|z l IH]; intros x; simpl.
  - reflexivity.
  - rewrite Hf. destruct (Qlt_bool x z); apply IH.
Qed.

Lemma Qabs_scale (x c : Q) : 0 < c -> Qabs (x * c) = Qabs x * c.
Proof.
  destruct x as [xn xd], c as [cn cd]. unfold Qlt. simpl. intros Hc.
  unfold Qmult, Qabs. simpl. f_equal.
  rewrite Z.abs_mul. f_equal. apply Z.abs_eq. lia.
Qed.

Lemma Qlt_bool_scale (c m y : Q) :
  0 < c -> Qlt_bool (m * c) (y * c) = Qlt_bool m y.
Proof.
  intros Hc.
  destruct (Qlt_bool_spec m y) as [H|H].
  - apply Qlt_bool_iff. apply Qmult_lt_compat_r; assumption.
  - apply Qlt_bool_false. apply Qmult_le_compat_r.
    + now apply Qnot_lt_le.
    + now apply Qlt_le_weak.
Qed.

Lemma samples_arr_map (f : Q -> Q) (a : ndarray) :
  samples (arr_map f a) = map f (samples a).
Proof.
  destruct a as [xs|rows]; simpl; [reflexivity|].
  now rewrite concat_map.
Qed.

Lemma abs_max_scale (a : ndarray) (c peak : Q) :
  0 < c -> abs_max a = Ok peak ->
  abs_max (arr_map (fun x => x * c) a) = Ok (peak * c).
Proof.
  intros Hc. unfold abs_max. rewrite samples_arr_map, map_map.
  rewrite (map_ext (fun x => Qabs (x * c)) (fun x => Qabs x * c))
    by (intros; now apply Qabs_scale).
  rewrite <- (map_map Qabs (fun y => y * c)).
  destruct (map Qabs (samples a)) as [|x l]; simpl; [discriminate|].
  intros [= <-]. f_equal.
  apply (Qmax_of_map (fun y => y * c)). intros. now apply Qlt_bool_scale.
Qed.

(** [abs_max] bounds every sample, and is the magnitude of one of them. *)
Lemma abs_max_bound (a : ndarray) (peak x : Q) :
  abs_max a = Ok peak -> In x (samples a) -> Qabs x <= peak.
Proof.
  unfold abs_max. intros H Hin.
  apply (in_map Qabs) in Hin.
  destruct (map Qabs (samples a)) as [|y l]; simpl in *; [contradiction|].
  injection H as <-. now apply Qmax_of_ge.
Qed.

Lemma abs_max_attained (a : ndarray) (peak : Q) :
  abs_max a = Ok peak -> exists x, In x (samples a) /\ peak = Qabs x.
Proof.
  unfold abs_max. intros H.
  destruct (map Qabs (samples a)) as [|y l] eqn:E; simpl in *; [discriminate|].
  injection H as <-.
  pose proof (Qmax_of_In l y) as Hin. rewrite <- E in Hin.
  apply in_map_iff in Hin. destruct Hin as (x & Hx & Hin).
  exists x. split; [exact Hin | now symmetry].
Qed.

Lemma abs_max_defined (a : ndarray) (x : Q) :
  In x (samples a) -> exists peak, abs_max a = Ok peak.
Proof.
  unfold abs_max. intros Hin. apply (in_map Qabs) in Hin.
  destruct (map Qabs (samples a)); simpl in *; [contradiction|].
  eexists. reflexivity.
Qed.

Lemma Qabs_nonzero_pos (x : Q) : ~ x == 0 -> 0 < Qabs x.
Proof.
  intros Hx. destruct (Qlt_le_dec 0 (Qabs x)) as [H|H]; [exact H|].
  exfalso. apply Hx. apply Qabs_Qle_condition in H. lra.
Qed.

(** ** Normalization *)

(** C4. For a loaded buffer and a target in (0, 1]: if some sample is not
    zero, the largest magnitude after [smart_normalize] is the target
    (exactly, on rational samples); if every sample is zero, the object
    is unchanged. *)
Theorem smart_normalize_peak (self : AudioCleaner) (a : ndarray) (t : Q) :
  audio self = Some a -> 0 < t -> t <= 1 ->
  ((exists x, In x (samples a) /\ ~ x == 0) ->
   exists a' m, audio (smart_normalize t self) = Some a'
                /\ abs_max a' = Ok m /\ m == t)
  /\ ((forall x, In x (samples a) -> x == 0) -> smart_normalize t self = self).
Proof.
  intros Ha Ht0 Ht1. unfold smart_normalize. rewrite Ha. split.
  - intros (x & Hin & Hx).
    destruct (abs_max_defined a x Hin) as [peak Hpeak].
    rewrite Hpeak. simpl.
    assert (Hpos : 0 < peak).
    { apply Qlt_le_trans with (Qabs x); [|eapply abs_max_bound; eauto].
      now apply Qabs_nonzero_pos. }
    assert (Hb : Qlt_bool 0 peak = true) by now apply Qlt_bool_iff.
    rewrite Hb. simpl.
    exists (arr_map (fun y => y * (t / peak)) a), (peak * (t / peak)).
    split; [reflexivity|]. split.
    + apply abs_max_scale; [|exact Hpeak].
      apply Qlt_shift_div_l; [exact Hpos|]. lra.
    + field. intro Hz. rewrite Hz in Hpos. now apply (Qlt_irrefl 0).
  - intros Hzero.
    destruct (abs_max a) as [peak|e] eqn:Hpeak; simpl; [|reflexivity].
    destruct (abs_max_attained a peak Hpeak) as (x & Hin & ->).
    assert (Hb : Qlt_bool 0 (Qabs x) = false).
    { apply Qlt_bool_false. rewrite (Hzero x Hin). apply Qle_refl. }
    now rewrite Hb.
Qed.

Lemma smart_normalize_peak_witness :
  exists a' m,
    audio (smart_normalize (8 # 10) stereo_collapsed) = Some a'
    /\ abs_max a' = Ok m /\ m == 8 # 10.
Proof.
  refine (proj1 (smart_normalize_peak stereo_collapsed (Arr1 [1 # 2; - (1 # 4)])
                   (8 # 10) eq_refl _ _) _).
  - reflexivity.
  - discriminate.
  - exists (1 # 2). split; [now left | discriminate].
Defined.

(** ** Channel restoration *)

(** C1, as the code has it.  When the source was multi-channel and the
    buffer is a single mono signal, [restore_stereo] stacks exactly two
    copies of that signal; the result has the source's channel count
    exactly when the source had two channels. *)
Theorem restore_stereo_duplicates (self : AudioCleaner) (xs : list Q) :
  is_stereo self = Some true -> audio self = Some (Arr1 xs) ->
  restore_stereo self = Ok (set_audio (Arr2 [xs; xs]) self)
  /\ (shape0 (Arr2 [xs; xs]) = channels self <-> channels self = 2%Z).
Proof.
  intros Hs Ha. unfold restore_stereo. rewrite Hs, Ha. simpl.
  rewrite Nat.eqb_refl. simpl. split; [reflexivity|].
  split; intro H; now rewrite <- H || rewrite H.
Qed.

Lemma restore_stereo_duplicates_witness :
  restore_stereo stereo_collapsed
  = Ok (set_audio (Arr2 [[1 # 2; - (1 # 4)]; [1 # 2; - (1 # 4)]]) stereo_collapsed)
  /\ channels stereo_collapsed = 2%Z.
Proof.
  destruct (restore_stereo_duplicates stereo_collapsed [1 # 2; - (1 # 4)]
              eq_refl eq_refl) as [H1 H2].
  split; [exact H1 | reflexivity].
Defined.

(** C1 as stated fails: a three-channel source whose buffer is mono comes
    out with two channels, not three. *)
Lemma restore_stereo_three_channels :
  is_stereo surround_collapsed = Some true
  /\ channels surround_collapsed = 3%Z
  /\ audio surround_collapsed = Some (Arr1 [1 # 2; - (1 # 4)])
  /\ exists s' a',
       restore_stereo surround_collapsed = Ok s'
       /\ audio s' = Some a'
       /\ shape0 a' = 2%Z
       /\ shape0 a' <> channels surround_collapsed.
Proof.
  repeat split.
  eexists. eexists. repeat split. discriminate.
Qed.

End AudioBufferFacts.

Module AudioPipelineFacts.
Import Audio AudioBufferFacts.

(** ** What the stages leave alone *)

Lemma same_layout_refl (s : AudioCleaner) : same_layout s s.
Proof. repeat split. Qed.

Lemma same_layout_trans (s1 s2 s3 : AudioCleaner) :
  same_layout s1 s2 -> same_layout s2 s3 -> same_layout s1 s3.
Proof.
  intros (A1 & B1 & C1) (A2 & B2 & C2).
  repeat split; congruence.
Qed.

Lemma same_layout_set_audio (s : AudioCleaner) (a a' : ndarray) :
  audio s = Some a -> layout_of a' = layout_of a ->
  same_layout s (set_audio a' s).
Proof.
  intros Ha Hl. unfold same_layout, audio_layout. rewrite Ha. simpl.
  rewrite Hl. repeat split.
Qed.

Lemma mapM_length {A B : Type} (f : A -> result B) (l : list A) :
  forall l', mapM f l = Ok l' -> length l' = length l.
Proof.
  induction l as [|x l IH]; simpl; intros l' H.
  - now injection H as <-.
  - destruct (f x); [|discriminate].
    destruct (mapM f l) as [ys|]; [|discriminate].
    injection H as <-. simpl. f_equal. now apply IH.
Qed.

Lemma along_last_axis_layout (f : list Q -> result (list Q)) (a a' : ndarray) :
  along_last_axis f a = Ok a' -> layout_of a' = layout_of a.
Proof.
  destruct a as [xs|rows]; simpl.
  - destruct (f xs); simpl; [|discriminate]. now intros [= <-].
  - destruct (mapM f rows) as [rs|] eqn:E; simpl; [|discriminate].
    intros [= <-]. simpl. f_equal. eapply mapM_length; eauto.
Qed.

Lemma np_vstack_rows (rows : list (list Q)) (a : ndarray) :
  np_vstack rows = Ok a -> a = Arr2 rows.
Proof.
  unfold np_vstack. destruct rows as [|r rs]; [discriminate|].
  destruct (same_length _ _); [|discriminate]. now intros [= <-].
Qed.

Lemma arr_map_layout (f : Q -> Q) (a : ndarray) :
  layout_of (arr_map f a) = layout_of a.
Proof.
  destruct a; simpl; [reflexivity|]. now rewrite length_map.
Qed.

Lemma apply_channelwise_layout (func : list Q -> result (list Q))
    (self s : AudioCleaner) :
  _apply_channelwise func self = Ok s ->
  same_layout self s /\ processing_params s = processing_params self.
Proof.
  unfold _apply_channelwise.
  destruct (audio self) as [a|] eqn:Ha.
  2:{ intros [= <-]. split; [apply same_layout_refl | reflexivity]. }
  destruct (channels self <=? 1)%Z.
  - destruct (along_last_axis func a) as [a'|] eqn:E; simpl; [|discriminate].
    intros [= <-]. split; [|reflexivity].
    apply same_layout_set_audio with a; [exact Ha|].
    eapply along_last_axis_layout; eauto.
  - destruct a as [xs|rows]; [discriminate|].
    destruct (mapM func rows) as [rs|] eqn:E; simpl; [|discriminate].
    destruct (np_vstack rs) as [a'|] eqn:V; simpl; [|discriminate].
    intros [= <-]. split; [|reflexivity].
    apply same_layout_set_audio with (Arr2 rows); [exact Ha|].
    apply np_vstack_rows in V. subst a'. simpl. f_equal.
    eapply mapM_length; eauto.
Qed.

Section Stages.

Context (L : Libs).

Lemma adaptive_noise_reduction_layout (amount : Q) (self : AudioCleaner) :
  same_layout self (adaptive_noise_reduction L amount self)
  /\ processing_params (adaptive_noise_reduction L amount self)
     = processing_params self.
Proof.
  unfold adaptive_noise_reduction.
  destruct (Qle_bool amount 0);
    [split; [apply same_layout_refl | reflexivity]|].
  cbv zeta.
  destruct (_apply_channelwise _ self) as [s|] eqn:E; simpl.
  - eapply apply_channelwise_layout; eauto.
  - split; [apply same_layout_refl | reflexivity].
Qed.

Lemma adaptive_high_pass_layout (cutoff : Z) (self : AudioCleaner) :
  same_layout self (adaptive_high_pass L cutoff self)
  /\ processing_params (adaptive_high_pass L cutoff self)
     = processing_params self.
Proof.
  assert (Hrefl : same_layout self self /\ processing_params self = processing_params self)
    by (split; [apply same_layout_refl | reflexivity]).
  unfold adaptive_high_pass.
  destruct (cutoff <=? 0)%Z; [exact Hrefl|].
  destruct (audio self) as [a|]; [|exact Hrefl].
  destruct (sr self) as [rate|]; [|exact Hrefl].
  destruct (Qeq_bool _ 0); [exact Hrefl|].
  destruct (signal_butter L _ _) as [[b a0]|]; simpl; [|exact Hrefl].
  destruct (_apply_channelwise _ self) as [s|] eqn:E; simpl; [|exact Hrefl].
  eapply apply_channelwise_layout; eauto.
Qed.

Lemma smart_normalize_layout (t : Q) (self : AudioCleaner) :
  same_layout self (smart_normalize t self)
  /\ processing_params (smart_normalize t self) = processing_params self.
Proof.
  assert (Hrefl : same_layout self self /\ processing_params self = processing_params self)
    by (split; [apply same_layout_refl | reflexivity]).
  unfold smart_normalize.
  destruct (audio self) as [a|] eqn:Ha; [|exact Hrefl].
  destruct (abs_max a) as [peak|]; simpl; [|exact Hrefl].
  destruct (Qlt_bool 0 peak); simpl; [|exact Hrefl].
  split; [|reflexivity].
  apply same_layout_set_audio with a; [exact Ha | apply arr_map_layout].
Qed.

Lemma gentle_limiter_layout (threshold : Q) (self : AudioCleaner) :
  same_layout self (gentle_limiter L threshold self)
  /\ processing_params (gentle_limiter L threshold self)
     = processing_params self.
Proof.
  unfold gentle_limiter.
  destruct (audio self) as [a|] eqn:Ha;
    [|split; [apply same_layout_refl | reflexivity]].
  split; [|reflexivity].
  apply same_layout_set_audio with a; [exact Ha | apply arr_map_layout].
Qed.

Lemma resample_if_needed_layout (self s : AudioCleaner) :
  resample_if_needed L self = Ok s ->
  same_layout self s /\ processing_params s = processing_params self.
Proof.
  assert (Hrefl : same_layout self self /\ processing_params self = processing_params self)
    by (split; [apply same_layout_refl | reflexivity]).
  unfold resample_if_needed.
  destruct (audio self) as [a|] eqn:Ha; [|now intros [= <-]].
  destruct (sr self) as [rate|]; [|now intros [= <-]].
  destruct (negb (rate =? target_sr self)%Z); [|now intros [= <-]].
  destruct (along_last_axis _ a) as [a'|] eqn:E; simpl; [|discriminate].
  intros [= <-]. split; [|reflexivity].
  apply along_last_axis_layout in E.
  unfold same_layout, audio_layout. rewrite Ha. simpl. rewrite E.
  repeat split.
Qed.

Lemma limit_if_flagged_layout (self : AudioCleaner) :
  same_layout self (limit_if_flagged L self)
  /\ processing_params (limit_if_flagged L self) = processing_params self.
Proof.
  unfold limit_if_flagged.
  destruct (processing_params self) as [p|] eqn:Hp;
    [|split; [apply same_layout_refl | congruence]].
  destruct (needs_limiting p);
    [|split; [apply same_layout_refl | congruence]].
  rewrite <- Hp. apply gentle_limiter_layout.
Qed.

Lemma apply_corrections_layout (needs : bool) (self s : AudioCleaner) :
  apply_corrections L needs self = Ok s ->
  same_layout self s /\ processing_params s = processing_params self.
Proof.
  unfold apply_corrections, param.
  destruct needs; [|intros [= <-]; split; [apply same_layout_refl | reflexivity]].
  destruct (processing_params self) as [p|] eqn:Hp; simpl; [|discriminate].
  set (s1 := if Qlt_bool 0 (noise_reduction p)
             then adaptive_noise_reduction L (noise_reduction p) self else self).
  assert (H1 : same_layout self s1 /\ processing_params s1 = processing_params self).
  { subst s1. destruct (Qlt_bool 0 (noise_reduction p)).
    - apply adaptive_noise_reduction_layout.
    - split; [apply same_layout_refl | reflexivity]. }
  destruct H1 as [H1 P1]. rewrite P1, Hp. simpl.
  intros [= <-].
  destruct (0 <? high_pass_cutoff p)%Z.
  - destruct (adaptive_high_pass_layout (high_pass_cutoff p) s1) as [H2 P2].
    split; [eapply same_layout_trans; eauto | congruence].
  - split; [exact H1 | congruence].
Qed.

(** The state [load_audio] produces. *)
Lemma load_audio_loaded (self loaded : AudioCleaner) :
  load_audio L self = (true, loaded) ->
  exists a rate,
    audio loaded = Some a /\ analysis_audio loaded = Some (to_mono a)
    /\ sr loaded = Some rate /\ mono_collapsed loaded = false
    /\ exists b, is_stereo loaded = Some b.
Proof.
  unfold load_audio.
  destruct (librosa_load L (input_file self)) as [[a rate]|]; [|discriminate].
  intros [= <-]. exists a, rate. unfold mono_collapsed. simpl.
  repeat split; [|eexists; reflexivity].
  destruct a as [xs|rows]; simpl; [reflexivity|].
  now destruct (1 <? Z.of_nat (length rows))%Z.
Qed.

Lemma analyze_quality_loaded (self s : AudioCleaner) (needs : bool)
    (a : ndarray) (mono : list Q) (rate : Z) :
  audio self = Some a -> analysis_audio self = Some mono -> sr self = Some rate ->
  analyze_quality L self = Ok (needs, s) ->
  exists snap,
    measure L mono rate = Ok snap
    /\ needs = fst (derive_params snap)
    /\ s = set_analysis needs (snd (derive_params snap)) self.
Proof.
  intros Ha Hm Hr. unfold analyze_quality. rewrite Ha, Hm, Hr.
  destruct (measure L mono rate) as [snap|]; simpl; [|discriminate].
  destruct (derive_params snap) as [n p] eqn:E. intros [= <- <-].
  exists snap. rewrite E. repeat split.
Qed.

(** What [process_to_normalized] goes through when loading succeeds. *)
Lemma process_to_normalized_steps (self s : AudioCleaner) :
  process_to_normalized L self = Ok (true, s) ->
  exists loaded snap corrected,
    load_audio L self = (true, loaded)
    /\ processing_params corrected = Some (snd (derive_params snap))
    /\ same_layout loaded corrected
    /\ s = smart_normalize (normalization_target (snd (derive_params snap)))
                           corrected.
Proof.
  unfold process_to_normalized.
  destruct (load_audio L self) as [ok loaded] eqn:Hl.
  destruct ok; simpl; [|discriminate].
  destruct (load_audio_loaded _ _ Hl) as (a & rate & Ha & Hm & Hr & _).
  destruct (analyze_quality L loaded) as [[needs s2]|] eqn:Hq; simpl; [|discriminate].
  destruct (analyze_quality_loaded _ _ _ _ _ _ Ha Hm Hr Hq) as (snap & _ & _ & Hs2).
  destruct (apply_corrections L needs s2) as [s3|] eqn:Hc; simpl; [|discriminate].
  destruct (apply_corrections_layout _ _ _ Hc) as [Hlay Hp].
  assert (Hp3 : processing_params s3 = Some (snd (derive_params snap)))
    by (rewrite Hp, Hs2; reflexivity).
  unfold param. rewrite Hp3. simpl. intros [= <-].
  exists loaded, snap, s3.
  split; [reflexivity|]. split; [exact Hp3|]. split; [|reflexivity].
  rewrite Hs2 in Hlay. exact Hlay.
Qed.

End Stages.

End AudioPipelineFacts.

Module AudioProcessFacts.
Import Audio AudioBufferFacts AudioPipelineFacts.

(** ** Limiter after normalization *)

(** The limiter flag is only ever set together with the 0.75 target. *)
Lemma needs_limiting_target (s : QualitySnapshot) :
  needs_limiting (snd (derive_params s)) = true ->
  normalization_target (snd (derive_params s)) = 75 # 100.
Proof.
  unfold derive_params, rule_peak, rule_noise_floor, rule_hf, rule_snr.
  split_ifs; simpl; intros H; try discriminate; reflexivity.
Qed.

(** After [smart_normalize] no sample exceeds the target in magnitude. *)
Lemma smart_normalize_bounded (t : Q) (self : AudioCleaner) (a' : ndarray) :
  0 <= t -> audio (smart_normalize t self) = Some a' ->
  forall x, In x (samples a') -> Qabs x <= t.
Proof.
  intros Ht. unfold smart_normalize.
  destruct (audio self) as [a|] eqn:Ha; simpl; [|congruence].
  destruct (abs_max a) as [peak|] eqn:Hpeak; simpl.
  - destruct (Qlt_bool_spec 0 peak) as [Hpos|Hnp]; simpl.
    + intros [= <-] x Hin. rewrite samples_arr_map in Hin.
      apply in_map_iff in Hin. destruct Hin as (y & <- & Hy).
      pose proof (abs_max_bound a peak y Hpeak Hy) as Hb.
      assert (Hc : 0 <= t / peak).
      { apply Qle_shift_div_l; [exact Hpos|]. lra. }
      rewrite Qabs_Qmult, (Qabs_pos (t / peak)) by exact Hc.
      apply Qle_trans with (peak * (t / peak)).
      * apply Qmult_le_compat_r; assumption.
      * apply Qle_lteq. right. field.
        intro Hz. rewrite Hz in Hpos. now apply (Qlt_irrefl 0).
    + rewrite Ha. intros [= <-] x Hin.
      pose proof (abs_max_bound a peak x Hpeak Hin) as Hb.
      apply Qnot_lt_le in Hnp. lra.
  - rewrite Ha. intros [= <-] x Hin.
    destruct (abs_max_defined a x Hin) as [peak Hp]. congruence.
Qed.

Lemma clip_inside (lo hi x : Q) : lo <= x -> x <= hi -> clip lo hi x = x.
Proof.
  intros Hlo Hhi. unfold clip.
  destruct (Qlt_bool_spec x lo) as [H|_]; [exfalso; lra|].
  destruct (Qlt_bool_spec hi x) as [H|_]; [exfalso; lra|].
  reflexivity.
Qed.

Lemma map_fixed {A : Type} (f : A -> A) (l : list A) :
  (forall x, In x l -> f x = x) -> map f l = l.
Proof.
  induction l as [|y l IH]; simpl; intros H; [reflexivity|].
  rewrite H by now left. f_equal. apply IH. intros. apply H. now right.
Qed.

Lemma arr_map_fixed (f : Q -> Q) (a : ndarray) :
  (forall x, In x (samples a) -> f x = x) -> arr_map f a = a.
Proof.
  destruct a as [xs|rows]; simpl; intros H; f_equal.
  - now apply map_fixed.
  - apply map_fixed. intros r Hr. apply map_fixed. intros x Hx.
    apply H. apply in_concat. exists r. now split.
Qed.

Lemma set_audio_same (s : AudioCleaner) (a : ndarray) :
  audio s = Some a -> set_audio a s = s.
Proof.
  destruct s. simpl. intros ->. reflexivity.
Qed.

(** C9. When [process] reaches the limiter (the limiter flag is set, so the
    target is 0.75) and the threshold [10 ** (-0.5 / 20)] lies above 0.75,
    [gentle_limiter] returns the normalized object unchanged. *)
Theorem limiter_is_identity_after_normalize
    (L : Libs) (self s : AudioCleaner) (p : ProcessingParams) :
  75 # 100 < pow10 L (- (1 # 2) / 20) ->
  process_to_normalized L self = Ok (true, s) ->
  processing_params s = Some p ->
  needs_limiting p = true ->
  normalization_target p = 75 # 100
  /\ limit_if_flagged L s = gentle_limiter L (- (1 # 2)) s
  /\ gentle_limiter L (- (1 # 2)) s = s.
Proof.
  intros Hthr Hrun Hp Hlim.
  destruct (process_to_normalized_steps L self s Hrun)
    as (loaded & snap & corrected & _ & Hpc & _ & Hs).
  assert (Hp' : p = snd (derive_params snap)).
  { rewrite Hs in Hp.
    rewrite (proj2 (smart_normalize_layout _ corrected)) in Hp. congruence. }
  assert (Ht : normalization_target p = 75 # 100).
  { rewrite Hp'. apply needs_limiting_target. now rewrite <- Hp'. }
  split; [exact Ht|]. split.
  - unfold limit_if_flagged. now rewrite Hp, Hlim.
  - unfold gentle_limiter.
    destruct (audio s) as [a|] eqn:Ha; [|reflexivity].
    rewrite <- Hp', Ht in Hs.
    rewrite arr_map_fixed; [now apply set_audio_same|].
    intros x Hin.
    assert (Hb : Qabs x <= 75 # 100).
    { apply (smart_normalize_bounded (75 # 100) corrected a);
        [discriminate | now rewrite <- Hs | exact Hin]. }
    apply Qabs_Qle_condition in Hb.
    apply clip_inside; lra.
Qed.

Lemma limiter_is_identity_after_normalize_witness :
  exists s,
    process_to_normalized (passthrough_libs clipped_stereo)
      (new_cleaner "clip.wav" "clip_cleaned.wav" 48000) = Ok (true, s)
    /\ option_map needs_limiting (processing_params s) = Some true
    /\ gentle_limiter (passthrough_libs clipped_stereo) (- (1 # 2)) s = s.
Proof.
  destruct (process_to_normalized (passthrough_libs clipped_stereo)
              (new_cleaner "clip.wav" "clip_cleaned.wav" 48000))
    as [[ok s]|e] eqn:Hrun; [|vm_compute in Hrun; discriminate].
  assert (Hok : ok = true)
    by (vm_compute in Hrun; injection Hrun as <- _; reflexivity).
  subst ok. exists s.
  destruct (processing_params s) as [p|] eqn:Hp;
    [|vm_compute in Hrun; injection Hrun as <-; discriminate].
  assert (Hlim : needs_limiting p = true).
  { vm_compute in Hrun. injection Hrun as <-.
    injection Hp as <-. reflexivity. }
  split; [reflexivity|]. split; [simpl; now rewrite Hlim|].
  apply (limiter_is_identity_after_normalize
           (passthrough_libs clipped_stereo)
           (new_cleaner "clip.wav" "clip_cleaned.wav" 48000) s p);
    [reflexivity | exact Hrun | exact Hp | exact Hlim].
Defined.

(** ** Layout through the pipeline *)

Lemma mono_collapsed_same_layout (s s' : AudioCleaner) :
  same_layout s s' -> mono_collapsed s' = mono_collapsed s.
Proof.
  intros (Hl & Hs & _). unfold mono_collapsed, audio_layout in *.
  rewrite Hs. destruct (is_stereo s) as [[|]|]; try reflexivity;
    destruct (audio s) as [[|]|], (audio s') as [[|]|];
    simpl in *; congruence.
Qed.

Lemma restore_stereo_not_collapsed (s : AudioCleaner) (b : bool) :
  is_stereo s = Some b -> mono_collapsed s = false -> restore_stereo s = Ok s.
Proof.
  unfold mono_collapsed, restore_stereo. intros ->.
  destruct (audio s) as [[xs|rows]|]; destruct b; simpl;
    intros H; try discriminate; reflexivity.
Qed.

(** C10. Noise reduction, high-pass, normalization, limiting and
    resampling each keep the buffer's layout (1-D stays 1-D, 2-D keeps its
    number of rows); hence the buffer [process] hands to [restore_stereo]
    has the layout of the loaded one, the duplication branch is not taken,
    and [restore_stereo] returns the object as it is. *)
Theorem process_preserves_layout (L : Libs) (self loaded s : AudioCleaner) :
  load_audio L self = (true, loaded) ->
  process_to_resampled L self = Ok (true, s) ->
  (forall st amount, same_layout st (adaptive_noise_reduction L amount st))
  /\ (forall st cutoff, same_layout st (adaptive_high_pass L cutoff st))
  /\ (forall st target, same_layout st (smart_normalize target st))
  /\ (forall st threshold, same_layout st (gentle_limiter L threshold st))
  /\ (forall st st', resample_if_needed L st = Ok st' -> same_layout st st')
  /\ same_layout loaded s
  /\ mono_collapsed s = false
  /\ restore_stereo s = Ok s
  /\ process L self = Ok (true, s).
Proof.
  intros Hload Hrun.
  split; [intros; apply adaptive_noise_reduction_layout|].
  split; [intros; apply adaptive_high_pass_layout|].
  split; [intros; apply smart_normalize_layout|].
  split; [intros; apply gentle_limiter_layout|].
  split; [intros st st' H; exact (proj1 (resample_if_needed_layout L st st' H))|].
  assert (Hlay : same_layout loaded s).
  { revert Hrun. unfold process_to_resampled.
    destruct (process_to_normalized L self) as [[ok s1]|] eqn:Hn; simpl;
      [|discriminate].
    destruct ok; simpl; [|discriminate].
    destruct (process_to_normalized_steps L self s1 Hn)
      as (loaded' & snap & corrected & Hl' & _ & Hc & Hs1).
    assert (loaded' = loaded) by congruence. subst loaded'.
    destruct (resample_if_needed L (limit_if_flagged L s1)) as [s2|] eqn:Hr;
      simpl; [|discriminate].
    intros [= <-].
    apply same_layout_trans with corrected; [exact Hc|].
    apply same_layout_trans with s1;
      [rewrite Hs1; apply smart_normalize_layout|].
    apply same_layout_trans with (limit_if_flagged L s1);
      [apply limit_if_flagged_layout|].
    exact (proj1 (resample_if_needed_layout L _ _ Hr)). }
  destruct (load_audio_loaded L self loaded Hload)
    as (a & rate & _ & _ & _ & Hmc & b & Hb).
  assert (Hmc' : mono_collapsed s = false)
    by (rewrite (mono_collapsed_same_layout loaded s Hlay); exact Hmc).
  assert (Hrs : restore_stereo s = Ok s).
  { apply restore_stereo_not_collapsed with b; [|exact Hmc'].
    destruct Hlay as (_ & Hs & _). congruence. }
  repeat (split; [assumption|]).
  unfold process. rewrite Hrun. simpl. now rewrite Hrs.
Qed.

Lemma process_preserves_layout_witness :
  exists loaded s,
    load_audio (passthrough_libs clipped_stereo)
      (new_cleaner "clip.wav" "clip_cleaned.wav" 48000) = (true, loaded)
    /\ audio_layout loaded = Some (Rows 2)
    /\ same_layout loaded s
    /\ process (passthrough_libs clipped_stereo)
         (new_cleaner "clip.wav" "clip_cleaned.wav" 48000) = Ok (true, s).
Proof.
  destruct (load_audio (passthrough_libs clipped_stereo)
              (new_cleaner "clip.wav" "clip_cleaned.wav" 48000))
    as [ok loaded] eqn:Hload.
  assert (Hok : ok = true /\ audio_layout loaded = Some (Rows 2))
    by (vm_compute in Hload; injection Hload as <- <-; split; reflexivity).
  destruct Hok as [-> Hrows].
  destruct (process_to_resampled (passthrough_libs clipped_stereo)
              (new_cleaner "clip.wav" "clip_cleaned.wav" 48000))
    as [[ok s]|e] eqn:Hrun; [|vm_compute in Hrun; discriminate].
  assert (Hok : ok = true)
    by (vm_compute in Hrun; injection Hrun as <- _; reflexivity).
  subst ok. exists loaded, s.
  destruct (process_preserves_layout (passthrough_libs clipped_stereo)
              (new_cleaner "clip.wav" "clip_cleaned.wav" 48000) loaded s
              Hload Hrun) as (_ & _ & _ & _ & _ & Hlay & _ & _ & Hproc).
  repeat split; try assumption; apply Hlay.
Defined.

End AudioProcessFacts.

Module VideoFrameFacts.
Import Video.

(** ** Rounding and saturation *)









(** ** Frames *)







(** ** Brightness and contrast *)






(** A negative bias larger than the intensity is folded back by the
    magnitude, not clamped at zero: brightness -20 leaves intensity 10
    at 10. *)
Remark brightness_negative_sum_folds :
  brightness_contrast (set_brightness_adjust (-20) default_enhancement)
                      (grey 10) = grey 10.
Proof. reflexivity. Qed.

End VideoFrameFacts.

Module VideoStreamFacts.
Import Video.

(** ** The capture handle *)

Lemma set_pos_same (c : VideoCapture) : set_pos (vc_pos c) c = c.
Proof. now destruct c. Qed.

Lemma read_same_stream (c : VideoCapture) :
  same_stream c (snd (read c)).
Proof.
  unfold read, same_stream.
  destruct (vc_opened c) eqn:E; simpl; [|auto].
  destruct (nth_error _ _); simpl; auto.
Qed.

(** Counting reads from the cursor to the end of the stream. *)
Lemma count_frames_total (c : VideoCapture) (k : Z) :
  vc_opened c = true -> (vc_pos c <= length (vc_frames c))%nat ->
  count_frames c k
  = ((k + Z.of_nat (remaining c))%Z, set_pos (length (vc_frames c)) c).
Proof.
  funelim (count_frames c k); intros Hopen Hpos.
  - (* a frame was read *)
    clear Heqcall. pose proof e as He.
    unfold read in He. rewrite Hopen in He.
    destruct (nth_error (vc_frames c) (vc_pos c)) eqn:E; [|discriminate].
    injection He as _ Hc'. clear H0 e. subst c'.
    assert (Hlt : (vc_pos c < length (vc_frames c))%nat)
      by (apply nth_error_Some; congruence).
    rewrite H by (simpl; auto; lia).
    unfold remaining, set_pos. simpl. f_equal. lia.
  - (* the read failed *)
    clear Heqcall. pose proof e as He.
    unfold read in He. rewrite Hopen in He.
    destruct (nth_error (vc_frames c) (vc_pos c)) eqn:E; [discriminate|].
    injection He as _ Hc'. clear H e. subst c'.
    apply nth_error_None in E.
    assert (Heq : vc_pos c = length (vc_frames c)) by lia.
    unfold remaining. rewrite <- Heq, set_pos_same. f_equal. lia.
Qed.

Lemma count_frames_same_stream (c : VideoCapture) (k : Z) :
  same_stream c (snd (count_frames c k)).
Proof.
  funelim (count_frames c k).
  - pose proof (read_same_stream c) as Hr. rewrite e in Hr. simpl in Hr.
    destruct Hr as [Ho Hf], H as [Ho' Hf'].
    split; congruence.
  - pose proof (read_same_stream c) as Hr. rewrite e in Hr. exact Hr.
Qed.


Section Analysis.

Context (cv : Cv).

Lemma sample_frame_same_stream (acc : VideoCapture * Samples) (idx : nat) :
  same_stream (fst acc) (fst (sample_frame cv acc idx)).
Proof.
  destruct acc as [c s]. unfold sample_frame.
  pose proof (read_same_stream (set_pos idx c)) as Hr.
  destruct (read (set_pos idx c)) as [[ret f] c'].
  destruct ret, f; simpl in *; exact Hr.
Qed.

Lemma sampling_same_stream (idxs : list nat) :
  forall acc, same_stream (fst acc) (fst (fold_left (sample_frame cv) idxs acc)).
Proof.
  induction idxs as [|i idxs IH]; intros acc; simpl.
  - split; reflexivity.
  - destruct (IH (sample_frame cv acc i)) as [Ho Hf].
    destruct (sample_frame_same_stream acc i) as [Ho' Hf'].
    split; congruence.
Qed.

(** The recovery branch, for a freshly opened handle. *)
Lemma recover_metadata_counts (c : VideoCapture) (self : VideoEnhancer) :
  vc_opened c = true -> vc_pos c = 0%nat ->
  ((frame_count self <=? 0)%Z || Qle_bool (fps self) 0)%bool = true ->
  recover_metadata c self
  = (set_pos 0 c,
     let counted := set_frame_count (Z.of_nat (length (vc_frames c))) self in
     if Qle_bool (fps self) 0 then set_fps 30 counted else counted).
Proof.
  intros Hopen Hpos Hcond. unfold recover_metadata. rewrite Hcond.
  rewrite count_frames_total by (rewrite ?Hpos; auto; lia).
  unfold remaining. rewrite Hpos, Nat.sub_0_r. reflexivity.
Qed.

Lemma recover_metadata_same_stream (c : VideoCapture) (self : VideoEnhancer) :
  same_stream c (fst (recover_metadata c self))
  /\ cap (snd (recover_metadata c self)) = cap self.
Proof.
  unfold recover_metadata.
  destruct (_ || _)%bool; [|repeat split].
  pose proof (count_frames_same_stream c 0) as Hs.
  destruct (count_frames c 0) as [n c']. simpl in *.
  destruct (Qle_bool (fps self) 0); simpl; split; auto.
Qed.

(** Whatever [analyze_video] returns, the object holds the handle it
    opened, on the same stream; on success the handle is still open, the
    cursor is at the first frame and the parameters are set. *)
Lemma analyze_video_handle (self s : VideoEnhancer) (b : bool) :
  analyze_video cv self = Ok (b, s) ->
  exists c,
    cap s = Some c
    /\ same_stream (VideoCapture_open cv (input_file self)) c
    /\ output_file s = output_file self
    /\ (b = true ->
        isOpened c = true /\ vc_pos c = 0%nat
        /\ exists p, enhancement_params s = Some p).
Proof.
  unfold analyze_video.
  set (c0 := VideoCapture_open cv (input_file self)).
  destruct (isOpened c0) eqn:Hopen; simpl.
  2:{ intros [= <- <-]. exists c0.
      repeat split; try reflexivity; discriminate. }
  set (self1 := set_properties _ _ _ _ _).
  destruct (recover_metadata_same_stream c0 self1) as [Hs _].
  destruct (recover_metadata c0 self1) as [c1 self2] eqn:Hrec. simpl in Hs.
  assert (Hout : output_file self2 = output_file self).
  { revert Hrec. unfold recover_metadata.
    destruct (_ || _)%bool.
    - destruct (count_frames c0 0) as [n c'].
      intros [= _ <-]. simpl. destruct (Qle_bool _ _); reflexivity.
    - intros [= _ <-]. reflexivity. }
  destruct (frame_count self2 <=? 0)%Z.
  { intros [= <- <-]. exists c1.
    repeat split; try apply Hs; try exact Hout; try reflexivity; discriminate. }
  pose proof (sampling_same_stream (sample_indices (frame_count self2))
                (c1, mkSamples [] [] [] [])) as Hs2.
  destruct (fold_left _ _ _) as [c2 smp]. simpl in Hs2.
  destruct (derive_enhancement _ _ _ _ _ _ _) as [p|]; simpl; [|discriminate].
  intros [= <- <-]. exists (set_pos 0 c2). simpl.
  destruct Hs as [Ho Hf], Hs2 as [Ho2 Hf2].
  unfold same_stream, isOpened in *. simpl.
  repeat split; try congruence.
  eexists; reflexivity.
Qed.

End Analysis.

End VideoStreamFacts.

Module VideoProcessFacts.
Import Video VideoStreamFacts.

Section Process.

Context (cv : Cv).

(** The parameter table is total except for a zero width or height under
    an explicit target resolution. *)
Lemma derive_enhancement_defined (target : option (Z * Z)) (w h : Z)
    (b c s n : fval) :
  target = None \/ (w <> 0 /\ h <> 0)%Z ->
  exists p, derive_enhancement target w h b c s n = Ok p.
Proof.
  intros H. unfold derive_enhancement.
  destruct target as [[tw th]|].
  - destruct H as [H|[Hw Hh]]; [discriminate|].
    apply Z.eqb_neq in Hw, Hh. rewrite Hw, Hh. simpl.
    destruct (_ || _)%bool; simpl; eexists; reflexivity.
  - destruct (_ || _)%bool; [destruct (w <? 640)%Z|]; simpl;
      eexists; reflexivity.
Qed.

(** [analyze_video] on a freshly opened stream whose metadata is
    incomplete: the state it fails with when the stream is empty, and the
    fields it returns with otherwise. *)
Lemma analyze_video_recovery (self : VideoEnhancer) :
  let c := VideoCapture_open cv (input_file self) in
  let n := Z.of_nat (length (vc_frames c)) in
  let f := if Qle_bool (vc_fps c) 0 then 30 else vc_fps c in
  isOpened c = true -> vc_pos c = 0%nat ->
  (vc_frame_count c <= 0)%Z \/ vc_fps c <= 0 ->
  (n = 0%Z ->
   exists s, analyze_video cv self = Ok (false, s)
             /\ frame_count s = n /\ fps s = f
             /\ cap s = Some (set_pos 0 c))
  /\ (n <> 0%Z ->
      forall r, analyze_video cv self = r ->
        match r with
        | Ok (b, s) =>
            b = true /\ frame_count s = n /\ fps s = f
        | Raise _ =>
            target_resolution self <> None
            /\ (vc_width c = 0 \/ vc_height c = 0)%Z
        end).
Proof.
  intros c n f Hopen Hpos Hmeta.
  unfold analyze_video. fold c. rewrite Hopen. simpl.
  rewrite recover_metadata_counts; [|exact Hopen|exact Hpos|].
  2:{ simpl. destruct Hmeta as [H|H].
      - apply Z.leb_le in H. now rewrite H.
      - apply Qle_bool_iff in H. rewrite H. apply orb_true_r. }
  simpl. fold n.
  assert (Hfc : forall e, frame_count (if Qle_bool (vc_fps c) 0
                                        then set_fps 30 (set_frame_count n e)
                                        else set_frame_count n e) = n)
    by (intros; destruct (Qle_bool _ _); reflexivity).
  assert (Hfps : forall e, fps e = vc_fps c ->
                   fps (if Qle_bool (vc_fps c) 0
                        then set_fps 30 (set_frame_count n e)
                        else set_frame_count n e) = f).
  { intros e He. subst f. destruct (Qle_bool _ _); simpl; [reflexivity|exact He]. }
  set (s2 := if Qle_bool (vc_fps c) 0 then set_fps 30 _ else _).
  assert (Hn2 : frame_count s2 = n) by apply Hfc.
  assert (Hf2 : fps s2 = f) by (apply Hfps; reflexivity).
  rewrite Hn2. split.
  - intros Hz. rewrite Hz. simpl. eexists. split; [reflexivity|].
    simpl. rewrite Hn2, Hf2. repeat split. exact Hz.
  - intros Hnz.
    assert (Hpos' : (n <=? 0)%Z = false) by (apply Z.leb_gt; lia).
    rewrite Hpos'.
    destruct (fold_left _ _ _) as [c2 smp].
    intros r <-.
    destruct (derive_enhancement _ _ _ _ _ _ _) as [p|e] eqn:Hd; simpl.
    + rewrite Hn2, Hf2. repeat split.
    + assert (Hw : width s2 = vc_width c /\ height s2 = vc_height c
                   /\ target_resolution s2 = target_resolution self)
        by (subst s2; destruct (Qle_bool _ _); repeat split).
      destruct Hw as (Hw & Hh & Ht). rewrite Hw, Hh, Ht in Hd.
      split.
      * intros Hnone.
        destruct (derive_enhancement_defined (target_resolution self)
                    (vc_width c) (vc_height c) (mean_of (brightness_values smp))
                    (mean_of (contrast_values smp))
                    (mean_of (sharpness_values smp))
                    (mean_of (noise_levels smp)) (or_introl Hnone)) as [p Hp].
        congruence.
      * destruct (Z.eq_dec (vc_width c) 0) as [|Hwn]; [now left|].
        destruct (Z.eq_dec (vc_height c) 0) as [|Hhn]; [now right|].
        destruct (derive_enhancement_defined (target_resolution self)
                    (vc_width c) (vc_height c) (mean_of (brightness_values smp))
                    (mean_of (contrast_values smp))
                    (mean_of (sharpness_values smp))
                    (mean_of (noise_levels smp))
                    (or_intror (conj Hwn Hhn))) as [p Hp].
        congruence.
Qed.


(** ** Output stream that cannot be opened *)

(** C3 on the code.  When the analysis succeeded and the output stream
    cannot be opened, [process] returns [False] and the object still holds
    the capture handle, open. *)
Theorem process_keeps_capture_open_on_writer_failure
    (self s : VideoEnhancer) :
  analyze_video cv self = Ok (true, s) ->
  (forall rate size,
     vw_opened (VideoWriter_open cv (output_file self) rate size) = false) ->
  exists out c,
    process cv self = Ok (false, s, Some out)
    /\ cap s = Some c /\ isOpened c = true.
Proof.
  intros Han Hw.
  destruct (analyze_video_handle cv self s true Han)
    as (c & Hc & _ & Hout & Hgood).
  destruct (Hgood eq_refl) as (Hopen & _ & p & Hp).
  unfold process. rewrite Han. simpl. rewrite Hp, Hc, Hout.
  destruct (needs_upscaling p); rewrite Hw; simpl;
    eexists; exists c; repeat split; assumption.
Qed.

(** The path that completes does release the handle. *)
Lemma process_releases_capture_on_success
    (self s : VideoEnhancer) (out : option VideoWriter) :
  process cv self = Ok (true, s, out) ->
  exists c, cap s = Some c /\ isOpened c = false.
Proof.
  unfold process.
  destruct (analyze_video cv self) as [[b s1]|]; simpl; [|discriminate].
  destruct b; simpl; [|discriminate].
  destruct (enhancement_params s1) as [p|]; [|discriminate].
  destruct (cap s1) as [c|]; [|discriminate].
  destruct (needs_upscaling p);
    (destruct (vw_opened (VideoWriter_open cv _ _ _)); simpl; [|discriminate];
     destruct (process_frames cv s1 c _ 0) as [[[c' w] k]|]; simpl;
       [|discriminate];
     intros [= <- _]; exists (release c'); split; reflexivity).
Qed.

End Process.


Lemma process_keeps_capture_open_on_writer_failure_witness :
  exists s out c,
    process (stub_cv reported_stream false)
      (new_enhancer "in.mp4" "out.mp4" None) = Ok (false, s, Some out)
    /\ cap s = Some c /\ isOpened c = true.
Proof.
  destruct (analyze_video (stub_cv reported_stream false)
              (new_enhancer "in.mp4" "out.mp4" None)) as [[b s]|e] eqn:Hr;
    [|vm_compute in Hr; discriminate].
  assert (Hb : b = true) by (vm_compute in Hr; injection Hr as <- _; reflexivity).
  subst b. exists s.
  apply (process_keeps_capture_open_on_writer_failure
           (stub_cv reported_stream false)
           (new_enhancer "in.mp4" "out.mp4" None) s Hr).
  intros rate size. reflexivity.
Defined.

End VideoProcessFacts.

(** * Further properties of the audio cleaner *)

Module AudioAnalysisFacts.
Import Audio AudioMore AudioFacts AudioBufferFacts.

(** ** Parameter derivation *)

Lemma reduction_of_cases (s : QualitySnapshot) :
  reduction_of s =
  let base := if f_lt (q_snr s) 15 then 7 # 10
              else if f_lt (q_snr s) 25 then 5 # 10
              else if f_lt (q_snr s) 40 then 3 # 10 else 0 in
  if f_gt (q_hf_ratio s) (3 # 10) then py_min (base + (1 # 10)) (8 # 10)
  else base.
Proof.
  unfold reduction_of, derive_params, rule_peak, rule_noise_floor, rule_hf,
    rule_snr.
  split_ifs; reflexivity.
Qed.

(** X1. With the other metrics fixed, the derived noise reduction does not
    increase when the SNR increases, with or without the high-frequency
    boost. *)
Theorem noise_reduction_antitone_in_snr
    (peak nf signal hf : fval) (snr1 snr2 : Q) :
  snr1 <= snr2 ->
  reduction_of (mkSnapshot peak nf signal (Num snr2) hf)
  <= reduction_of (mkSnapshot peak nf signal (Num snr1) hf).
Proof.
  intros Hle. rewrite !reduction_of_cases. cbn [q_snr q_hf_ratio f_lt].
  destruct (Qlt_bool_spec snr1 15), (Qlt_bool_spec snr1 25),
    (Qlt_bool_spec snr1 40), (Qlt_bool_spec snr2 15),
    (Qlt_bool_spec snr2 25), (Qlt_bool_spec snr2 40);
    try (exfalso; lra);
    destruct (f_gt hf (3 # 10)); vm_compute; discriminate.
Qed.

Lemma noise_reduction_antitone_in_snr_witness :
  reduction_of (mkSnapshot (Num (1 # 2)) (Num 0) (Num (1 # 4)) (Num 30)
                           (Num (1 # 2)))
  <= reduction_of (mkSnapshot (Num (1 # 2)) (Num 0) (Num (1 # 4)) (Num 10)
                              (Num (1 # 2))).
Proof.
  apply (noise_reduction_antitone_in_snr (Num (1 # 2)) (Num 0) (Num (1 # 4))
           (Num (1 # 2)) 10 30).
  discriminate.
Defined.






Lemma rule_peak_needs (peak : fval) (d : derivation) :
  fst (rule_peak peak d)
  = fst d || f_gt peak (99 # 100) || f_lt peak (2 # 10).
Proof.
  unfold rule_peak. destruct d as [needs p].
  destruct (f_gt peak (99 # 100)); cbn; [now rewrite orb_true_r|].
  rewrite orb_false_r.
  destruct (f_lt peak (2 # 10)); cbn; [now rewrite orb_true_r|].
  rewrite orb_false_r. now destruct (f_lt peak (5 # 10)).
Qed.


(** ** Edge cases of the metrics *)

Lemma insert_sorted_length (x : Q) (l : list Q) :
  length (insert_sorted x l) = S (length l).
Proof.
  induction l as [|y l IH]; simpl; [reflexivity|].
  destruct (Qle_bool x y); simpl; [reflexivity | now rewrite IH].
Qed.

Lemma np_sort_length (l : list Q) : length (np_sort l) = length l.
Proof.
  induction l as [|x l IH]; simpl; [reflexivity|].
  unfold np_sort in *. simpl. now rewrite insert_sorted_length, IH.
Qed.

Lemma insert_sorted_In (x y : Q) (l : list Q) :
  In y (insert_sorted x l) -> y = x \/ In y l.
Proof.
  induction l as [|z l IH]; simpl.
  - intros [<-|[]]. now left.
  - destruct (Qle_bool x z); simpl.
    + intros [<-|[<-|H]]; auto.
    + intros [<-|H]; auto. destruct (IH H); auto.
Qed.

Lemma np_sort_In (y : Q) (l : list Q) : In y (np_sort l) -> In y l.
Proof.
  induction l as [|x l IH]; simpl; [auto|].
  unfold np_sort in *. simpl. intros H.
  apply insert_sorted_In in H. destruct H as [<-|H]; auto.
Qed.

Lemma firstn_subset {A : Type} (n : nat) (l : list A) (x : A) :
  In x (firstn n l) -> In x l.
Proof.
  revert l. induction n as [|n IH]; intros [|y l]; simpl; try tauto.
  intros [H|H]; [now left | right; now apply IH].
Qed.

Lemma Qsum_zero (l : list Q) : (forall x, In x l -> x == 0) -> Qsum l == 0.
Proof.
  induction l as [|x l IH]; simpl; intros H; [reflexivity|].
  rewrite (H x) by now left. rewrite IH by (intros; apply H; now right).
  reflexivity.
Qed.

(** The mean of zeros is not above any non-negative threshold. *)
Lemma np_mean_zero_not_above (l : list Q) (b : Q) :
  (forall x, In x l -> x == 0) -> 0 <= b -> f_gt (np_mean l) b = false.
Proof.
  intros Hz Hb. destruct l as [|y l]; [reflexivity|].
  unfold np_mean. cbn [f_gt]. apply Qlt_bool_false.
  rewrite (Qsum_zero (y :: l) Hz). unfold Qdiv. rewrite Qmult_0_l. exact Hb.
Qed.

(** X3. A buffer of one to nine samples has an empty "quietest tenth":
    the noise floor is NaN, so the SNR is the sentinel 100, no high-pass
    is derived and the noise reduction is at most the 0.1 of the
    high-frequency boost. *)
Theorem short_buffer_is_judged_clean (L : Libs) (buf : list Q) (rate : Z) :
  buf <> [] -> (length buf < 10)%nat ->
  exists snap,
    measure L buf rate = Ok snap
    /\ q_noise_floor snap = NaN
    /\ q_snr snap = Num 100
    /\ cutoff_of snap = 0%Z
    /\ reduction_of snap <= 1 # 10.
Proof.
  intros Hne Hlen. unfold measure.
  destruct buf as [|x buf]; [contradiction|].
  cbn [map np_max bind].
  rewrite np_sort_length.
  change (length (Qabs x :: map Qabs buf)) with (length (map Qabs (x :: buf))).
  rewrite length_map, Nat.div_small by exact Hlen.
  cbn [firstn np_mean f_gt].
  eexists. split; [reflexivity|].
  split; [reflexivity|]. split; [reflexivity|].
  split.
  - rewrite cutoff_of_noise_floor. reflexivity.
  - rewrite reduction_of_cases. cbn [q_snr q_hf_ratio].
    destruct (f_gt _ (3 # 10)); vm_compute; discriminate.
Qed.

Lemma short_buffer_is_judged_clean_witness :
  exists snap,
    measure (passthrough_libs clipped_stereo) [1 # 2; - (1 # 4)] 44100 = Ok snap
    /\ q_noise_floor snap = NaN /\ q_snr snap = Num 100.
Proof.
  destruct (short_buffer_is_judged_clean (passthrough_libs clipped_stereo)
              [1 # 2; - (1 # 4)] 44100)
    as (snap & Hm & Hnf & Hsnr & _); [discriminate | simpl; lia |].
  exists snap. repeat split; assumption.
Defined.

(** X4. A decoded file without samples: the peak of an empty array is
    undefined, so [analyze_quality] raises and [process] raises with it
    instead of returning [False]. *)
Theorem process_raises_on_empty_audio
    (L : Libs) (self : AudioCleaner) (a : ndarray) (rate : Z) :
  librosa_load L (input_file self) = Ok (a, rate) ->
  to_mono a = [] ->
  (forall loaded, load_audio L self = (true, loaded) ->
                  analyze_quality L loaded = Raise ValueError)
  /\ process L self = Raise ValueError.
Proof.
  intros Hload Hmono.
  assert (Hq : forall loaded, load_audio L self = (true, loaded) ->
                 analyze_quality L loaded = Raise ValueError).
  { intros loaded. unfold load_audio. rewrite Hload. intros [= <-].
    unfold analyze_quality. cbn [audio analysis_audio sr].
    rewrite Hmono. reflexivity. }
  split; [exact Hq|].
  unfold process, process_to_resampled, process_to_normalized.
  destruct (load_audio L self) as [ok loaded] eqn:Hl.
  assert (ok = true) by (revert Hl; unfold load_audio; rewrite Hload;
                         now intros [= <- _]).
  subst ok. cbn [negb]. rewrite (Hq loaded eq_refl). reflexivity.
Qed.

Lemma process_raises_on_empty_audio_witness :
  process (passthrough_libs (Arr1 []))
          (new_cleaner "empty.wav" "empty_cleaned.wav" 48000)
  = Raise ValueError.
Proof.
  apply (process_raises_on_empty_audio (passthrough_libs (Arr1 []))
           (new_cleaner "empty.wav" "empty_cleaned.wav" 48000)
           (Arr1 []) 44100); reflexivity.
Defined.

(** X5. A silent, non-empty buffer is reported as needing processing
    (very low volume), with target 0.8, no limiter and no high-pass. *)
Theorem silent_buffer_needs_processing
    (L : Libs) (self : AudioCleaner) (a : ndarray) (buf : list Q) (rate : Z) :
  audio self = Some a -> analysis_audio self = Some buf ->
  sr self = Some rate ->
  buf <> [] -> (forall x, In x buf -> x == 0) ->
  exists s' p,
    analyze_quality L self = Ok (true, s')
    /\ processing_params s' = Some p
    /\ normalization_target p = 8 # 10
    /\ needs_limiting p = false
    /\ high_pass_cutoff p = 0%Z.
Proof.
  intros Ha Hb Hr Hne Hz.
  unfold analyze_quality. rewrite Ha, Hb, Hr. unfold measure.
  destruct (np_max (map Qabs buf)) as [peak|e] eqn:Hpeak.
  2:{ destruct buf; [contradiction | discriminate]. }
  cbn [bind].
  assert (Hp0 : peak == 0).
  { destruct (abs_max_attained (Arr1 buf) peak Hpeak) as (x & Hin & ->).
    simpl in Hin. rewrite (Hz x Hin). reflexivity. }
  set (sorted := np_sort (map Qabs buf)).
  assert (Hsz : forall x, In x sorted -> x == 0).
  { intros x Hin. apply np_sort_In in Hin. apply in_map_iff in Hin.
    destruct Hin as (y & <- & Hy). rewrite (Hz y Hy). reflexivity. }
  set (nf := np_mean (firstn (length sorted / 10) sorted)).
  assert (Hnf : forall b, 0 <= b -> f_gt nf b = false).
  { intros b Hb0. apply np_mean_zero_not_above; [|exact Hb0].
    intros x Hin. apply Hsz. eapply firstn_subset; eauto. }
  rewrite (Hnf 0) by apply Qle_refl.
  unfold derive_params, rule_peak, rule_noise_floor, rule_hf, rule_snr.
  cbn [q_peak q_noise_floor q_snr q_hf_ratio f_lt f_gt].
  rewrite !Hnf by discriminate.
  assert (H99 : Qlt_bool (99 # 100) peak = false)
    by (apply Qlt_bool_false; rewrite Hp0; discriminate).
  assert (H02 : Qlt_bool peak (2 # 10) = true)
    by (apply Qlt_bool_iff; rewrite Hp0; reflexivity).
  rewrite H99, H02.
  destruct (f_gt _ (3 # 10)); cbn;
    eexists; eexists; (split; [reflexivity|]); repeat split.
Qed.

Lemma silent_buffer_needs_processing_witness :
  exists s' p,
    analyze_quality (passthrough_libs clipped_stereo) (loaded_mono [0; 0; 0] 44100)
    = Ok (true, s')
    /\ processing_params s' = Some p /\ normalization_target p = 8 # 10.
Proof.
  destruct (silent_buffer_needs_processing (passthrough_libs clipped_stereo)
              (loaded_mono [0; 0; 0] 44100) (Arr1 [0; 0; 0]) [0; 0; 0] 44100)
    as (s' & p & H1 & H2 & H3 & _);
    try reflexivity; try discriminate.
  - intros x [<-|[<-|[<-|[]]]]; reflexivity.
  - exists s', p. repeat split; assumption.
Defined.

End AudioAnalysisFacts.

Module AudioStageFacts.
Import Audio AudioMore AudioBufferFacts AudioPipelineFacts AudioProcessFacts.

(** ** Channel-wise application *)

Lemma mapM_Forall2 {A B : Type} (f : A -> result B) (l : list A) (l' : list B) :
  mapM f l = Ok l' <-> Forall2 (fun x y => f x = Ok y) l l'.
Proof.
  revert l'. induction l as [|x l IH]; intros l'; simpl.
  - split; [intros [= <-]; constructor | intros H; inversion H; reflexivity].
  - split.
    + destruct (f x) as [y|] eqn:Hx; [|discriminate].
      destruct (mapM f l) as [ys|] eqn:Hl; [|discriminate].
      intros [= <-]. constructor; [exact Hx | now apply IH].
    + intros H. inversion H as [|? y ? ys Hx Hl]; subst.
      rewrite Hx. apply IH in Hl. now rewrite Hl.
Qed.

Lemma mapM_raises {A B : Type} (f : A -> result B) (l : list A) (x : A) (e : exn) :
  In x l -> f x = Raise e -> exists e', mapM f l = Raise e'.
Proof.
  induction l as [|y l IH]; simpl; [contradiction|].
  intros [->|Hin] Hx.
  - rewrite Hx. eauto.
  - destruct (f y); [|eauto].
    destruct (IH Hin Hx) as [e' ->]. eauto.
Qed.

Lemma same_length_Forall (n : nat) (rows : list (list Q)) :
  same_length n rows = true <-> Forall (fun r => length r = n) rows.
Proof.
  induction rows as [|r rows IH]; simpl.
  - split; [constructor | reflexivity].
  - rewrite andb_true_iff, Nat.eqb_eq, IH. split.
    + intros [H1 H2]. now constructor.
    + intros H. inversion H. now split.
Qed.

(** X6. On a multi-channel buffer, when the operation succeeds on every
    channel with results of one length, the new buffer holds the result
    for each channel, in channel order. *)
Theorem apply_channelwise_per_channel
    (func : list Q -> result (list Q)) (self : AudioCleaner)
    (rows rows' : list (list Q)) (n : nat) :
  (1 < channels self)%Z ->
  audio self = Some (Arr2 rows) ->
  rows <> [] ->
  Forall2 (fun r r' => func r = Ok r') rows rows' ->
  Forall (fun r' => length r' = n) rows' ->
  _apply_channelwise func self = Ok (set_audio (Arr2 rows') self).
Proof.
  intros Hch Ha Hne Hall Hlen.
  unfold _apply_channelwise. rewrite Ha.
  assert (Hc : (channels self <=? 1)%Z = false) by (apply Z.leb_gt; lia).
  rewrite Hc. pose proof (Forall2_length Hall) as Hsame.
  apply mapM_Forall2 in Hall. rewrite Hall. cbn [bind].
  unfold np_vstack.
  destruct rows' as [|r' rs'].
  - destruct rows; [contradiction | discriminate].
  - inversion Hlen as [|? ? Hr Hrs]; subst.
    apply same_length_Forall in Hrs. now rewrite Hrs.
Qed.

Lemma apply_channelwise_per_channel_witness :
  _apply_channelwise (fun r => Ok (map Qopp r)) loaded_stereo
  = Ok (set_audio (Arr2 [map Qopp [1; - (1 # 2)]; map Qopp [1; 1 # 4]])
                  loaded_stereo).
Proof.
  apply (apply_channelwise_per_channel (fun r => Ok (map Qopp r))
           loaded_stereo [[1; - (1 # 2)]; [1; 1 # 4]]
           [map Qopp [1; - (1 # 2)]; map Qopp [1; 1 # 4]] 2);
    [reflexivity | reflexivity | discriminate | |];
    repeat constructor.
Defined.

Lemma apply_channelwise_raises
    (func : list Q -> result (list Q)) (self : AudioCleaner) (a : ndarray)
    (r : list Q) (e : exn) :
  audio self = Some a -> In r (channel_rows a) -> func r = Raise e ->
  exists e', _apply_channelwise func self = Raise e'.
Proof.
  intros Ha Hin Hr. unfold _apply_channelwise. rewrite Ha.
  destruct (channels self <=? 1)%Z.
  - destruct a as [xs|rows]; simpl in *.
    + destruct Hin as [<-|[]]. rewrite Hr. simpl. eauto.
    + destruct (mapM_raises func rows r e Hin Hr) as [e' ->]. simpl. eauto.
  - destruct a as [xs|rows]; [eauto|]. simpl in Hin.
    destruct (mapM_raises func rows r e Hin Hr) as [e' ->]. simpl. eauto.
Qed.

(** X7. Noise reduction is all or nothing: if the external reduction
    fails on any channel, no channel is replaced and the object is
    unchanged. *)
Theorem noise_reduction_all_or_nothing
    (L : Libs) (amount : Q) (self : AudioCleaner) (a : ndarray)
    (r : list Q) (e : exn) :
  audio self = Some a ->
  In r (channel_rows a) ->
  nr_reduce_noise L r (sr self) amount = Raise e ->
  adaptive_noise_reduction L amount self = self.
Proof.
  intros Ha Hin Hr. unfold adaptive_noise_reduction.
  destruct (Qle_bool amount 0); [reflexivity|]. cbv zeta.
  destruct (apply_channelwise_raises
              (fun channel => nr_reduce_noise L channel (sr self) amount)
              self a r e Ha Hin Hr) as [e' ->].
  reflexivity.
Qed.

Lemma noise_reduction_all_or_nothing_witness :
  adaptive_noise_reduction (failing_libs clipped_stereo) (7 # 10) loaded_stereo
  = loaded_stereo.
Proof.
  apply (noise_reduction_all_or_nothing (failing_libs clipped_stereo) (7 # 10)
           loaded_stereo clipped_stereo [1; 1 # 4] ExternalError);
    [reflexivity | right; now left | reflexivity].
Defined.

(** X8. The high-pass stage leaves the object unchanged when the sample
    rate is zero, when the filter design (order 2 up to 60 Hz, order 3
    above, cutoff relative to the Nyquist rate) fails, or when filtering
    fails on any channel. *)
Theorem high_pass_failure_leaves_buffer
    (L : Libs) (cutoff : Z) (self : AudioCleaner) (a : ndarray) (rate : Z) :
  audio self = Some a -> sr self = Some rate ->
  let order := if (cutoff <=? 60)%Z then 2%Z else 3%Z in
  let normal_cutoff := inject_Z cutoff / (inject_Z rate / 2) in
  rate = 0%Z
  \/ (exists e, signal_butter L order normal_cutoff = Raise e)
  \/ (exists b a0 r e,
        signal_butter L order normal_cutoff = Ok (b, a0)
        /\ In r (channel_rows a) /\ signal_filtfilt L b a0 r = Raise e) ->
  adaptive_high_pass L cutoff self = self.
Proof.
  intros Ha Hr order normal_cutoff Hfail. unfold adaptive_high_pass.
  destruct (cutoff <=? 0)%Z; [reflexivity|].
  rewrite Ha, Hr.
  destruct (Qeq_bool (inject_Z rate / 2) 0) eqn:Hz; [reflexivity|].
  destruct Hfail as [H0|[[e He]|(b & a0 & r & e & Hb & Hin & Hf)]].
  - subst rate. discriminate.
  - fold order normal_cutoff. rewrite He. reflexivity.
  - fold order normal_cutoff. rewrite Hb. cbn [bind].
    destruct (apply_channelwise_raises (signal_filtfilt L b a0) self a r e
                Ha Hin Hf) as [e' ->].
    reflexivity.
Qed.

Lemma high_pass_failure_leaves_buffer_witness :
  adaptive_high_pass (failing_libs clipped_stereo) 80 loaded_stereo
  = loaded_stereo.
Proof.
  apply (high_pass_failure_leaves_buffer (failing_libs clipped_stereo) 80
           loaded_stereo clipped_stereo 44100 eq_refl eq_refl).
  right. right. exists [1], [1], [1; 1 # 4], ExternalError.
  repeat split. right. now left.
Defined.

(** ** Limiter *)

Lemma clip_bounds (lo hi x : Q) :
  lo <= hi -> lo <= clip lo hi x /\ clip lo hi x <= hi.
Proof.
  intros H. unfold clip.
  destruct (Qlt_bool_spec x lo) as [H1|H1]; [split; lra|].
  destruct (Qlt_bool_spec hi x) as [H2|H2]; split; lra.
Qed.

Lemma in_samples_arr_map (f : Q -> Q) (a : ndarray) (y : Q) :
  In y (samples (arr_map f a)) -> exists x, In x (samples a) /\ y = f x.
Proof.
  rewrite samples_arr_map. intros H. apply in_map_iff in H.
  destruct H as (x & <- & Hx). eauto.
Qed.

(** X9. With a non-negative linear threshold, every sample leaves
    [gentle_limiter] within the threshold, and limiting a second time
    changes nothing. *)
Theorem gentle_limiter_bounds
    (L : Libs) (threshold : Q) (self : AudioCleaner) (a : ndarray) :
  audio self = Some a ->
  0 <= pow10 L (threshold / 20) ->
  (exists a', audio (gentle_limiter L threshold self) = Some a'
              /\ layout_of a' = layout_of a
              /\ forall x, In x (samples a') ->
                             Qabs x <= pow10 L (threshold / 20))
  /\ gentle_limiter L threshold (gentle_limiter L threshold self)
     = gentle_limiter L threshold self.
Proof.
  intros Ha HT. set (T := pow10 L (threshold / 20)) in *.
  assert (Hord : - T <= T) by lra.
  unfold gentle_limiter. rewrite Ha. fold T. cbn [audio set_audio]. split.
  - eexists. split; [reflexivity|]. split; [apply arr_map_layout|].
    intros y Hy. apply in_samples_arr_map in Hy. destruct Hy as (x & _ & ->).
    apply Qabs_Qle_condition. apply clip_bounds. exact Hord.
  - rewrite (arr_map_fixed _ (arr_map _ a)); [reflexivity|].
    intros y Hy. apply in_samples_arr_map in Hy. destruct Hy as (x & _ & ->).
    apply clip_inside; apply clip_bounds; exact Hord.
Qed.

Lemma gentle_limiter_bounds_witness :
  gentle_limiter (passthrough_libs clipped_stereo) (- (1 # 2))
    (gentle_limiter (passthrough_libs clipped_stereo) (- (1 # 2)) loaded_stereo)
  = gentle_limiter (passthrough_libs clipped_stereo) (- (1 # 2)) loaded_stereo.
Proof.
  apply (gentle_limiter_bounds (passthrough_libs clipped_stereo) (- (1 # 2))
           loaded_stereo clipped_stereo eq_refl).
  discriminate.
Defined.

End AudioStageFacts.

Module AudioRateFacts.
Import Audio AudioMore AudioBufferFacts AudioPipelineFacts AudioProcessFacts.

(** ** Sample rate through the stages *)

Lemma same_rates_refl (s : AudioCleaner) : same_rates s s.
Proof. repeat split. Qed.

Lemma same_rates_trans (s1 s2 s3 : AudioCleaner) :
  same_rates s1 s2 -> same_rates s2 s3 -> same_rates s1 s3.
Proof.
  intros (A1 & B1 & C1 & D1) (A2 & B2 & C2 & D2).
  repeat split; congruence.
Qed.

Lemma apply_channelwise_rates (func : list Q -> result (list Q))
    (self s : AudioCleaner) :
  _apply_channelwise func self = Ok s -> same_rates self s.
Proof.
  unfold _apply_channelwise.
  destruct (audio self) as [a|]; [|intros [= <-]; apply same_rates_refl].
  destruct (channels self <=? 1)%Z.
  - destruct (along_last_axis func a); simpl; [|discriminate].
    intros [= <-]. repeat split.
  - destruct a as [xs|rows]; [discriminate|].
    destruct (mapM func rows); simpl; [|discriminate].
    destruct (np_vstack _); simpl; [|discriminate].
    intros [= <-]. repeat split.
Qed.

Section Rates.

Context (L : Libs).

Lemma adaptive_noise_reduction_rates (amount : Q) (self : AudioCleaner) :
  same_rates self (adaptive_noise_reduction L amount self).
Proof.
  unfold adaptive_noise_reduction.
  destruct (Qle_bool amount 0); [apply same_rates_refl|]. cbv zeta.
  destruct (_apply_channelwise _ self) eqn:E; simpl;
    [eapply apply_channelwise_rates; eauto | apply same_rates_refl].
Qed.

Lemma adaptive_high_pass_rates (cutoff : Z) (self : AudioCleaner) :
  same_rates self (adaptive_high_pass L cutoff self).
Proof.
  unfold adaptive_high_pass.
  destruct (cutoff <=? 0)%Z; [apply same_rates_refl|].
  destruct (audio self); [|apply same_rates_refl].
  destruct (sr self); [|apply same_rates_refl].
  destruct (Qeq_bool _ 0); [apply same_rates_refl|].
  destruct (signal_butter L _ _) as [[b a0]|]; simpl; [|apply same_rates_refl].
  destruct (_apply_channelwise _ self) eqn:E; simpl;
    [eapply apply_channelwise_rates; eauto | apply same_rates_refl].
Qed.

Lemma smart_normalize_rates (t : Q) (self : AudioCleaner) :
  same_rates self (smart_normalize t self).
Proof.
  unfold smart_normalize.
  destruct (audio self) as [a|]; [|apply same_rates_refl].
  destruct (abs_max a) as [peak|]; simpl; [|apply same_rates_refl].
  destruct (Qlt_bool 0 peak); simpl; [repeat split | apply same_rates_refl].
Qed.

Lemma limit_if_flagged_rates (self : AudioCleaner) :
  same_rates self (limit_if_flagged L self).
Proof.
  unfold limit_if_flagged, gentle_limiter.
  destruct (processing_params self) as [p|]; [|apply same_rates_refl].
  destruct (needs_limiting p); [|apply same_rates_refl].
  destruct (audio self); [repeat split | apply same_rates_refl].
Qed.

Lemma apply_corrections_rates (needs : bool) (self s : AudioCleaner) :
  apply_corrections L needs self = Ok s -> same_rates self s.
Proof.
  unfold apply_corrections, param.
  destruct needs; [|intros [= <-]; apply same_rates_refl].
  destruct (processing_params self) as [p|] eqn:Hp; simpl; [|discriminate].
  set (s1 := if Qlt_bool 0 (noise_reduction p)
             then adaptive_noise_reduction L (noise_reduction p) self else self).
  assert (H1 : same_rates self s1).
  { subst s1. destruct (Qlt_bool 0 (noise_reduction p));
      [apply adaptive_noise_reduction_rates | apply same_rates_refl]. }
  destruct (processing_params s1) as [p1|]; simpl; [|discriminate].
  intros [= <-].
  destruct (0 <? high_pass_cutoff p1)%Z; [|exact H1].
  eapply same_rates_trans; [exact H1 | apply adaptive_high_pass_rates].
Qed.

Lemma resample_if_needed_target
    (self s : AudioCleaner) (a : ndarray) (rate : Z) :
  audio self = Some a -> sr self = Some rate ->
  resample_if_needed L self = Ok s ->
  sr s = Some (target_sr self)
  /\ target_sr s = target_sr self
  /\ audio_layout s = audio_layout self
  /\ (rate = target_sr self -> s = self).
Proof.
  intros Ha Hr. unfold resample_if_needed. rewrite Ha, Hr.
  destruct (rate =? target_sr self)%Z eqn:E; cbn [negb].
  - apply Z.eqb_eq in E. intros [= <-].
    repeat split; congruence.
  - destruct (along_last_axis _ a) as [a'|] eqn:Hres; simpl; [|discriminate].
    intros [= <-]. cbn [sr target_sr set_sr set_audio].
    split; [reflexivity|]. split; [reflexivity|]. split.
    + unfold audio_layout. rewrite Ha. cbn.
      f_equal. eapply along_last_axis_layout; eauto.
    + intros ->. rewrite Z.eqb_refl in E. discriminate.
Qed.

(** X10. Resampling: at the target rate the object is returned as it is;
    otherwise, once the resampler succeeds, the rate is the target rate,
    the layout is kept, and a second call changes nothing. *)
Theorem resample_reaches_target_rate
    (self s : AudioCleaner) (a : ndarray) (rate : Z) :
  audio self = Some a -> sr self = Some rate ->
  resample_if_needed L self = Ok s ->
  sr s = Some (target_sr self)
  /\ target_sr s = target_sr self
  /\ audio_layout s = audio_layout self
  /\ (rate = target_sr self -> s = self)
  /\ resample_if_needed L s = Ok s.
Proof.
  intros Ha Hr Hres.
  destruct (resample_if_needed_target self s a rate Ha Hr Hres)
    as (Hsr & Htg & Hlay & Hsame).
  repeat (split; [assumption|]).
  unfold resample_if_needed. rewrite Hsr, <- Htg, Z.eqb_refl. cbn [negb].
  destruct (audio s); reflexivity.
Qed.

Lemma process_to_resampled_steps (self s : AudioCleaner) :
  process_to_resampled L self = Ok (true, s) ->
  exists loaded normalized,
    load_audio L self = (true, loaded)
    /\ process_to_normalized L self = Ok (true, normalized)
    /\ same_layout loaded normalized
    /\ same_rates loaded normalized
    /\ resample_if_needed L (limit_if_flagged L normalized) = Ok s.
Proof.
  unfold process_to_resampled.
  destruct (process_to_normalized L self) as [[ok s1]|] eqn:Hn; simpl;
    [|discriminate].
  destruct ok; simpl; [|discriminate].
  destruct (resample_if_needed L (limit_if_flagged L s1)) as [s2|] eqn:Hr;
    simpl; [|discriminate].
  intros [= <-].
  destruct (process_to_normalized_steps L self s1 Hn)
    as (loaded & snap & corrected & Hl & _ & Hc & Hs1).
  exists loaded, s1. split; [exact Hl|]. split; [reflexivity|].
  split.
  - apply same_layout_trans with corrected; [exact Hc|].
    rewrite Hs1. apply smart_normalize_layout.
  - (* the rates: replay the steps *)
    revert Hn. unfold process_to_normalized. rewrite Hl. cbn [negb].
    destruct (load_audio_loaded L self loaded Hl)
      as (a & rate & Ha & Hm & Hrt & _).
    destruct (analyze_quality L loaded) as [[needs s0]|] eqn:Hq; simpl;
      [|discriminate].
    destruct (analyze_quality_loaded L _ _ _ _ _ _ Ha Hm Hrt Hq)
      as (snap' & _ & _ & Hs0).
    destruct (apply_corrections L needs s0) as [s3|] eqn:Hc3; simpl;
      [|discriminate].
    destruct (param normalization_target s3) as [t|]; simpl; [|discriminate].
    intros [= <-]. split; [|exact Hr].
    apply same_rates_trans with s0; [rewrite Hs0; repeat split|].
    apply same_rates_trans with s3;
      [eapply apply_corrections_rates; eauto | apply smart_normalize_rates].
Qed.

Lemma resample_if_needed_rates (self s : AudioCleaner) :
  resample_if_needed L self = Ok s ->
  output_file s = output_file self /\ input_file s = input_file self.
Proof.
  unfold resample_if_needed.
  destruct (audio self) as [a|]; [|now intros [= <-]].
  destruct (sr self) as [rate|]; [|now intros [= <-]].
  destruct (negb _); [|now intros [= <-]].
  destruct (along_last_axis _ a); simpl; [|discriminate].
  intros [= <-]. split; reflexivity.
Qed.

(** The state [process] returns with on success. *)
Lemma process_success_state (self s : AudioCleaner) :
  process L self = Ok (true, s) ->
  exists a rate a' b,
    librosa_load L (input_file self) = Ok (a, rate)
    /\ audio s = Some a'
    /\ layout_of a' = layout_of a
    /\ sr s = Some (target_sr self)
    /\ is_stereo s = Some b
    /\ mono_collapsed s = false
    /\ output_file s = output_file self.
Proof.
  unfold process.
    destruct (process_to_resampled L self) as [[ok s1]|] eqn:Hr'; simpl;
      [|discriminate].
    destruct ok; simpl; [|discriminate].
    destruct (process_to_resampled_steps self s1 Hr')
      as (loaded & normalized & Hl & _ & Hlay & Hrates & Hres).
    destruct (load_audio_loaded L self loaded Hl)
      as (a & rate & Ha & _ & Hrt & Hmc & b & Hb).
    assert (Hload : librosa_load L (input_file self) = Ok (a, rate)
                    /\ target_sr loaded = target_sr self).
    { revert Hl Ha Hrt. unfold load_audio.
      destruct (librosa_load L (input_file self)) as [[a0 r0]|]; [|discriminate].
      intros [= <-]. cbn. intros [= ->] [= ->]. split; reflexivity. }
    destruct Hload as [Hload Htgt].
    set (limited := limit_if_flagged L normalized) in *.
    assert (Hlay2 : same_layout loaded limited).
    { eapply same_layout_trans; [exact Hlay|].
      apply limit_if_flagged_layout. }
    assert (Hrates2 : same_rates loaded limited).
    { eapply same_rates_trans; [exact Hrates|].
      apply limit_if_flagged_rates. }
    destruct Hlay2 as (Hal & His & _).
    destruct Hrates2 as (Hsr & Htg & _).
    unfold audio_layout in Hal. rewrite Ha in Hal.
    destruct (audio limited) as [al|] eqn:Hal'; [|discriminate].
    injection Hal as Hal.
    destruct (resample_if_needed_target limited s1 al rate Hal'
                ltac:(congruence) Hres)
      as (Hsr1 & _ & Hlay1 & _).
    assert (Hmc1 : mono_collapsed s1 = false).
    { rewrite <- Hmc. apply mono_collapsed_same_layout.
      split; [|split].
      - rewrite Hlay1. unfold audio_layout. rewrite Hal', Ha. cbn. now f_equal.
      - destruct (resample_if_needed_layout L limited s1 Hres) as [(_ & H & _) _].
        congruence.
      - destruct (resample_if_needed_layout L limited s1 Hres) as [(_ & _ & H) _].
        destruct (limit_if_flagged_layout L normalized) as [(_ & _ & H2) _].
        destruct Hlay as (_ & _ & H3). fold limited in H2. congruence. }
    assert (Hst1 : is_stereo s1 = Some b).
    { destruct (resample_if_needed_layout L limited s1 Hres) as [(_ & H & _) _].
      congruence. }
    rewrite (restore_stereo_not_collapsed s1 b Hst1 Hmc1). cbn [bind].
    intros [= <-].
    unfold audio_layout in Hlay1. rewrite Hal' in Hlay1.
    destruct (audio s1) as [a1|]; [|discriminate].
    injection Hlay1 as Hlay1.
    assert (Hof : output_file s1 = output_file self).
    { destruct (resample_if_needed_rates limited s1 Hres) as (Ho1 & _).
      destruct (limit_if_flagged_rates normalized) as (_ & _ & _ & Ho2).
      destruct Hrates as (_ & _ & _ & Ho3).
      fold limited in Ho2.
      assert (Ho4 : output_file loaded = output_file self).
      { revert Hl. unfold load_audio. rewrite Hload. now intros [= <-]. }
      congruence. }
    exists a, rate, a1, b.
    split; [exact Hload|]. split; [reflexivity|]. split; [congruence|].
    split; [congruence|]. split; [exact Hst1|]. split; [exact Hmc1 | exact Hof].
Qed.



End Rates.

Lemma resample_reaches_target_rate_witness :
  exists s,
    resample_if_needed (passthrough_libs clipped_stereo) loaded_stereo = Ok s
    /\ sr s = Some 48000%Z
    /\ resample_if_needed (passthrough_libs clipped_stereo) s = Ok s.
Proof.
  destruct (resample_if_needed (passthrough_libs clipped_stereo) loaded_stereo)
    as [s|e] eqn:Hr; [|vm_compute in Hr; discriminate].
  exists s.
  destruct (resample_reaches_target_rate (passthrough_libs clipped_stereo)
              loaded_stereo s clipped_stereo 44100 eq_refl eq_refl Hr)
    as (H1 & _ & _ & _ & H5).
  repeat split; assumption.
Defined.

End AudioRateFacts.

Module AudioMixFacts.
Import Audio AudioMore AudioBufferFacts AudioPipelineFacts AudioProcessFacts.

(** ** The mono mix against the buffer *)

Lemma add_rows_In (r s : list Q) (z : Q) :
  In z (add_rows r s) -> exists x y, In x r /\ In y s /\ z = x + y.
Proof.
  revert s. induction r as [|x r IH]; intros [|y s]; simpl; try contradiction.
  intros [<-|H].
  - exists x, y. auto.
  - destruct (IH s H) as (x' & y' & Hx & Hy & ->). exists x', y'. auto.
Qed.

Lemma add_rows_length (r s : list Q) :
  (length (add_rows r s) <= length r)%nat.
Proof.
  revert s. induction r as [|x r IH]; intros [|y s]; simpl; try lia.
  specialize (IH s). lia.
Qed.

Lemma fold_add_rows_length (rs : list (list Q)) :
  forall r, (length (fold_left add_rows rs r) <= length r)%nat.
Proof.
  induction rs as [|s rs IH]; intros r; simpl; [lia|].
  pose proof (IH (add_rows r s)). pose proof (add_rows_length r s). lia.
Qed.

(** A column sum of [k] channels bounded by [B] is bounded by [k * B]. *)
Lemma fold_add_rows_bound (B : Q) (rs : list (list Q)) :
  (forall row x, In row rs -> In x row -> Qabs x <= B) ->
  forall (r : list Q) (c : Q),
    (forall x, In x r -> Qabs x <= c * B) ->
    forall z, In z (fold_left add_rows rs r) ->
              Qabs z <= (c + inject_Z (Z.of_nat (length rs))) * B.
Proof.
  induction rs as [|s rs IH]; intros Hrs r c Hr z Hz; simpl in *.
  - rewrite Qplus_0_r. now apply Hr.
  - assert (Hstep : forall x, In x (add_rows r s) -> Qabs x <= (c + 1) * B).
    { intros x Hx. apply add_rows_In in Hx.
      destruct Hx as (x1 & y1 & Hx1 & Hy1 & ->).
      eapply Qle_trans; [apply Qabs_triangle|].
      pose proof (Hr x1 Hx1). pose proof (Hrs s y1 (or_introl eq_refl) Hy1).
      lra. }
    pose proof (IH (fun row x Hrow => Hrs row x (or_intror Hrow))
                   (add_rows r s) (c + 1) Hstep z Hz) as Hb.
    rewrite Zpos_P_of_succ_nat, <- Z.add_1_r, inject_Z_plus.
    eapply Qle_trans; [exact Hb|].
    apply Qle_lteq. right. simpl. ring.
Qed.

(** The peak of the mono mix never exceeds the peak of the buffer. *)
Lemma mono_peak_le_buffer_peak (a : ndarray) (pm pb : Q) :
  np_max (map Qabs (to_mono a)) = Ok pm -> abs_max a = Ok pb -> pm <= pb.
Proof.
  intros Hm Hb.
  destruct (abs_max_attained (Arr1 (to_mono a)) pm Hm) as (y & Hy & ->).
  cbn [samples] in Hy.
  destruct a as [xs|[|r rs]]; cbn [to_mono] in Hy.
  - eapply abs_max_bound; eauto.
  - contradiction.
  - set (k := inject_Z (Z.of_nat (length (r :: rs)))) in *.
    apply in_map_iff in Hy. destruct Hy as (z & <- & Hz).
    assert (Hk : 0 < k).
    { subst k. change 0 with (inject_Z 0). rewrite <- Zlt_Qlt.
      cbn [length]. lia. }
    assert (Hbound : Qabs z <= k * pb).
    { assert (Hz' : Qabs z <= (1 + inject_Z (Z.of_nat (length rs))) * pb).
      { apply (fold_add_rows_bound pb rs) with (r := r); [| |exact Hz].
        - intros row x Hrow Hx. apply (abs_max_bound _ _ _ Hb).
          simpl. apply in_or_app. right. apply in_concat. eauto.
        - intros x Hx. rewrite Qmult_1_l. apply (abs_max_bound _ _ _ Hb).
          simpl. apply in_or_app. now left. }
      eapply Qle_trans; [exact Hz'|].
      apply Qle_lteq. right. subst k. cbn [length].
      rewrite Nat2Z.inj_succ, <- Z.add_1_r, inject_Z_plus. simpl. ring. }
    unfold Qdiv. rewrite Qabs_Qmult.
    assert (Hinv : Qabs (/ k) == / k)
      by (apply Qabs_pos, Qlt_le_weak, Qinv_lt_0_compat, Hk).
    rewrite Hinv.
    apply Qle_shift_div_r; [exact Hk|]. lra.
Qed.

Lemma to_mono_samples (a : ndarray) : to_mono a <> [] -> samples a <> [].
Proof.
  destruct a as [xs|[|r rs]]; simpl; auto.
  intros H Hc. apply H.
  apply app_eq_nil in Hc. destruct Hc as [-> _].
  pose proof (fold_add_rows_length rs []) as Hl. simpl in Hl.
  destruct (fold_left add_rows rs []); [reflexivity | simpl in Hl; lia].
Qed.

Lemma needs_limiting_peak (s : QualitySnapshot) :
  needs_limiting (snd (derive_params s)) = true ->
  f_gt (q_peak s) (99 # 100) = true.
Proof.
  unfold derive_params, rule_peak, rule_noise_floor, rule_hf, rule_snr.
  split_ifs; simpl; intros H; try discriminate; reflexivity.
Qed.

(** X12. The analysis looks at the mono mix, whose peak cannot exceed the
    peak of the loaded buffer: whenever it sets the limiter flag, some
    sample of the buffer itself is above 0.99 in magnitude. *)
Theorem limiter_flag_means_clipped_samples
    (L : Libs) (self loaded s : AudioCleaner) (needs : bool)
    (p : ProcessingParams) :
  load_audio L self = (true, loaded) ->
  analyze_quality L loaded = Ok (needs, s) ->
  processing_params s = Some p ->
  needs_limiting p = true ->
  exists a pb x,
    audio loaded = Some a /\ abs_max a = Ok pb /\ 99 # 100 < pb
    /\ In x (samples a) /\ 99 # 100 < Qabs x.
Proof.
  intros Hl Hq Hp Hlim.
  destruct (load_audio_loaded L self loaded Hl)
    as (a & rate & Ha & Hm & Hr & _).
  destruct (analyze_quality_loaded L _ _ _ _ _ _ Ha Hm Hr Hq)
    as (snap & Hsnap & _ & Hs).
  assert (Hp' : p = snd (derive_params snap))
    by (rewrite Hs in Hp; simpl in Hp; congruence).
  subst p. apply needs_limiting_peak in Hlim.
  revert Hsnap. unfold measure.
  destruct (np_max (map Qabs (to_mono a))) as [pm|] eqn:Hpm; simpl;
    [|discriminate].
  intros [= <-]. simpl in Hlim. apply Qlt_bool_iff in Hlim.
  assert (Hne : samples a <> []).
  { apply to_mono_samples. intros Hc. rewrite Hc in Hpm. discriminate. }
  destruct (samples a) as [|x0 l] eqn:Hsam; [contradiction|].
  destruct (abs_max_defined a x0) as [pb Hpb]; [rewrite Hsam; now left|].
  pose proof (mono_peak_le_buffer_peak a pm pb Hpm Hpb) as Hle.
  destruct (abs_max_attained a pb Hpb) as (x & Hx & Hxe).
  exists a, pb, x.
  repeat split; try assumption; try lra.
  rewrite <- Hxe. lra.
Qed.

Lemma limiter_flag_means_clipped_samples_witness :
  exists a pb,
    audio (snd (load_audio (passthrough_libs clipped_stereo)
                  (new_cleaner "clip.wav" "clip_cleaned.wav" 48000))) = Some a
    /\ abs_max a = Ok pb /\ 99 # 100 < pb.
Proof.
  destruct (load_audio (passthrough_libs clipped_stereo)
              (new_cleaner "clip.wav" "clip_cleaned.wav" 48000))
    as [ok loaded] eqn:Hl.
  assert (ok = true) by (vm_compute in Hl; now injection Hl as <- _).
  subst ok.
  destruct (analyze_quality (passthrough_libs clipped_stereo) loaded)
    as [[needs s]|e] eqn:Hq;
    [|vm_compute in Hl; injection Hl as <-; vm_compute in Hq; discriminate].
  destruct (processing_params s) as [p|] eqn:Hp;
    [|vm_compute in Hl; injection Hl as <-; vm_compute in Hq;
      injection Hq as _ <-; discriminate].
  assert (Hlim : needs_limiting p = true).
  { vm_compute in Hl. injection Hl as <-. vm_compute in Hq.
    injection Hq as _ <-. injection Hp as <-. reflexivity. }
  destruct (limiter_flag_means_clipped_samples (passthrough_libs clipped_stereo)
              (new_cleaner "clip.wav" "clip_cleaned.wav" 48000) loaded s needs p
              Hl Hq Hp Hlim) as (a & pb & x & Ha & Hpb & Hgt & _).
  exists a, pb. simpl. repeat split; assumption.
Defined.

(** ** Normalizing twice *)

Lemma Forall2_map_Qeq (f : Q -> Q) (l : list Q) :
  (forall x, f x == x) -> Forall2 Qeq (map f l) l.
Proof.
  intros Hf. induction l as [|x l IH]; simpl; constructor; auto.
Qed.

(** X13. Normalizing an already normalized buffer keeps its layout and
    leaves every sample equal (as a rational) to what it was. *)
Theorem smart_normalize_idempotent (self : AudioCleaner) (a : ndarray) (t : Q) :
  audio self = Some a -> 0 < t ->
  (exists x, In x (samples a) /\ ~ x == 0) ->
  exists a1 a2,
    audio (smart_normalize t self) = Some a1
    /\ audio (smart_normalize t (smart_normalize t self)) = Some a2
    /\ layout_of a2 = layout_of a1
    /\ Forall2 Qeq (samples a2) (samples a1).
Proof.
  intros Ha Ht (x & Hin & Hx).
  destruct (abs_max_defined a x Hin) as [peak Hpeak].
  assert (Hpos : 0 < peak).
  { apply Qlt_le_trans with (Qabs x); [now apply Qabs_nonzero_pos|].
    eapply abs_max_bound; eauto. }
  assert (Hpz : ~ peak == 0) by (intro Hz; rewrite Hz in Hpos; discriminate).
  assert (Hc : 0 < t / peak) by (apply Qlt_shift_div_l; [exact Hpos | lra]).
  set (a1 := arr_map (fun y => y * (t / peak)) a).
  assert (H1 : smart_normalize t self = set_audio a1 self).
  { unfold smart_normalize. rewrite Ha, Hpeak. cbn [bind].
    apply Qlt_bool_iff in Hpos. now rewrite Hpos. }
  pose proof (abs_max_scale a (t / peak) peak Hc Hpeak) as Hpeak1.
  fold a1 in Hpeak1.
  assert (Hp1 : peak * (t / peak) == t) by (field; exact Hpz).
  assert (Hpos1 : Qlt_bool 0 (peak * (t / peak)) = true)
    by (apply Qlt_bool_iff; rewrite Hp1; exact Ht).
  exists a1, (arr_map (fun y => y * (t / (peak * (t / peak)))) a1).
  rewrite H1. split; [reflexivity|]. split.
  - unfold smart_normalize. cbn [audio set_audio]. rewrite Hpeak1. cbn [bind].
    rewrite Hpos1. reflexivity.
  - split; [apply arr_map_layout|].
    rewrite samples_arr_map. apply Forall2_map_Qeq.
    intros y. rewrite Hp1. field. intro Hz. rewrite Hz in Ht. discriminate.
Qed.

Lemma smart_normalize_idempotent_witness :
  exists a1 a2,
    audio (smart_normalize (8 # 10) loaded_stereo) = Some a1
    /\ audio (smart_normalize (8 # 10) (smart_normalize (8 # 10) loaded_stereo))
       = Some a2
    /\ Forall2 Qeq (samples a2) (samples a1).
Proof.
  destruct (smart_normalize_idempotent loaded_stereo clipped_stereo (8 # 10)
              eq_refl eq_refl)
    as (a1 & a2 & H1 & H2 & _ & H4).
  - exists 1. split; [now left | discriminate].
  - exists a1, a2. repeat split; assumption.
Defined.

End AudioMixFacts.

(** * Further properties of the video enhancer *)

Module VideoParamFacts.
Import Video VideoMore.

(** ** Parameter table *)

Lemma f_lt_weaken_video (a : fval) (b c : Q) :
  b <= c -> f_lt a b = true -> f_lt a c = true.
Proof.
  destruct a as [q|]; simpl; [|discriminate].
  intros Hbc H. apply Qlt_bool_iff in H. apply Qlt_bool_iff. lra.
Qed.


Lemma Qmax_py_cases (a b : Q) : Qmax_py a b = a \/ Qmax_py a b = b.
Proof. unfold Qmax_py. destruct (Qlt_bool a b); auto. Qed.


(** The upscaling rule alone (lines 144-160). *)
Lemma derive_enhancement_upscaling (target : option (Z * Z)) (w h : Z)
    (b c s n : fval) (p : EnhancementParams) :
  derive_enhancement target w h b c s n = Ok p ->
  exists p0,
    (match target with
     | Some (target_w, target_h) =>
         if ((w <? target_w) || (h <? target_h))%Z then
           if ((w =? 0) || (h =? 0))%Z then Raise ZeroDivisionError
           else Ok (set_upscaling
                      (Qmax_py (inject_Z target_w / inject_Z w)
                               (inject_Z target_h / inject_Z h))
                      default_enhancement)
         else Ok default_enhancement
     | None =>
         if ((w <? 1280) || (h <? 720))%Z then
           if (w <? 640)%Z then Ok (set_upscaling 2 default_enhancement)
           else Ok (set_upscaling (15 # 10) default_enhancement)
         else Ok default_enhancement
     end) = Ok p0
    /\ needs_upscaling p = needs_upscaling p0
    /\ upscale_factor p = upscale_factor p0.
Proof.
  unfold derive_enhancement.
  match goal with
  | |- bind ?u _ = _ -> _ => destruct u as [p0|] eqn:Hu
  end; cbn [bind]; [|discriminate].
  intros [= <-]. exists p0. split; [reflexivity|].
  split_ifs; split; reflexivity.
Qed.

(** X15. The derived parameters stay in their tables: denoise strength in
    {0, 3, 5, 10}, sharpening in {0, 0.3, 0.8, 1.5}, brightness in
    {0, 30, -20}, contrast in {1, 1.15, 1.3}; colour enhancement is only
    ever on together with a contrast gain, and always on with the 1.3
    gain. *)
Theorem derive_enhancement_tables (target : option (Z * Z)) (w h : Z)
    (b c s n : fval) (p : EnhancementParams) :
  derive_enhancement target w h b c s n = Ok p ->
  In (denoise_strength p) [0; 3; 5; 10]%Z
  /\ In (sharpen_amount p) [0; 3 # 10; 8 # 10; 15 # 10]
  /\ In (brightness_adjust p) [0; 30; -20]%Z
  /\ In (contrast_adjust p) [1; 115 # 100; 13 # 10]
  /\ (color_enhance p = true -> contrast_adjust p <> 1)
  /\ (contrast_adjust p = 13 # 10 -> color_enhance p = true).
Proof.
  unfold derive_enhancement.
  match goal with
  | |- bind ?u _ = _ -> _ => destruct u as [p0|] eqn:Hu
  end; cbn [bind]; [|discriminate].
  assert (Hp0 : denoise_strength p0 = 0%Z /\ sharpen_amount p0 = 0
                /\ brightness_adjust p0 = 0%Z /\ contrast_adjust p0 = 1
                /\ color_enhance p0 = false).
  { revert Hu. destruct target as [[tw th]|]; split_ifs;
      intros [= <-]; repeat split. }
  destruct Hp0 as (Hd & Hs & Hb & Hc & Hce).
  intros [= <-].
  destruct (f_lt c 30) eqn:C30.
  { assert (C50 : f_lt c 50 = true) by (eapply f_lt_weaken_video; [|exact C30]; discriminate).
    assert (C40 : f_lt c 40 = true) by (eapply f_lt_weaken_video; [|exact C30]; discriminate).
    rewrite ?C40, ?C50.
    split_ifs; cbn; rewrite ?Hd, ?Hs, ?Hb, ?Hc, ?Hce;
      repeat split; auto 10; try discriminate; intuition discriminate. }
  destruct (f_lt c 50) eqn:C50.
  { split_ifs; cbn; rewrite ?Hd, ?Hs, ?Hb, ?Hc, ?Hce;
      repeat split; auto 10; try discriminate; intuition discriminate. }
  assert (C40 : f_lt c 40 = false).
  { destruct (f_lt c 40) eqn:E; [|reflexivity].
    rewrite (f_lt_weaken_video c 40 50) in C50; [discriminate| |exact E].
    discriminate. }
  rewrite C40.
  split_ifs; cbn; rewrite ?Hd, ?Hs, ?Hb, ?Hc, ?Hce;
    repeat split; auto 10; try discriminate; intuition discriminate.
Qed.





Lemma derive_enhancement_tables_witness :
  exists p,
    derive_enhancement None 640 480 (Num 70) (Num 20) (Num 50) (Num 9) = Ok p
    /\ In (denoise_strength p) [0; 3; 5; 10]%Z
    /\ color_enhance p = true.
Proof.
  destruct (derive_enhancement None 640 480 (Num 70) (Num 20) (Num 50) (Num 9))
    as [p|e] eqn:Hd; [|vm_compute in Hd; discriminate].
  exists p. split; [reflexivity|].
  destruct (derive_enhancement_tables None 640 480 (Num 70) (Num 20) (Num 50)
              (Num 9) p Hd) as (H1 & _ & _ & _ & _ & H6).
  split; [exact H1|]. apply H6.
  vm_compute in Hd. injection Hd as <-. reflexivity.
Defined.

End VideoParamFacts.

Module VideoSamplingFacts.
Import Video VideoMore.

(** ** Sample indices *)

Lemma sample_index_step (i j m d : Z) :
  (0 < d <= m)%Z -> (0 <= i < j)%Z -> (i * m / d < j * m / d)%Z.
Proof.
  intros Hd Hij.
  assert (H : (i * m / d + 1 <= j * m / d)%Z).
  { rewrite <- (Z.div_add _ 1 d) by lia.
    apply Z.div_le_mono; [lia|]. nia. }
  lia.
Qed.

Lemma sample_indices_nth (n : Z) (i : nat) (d : nat) :
  (2 <= n)%Z -> (Z.of_nat i < Z.min 20 n)%Z ->
  nth i (sample_indices n) d
  = Z.to_nat (Z.of_nat i * (n - 1) / (Z.min 20 n - 1)).
Proof.
  intros Hn Hi. unfold sample_indices.
  assert (Hk : (Z.min 20 n <=? 1)%Z = false) by (apply Z.leb_gt; lia).
  rewrite Hk.
  rewrite (nth_indep _ d (Z.to_nat (Z.of_nat 0 * (n - 1) / (Z.min 20 n - 1))))
    by (rewrite length_map, length_seq; lia).
  rewrite (map_nth (fun i => Z.to_nat (Z.of_nat i * (n - 1) / (Z.min 20 n - 1)))).
  rewrite seq_nth by lia. reflexivity.
Qed.

Lemma sample_indices_length (n : Z) :
  (1 <= n)%Z -> length (sample_indices n) = Z.to_nat (Z.min 20 n).
Proof.
  intros Hn. unfold sample_indices.
  destruct (Z.min 20 n <=? 1)%Z eqn:Hk.
  - apply Z.leb_le in Hk. assert (Z.min 20 n = 1%Z) as -> by lia. reflexivity.
  - now rewrite length_map, length_seq.
Qed.

(** X17. For a video of [n >= 1] frames the analysis samples
    [min(20, n)] frame indices: they start at the first frame, end at the
    last one, increase strictly, and all lie inside the video. *)
Theorem sample_indices_cover (n : Z) :
  (1 <= n)%Z ->
  let idx := sample_indices n in
  length idx = Z.to_nat (Z.min 20 n)
  /\ hd 0%nat idx = 0%nat
  /\ Z.of_nat (last idx 0%nat) = (n - 1)%Z
  /\ (forall i, In i idx -> (Z.of_nat i < n)%Z)
  /\ (forall i j, (i < j < length idx)%nat ->
                  (nth i idx 0 < nth j idx 0)%nat).
Proof.
  intros Hn idx. subst idx.
  pose proof (sample_indices_length n Hn) as Hlen.
  split; [exact Hlen|].
  destruct (Z.eq_dec n 1) as [->|Hn1].
  { cbn. repeat split; try lia; try (intros i [<-|[]]; lia). }
  assert (Hn2 : (2 <= n)%Z) by lia.
  set (k := Z.min 20 n) in *.
  assert (Hk : (2 <= k <= n)%Z) by (subst k; lia).
  assert (Hnth : forall i, (i < length (sample_indices n))%nat ->
            nth i (sample_indices n) 0%nat
            = Z.to_nat (Z.of_nat i * (n - 1) / (k - 1))).
  { intros i Hi. apply sample_indices_nth; [exact Hn2|]. fold k. lia. }
  assert (Hbound : forall i, (i < length (sample_indices n))%nat ->
            (0 <= Z.of_nat i * (n - 1) / (k - 1) <= n - 1)%Z).
  { intros i Hi. split.
    - apply Z.div_pos; nia.
    - apply Z.div_le_upper_bound; [lia|]. nia. }
  split; [|split; [|split]].
  - destruct (sample_indices n) as [|x l] eqn:E; [simpl in Hlen; lia|].
    specialize (Hnth 0%nat ltac:(simpl; lia)).
    change (Z.of_nat 0 * (n - 1))%Z with 0%Z in Hnth.
    rewrite Z.div_0_l in Hnth by lia. exact Hnth.
  - assert (Hl : last (sample_indices n) 0%nat
                 = nth (length (sample_indices n) - 1) (sample_indices n) 0%nat).
    { clear. generalize (sample_indices n). intro l.
      induction l as [|x [|y l] IH]; try reflexivity.
      change (last (x :: y :: l) 0%nat) with (last (y :: l) 0%nat).
      rewrite IH. simpl. now rewrite Nat.sub_0_r. }
    rewrite Hl, Hnth by lia.
    assert (Hlast : Z.of_nat (length (sample_indices n) - 1) = (k - 1)%Z)
      by (rewrite Hlen; lia).
    rewrite Hlast, Z.mul_comm, Z.div_mul by lia. lia.
  - intros i Hi. apply (In_nth _ _ 0%nat) in Hi.
    destruct Hi as (j & Hj & <-). rewrite Hnth by exact Hj.
    specialize (Hbound j Hj). lia.
  - intros i j Hij. rewrite !Hnth by lia.
    pose proof (Hbound i ltac:(lia)). pose proof (Hbound j ltac:(lia)).
    apply Z2Nat.inj_lt; try lia.
    apply sample_index_step; lia.
Qed.

Lemma sample_indices_cover_witness :
  length (sample_indices 100) = 20%nat
  /\ hd 0%nat (sample_indices 100) = 0%nat
  /\ Z.of_nat (last (sample_indices 100) 0%nat) = 99%Z.
Proof.
  destruct (sample_indices_cover 100) as (H1 & H2 & H3 & _); [lia|].
  repeat split; assumption.
Defined.

End VideoSamplingFacts.

Module VideoPipelineFacts.
Import Video VideoMore VideoStreamFacts.

Lemma skipn_nth_error {A : Type} (l : list A) (n : nat) (x : A) :
  nth_error l n = Some x -> skipn n l = x :: skipn (S n) l.
Proof.
  revert l. induction n as [|n IH]; intros [|y l]; simpl; try discriminate.
  - now intros [= ->].
  - intros H. now apply IH.
Qed.

(** ** Colour stage *)

(** X21. On an HSV pixel with an 8-bit saturation, the colour stage
    leaves hue and value alone and replaces the saturation [s] by
    [min(255, floor(1.2 * s))], never less than [s] and never more than
    255. *)
Theorem boost_saturation_range (hue s : Z) (rest : list Z) :
  (0 <= s <= 255)%Z ->
  boost_saturation (hue :: s :: rest)
  = hue :: Z.min 255 (12 * s / 10) :: rest
  /\ (s <= Z.min 255 (12 * s / 10) <= 255)%Z.
Proof.
  intros Hs. split.
  - unfold boost_saturation. f_equal. f_equal.
    assert (Hnn : 0 <= inject_Z s * (12 # 10)).
    { apply Qmult_le_0_compat; [|discriminate].
      change 0 with (inject_Z 0). rewrite <- Zle_Qle. lia. }
    assert (Hfl : Qfloor (inject_Z s * (12 # 10)) = (12 * s / 10)%Z).
    { unfold Qfloor, Qmult, inject_Z. cbn [Qnum Qden].
      change (Z.pos (1 * 10)) with 10%Z. now rewrite Z.mul_comm. }
    rewrite (Qfloor_comp _ (Qmin 255 (inject_Z s * (12 # 10))))
      by (rewrite (Q.max_r 0 _ Hnn); reflexivity).
    destruct (Qlt_le_dec 255 (inject_Z s * (12 # 10))) as [Hbig|Hsmall].
    + rewrite (Qfloor_comp _ 255) by (apply Q.min_l; lra).
      assert (Hge : (255 <= 12 * s / 10)%Z).
      { rewrite <- Hfl. change 255%Z with (Qfloor 255).
        apply Qfloor_resp_le. lra. }
      change (Qfloor 255) with 255%Z. lia.
    + rewrite (Qfloor_comp _ (inject_Z s * (12 # 10))) by (apply Q.min_r; exact Hsmall).
      rewrite Hfl.
      assert (Hle : (12 * s / 10 <= 255)%Z).
      { rewrite <- Hfl. change 255%Z with (Qfloor 255).
        apply Qfloor_resp_le. exact Hsmall. }
      lia.
  - assert (s <= 12 * s / 10)%Z by (apply Z.div_le_lower_bound; lia).
    lia.
Qed.

Lemma boost_saturation_range_witness :
  boost_saturation [30; 100; 200]%Z = [30; 120; 200]%Z
  /\ boost_saturation [30; 250; 200]%Z = [30; 255; 200]%Z.
Proof.
  split.
  - exact (proj1 (boost_saturation_range 30 100 [200%Z] ltac:(lia))).
  - exact (proj1 (boost_saturation_range 30 250 [200%Z] ltac:(lia))).
Defined.

Section Pipeline.

Context (cv : Cv).

Lemma enhance_frame_with (self : VideoEnhancer) (p : EnhancementParams)
    (fr : frame) :
  enhancement_params self = Some p ->
  enhance_frame cv self fr = Ok (enhance_with cv p fr).
Proof. unfold enhance_frame. now intros ->. Qed.

Lemma process_frames_total (self : VideoEnhancer) (p : EnhancementParams)
    (c : VideoCapture) (out : VideoWriter) (frame_num : Z) :
  enhancement_params self = Some p ->
  vc_opened c = true ->
  (vc_pos c <= length (vc_frames c))%nat ->
  process_frames cv self c out frame_num
  = Ok (set_pos (length (vc_frames c)) c,
        mkWriter (vw_opened out)
                 (vw_frames out
                  ++ map (enhance_with cv p) (skipn (vc_pos c) (vc_frames c))),
        (frame_num + Z.of_nat (remaining c))%Z).
Proof.
  intros Hp. funelim (process_frames cv self c out frame_num);
    intros Hopen Hpos; clear Heqcall;
    match goal with Hr : read c = _ |- _ => pose proof Hr as He end;
    unfold read in He; rewrite Hopen in He;
    destruct (nth_error (vc_frames c) (vc_pos c)) as [f0|] eqn:E;
    try discriminate.
  - (* the read failed: the cursor is at the end *)
    injection He as _ <-.
    apply nth_error_None in E.
    assert (Heq : vc_pos c = length (vc_frames c)) by lia.
    rewrite skipn_all2 by lia. rewrite app_nil_r.
    unfold remaining. rewrite <- Heq, set_pos_same, Nat.sub_diag, Z.add_0_r.
    now destruct out.
  - (* a frame was read and enhanced *)
    injection He as Hf Hc'. subst f0.
    match goal with
    | Henh : enhance_frame cv self f = Ok _ |- _ =>
        rewrite (enhance_frame_with self p f Hp) in Henh;
        injection Henh as <-
    end.
    assert (Hlt : (vc_pos c < length (vc_frames c))%nat)
      by (apply nth_error_Some; congruence).
    match goal with
    | IH : forall p0, _ -> _ -> _ -> process_frames _ _ c' _ _ = _ |- _ =>
        rewrite (IH p Hp) by (subst c'; simpl; auto; lia)
    end.
    subst c'. unfold remaining, set_pos, write. cbn.
    rewrite (skipn_nth_error _ _ _ E). cbn [map].
    rewrite <- app_assoc. cbn [app].
    f_equal. f_equal. lia.
  - (* enhancement cannot fail once the parameters are set *)
    match goal with
    | Henh : enhance_frame cv self f = Raise _ |- _ =>
        rewrite (enhance_frame_with self p _ Hp) in Henh; discriminate
    end.
Qed.

(** X18. The frame loop, started on an open capture, enhances every frame
    from the cursor to the end and appends them to the output in stream
    order, one output frame per input frame; it returns their number and
    leaves the cursor at the end. *)
Theorem process_frames_in_order (self : VideoEnhancer) (p : EnhancementParams)
    (c : VideoCapture) (out : VideoWriter) (frame_num : Z) :
  enhancement_params self = Some p ->
  vc_opened c = true ->
  (vc_pos c <= length (vc_frames c))%nat ->
  exists c' out',
    process_frames cv self c out frame_num
    = Ok (c', out', (frame_num + Z.of_nat (remaining c))%Z)
    /\ vw_frames out'
       = vw_frames out
         ++ map (enhance_with cv p) (skipn (vc_pos c) (vc_frames c))
    /\ length (vw_frames out')
       = (length (vw_frames out) + remaining c)%nat
    /\ vw_opened out' = vw_opened out
    /\ same_stream c c'
    /\ remaining c' = 0%nat.
Proof.
  intros Hp Hopen Hpos.
  rewrite (process_frames_total self p c out frame_num Hp Hopen Hpos).
  eexists. eexists. split; [reflexivity|]. cbn.
  split; [reflexivity|]. split.
  - rewrite length_app, length_map, length_skipn. reflexivity.
  - split; [reflexivity|]. split; [split; reflexivity|].
    unfold remaining. cbn. lia.
Qed.


(** X20. A source that needs no upscaling and whose averaged metrics are
    all in the good bands (NaN included) gets the default parameters, and
    [enhance_frame] then returns every frame as it is. *)
Theorem clean_video_passes_through (target : option (Z * Z)) (w h : Z)
    (b c s n : fval) :
  match target with
  | Some (target_w, target_h) => (target_w <= w /\ target_h <= h)%Z
  | None => (1280 <= w /\ 720 <= h)%Z
  end ->
  f_gt n 4 = false -> f_lt s 500 = false ->
  f_lt b 80 = false -> f_gt b 180 = false -> f_lt c 50 = false ->
  derive_enhancement target w h b c s n = Ok default_enhancement
  /\ forall self fr,
       enhancement_params self = Some default_enhancement ->
       enhance_frame cv self fr = Ok fr.
Proof.
  intros Hsize Hn Hs Hb1 Hb2 Hc. split.
  - unfold derive_enhancement.
    assert (Hn8 : f_gt n 8 = false).
    { destruct n as [q|]; [|reflexivity]. simpl in *.
      apply Qlt_bool_false in Hn. apply Qlt_bool_false. lra. }
    assert (Hn15 : f_gt n 15 = false).
    { destruct n as [q|]; [|reflexivity]. simpl in *.
      apply Qlt_bool_false in Hn. apply Qlt_bool_false. lra. }
    assert (Hs3 : f_lt s 300 = false).
    { destruct s as [q|]; [|reflexivity]. simpl in *.
      apply Qlt_bool_false in Hs. apply Qlt_bool_false. lra. }
    assert (Hs1 : f_lt s 100 = false).
    { destruct s as [q|]; [|reflexivity]. simpl in *.
      apply Qlt_bool_false in Hs. apply Qlt_bool_false. lra. }
    assert (Hc3 : f_lt c 30 = false).
    { destruct c as [q|]; [|reflexivity]. simpl in *.
      apply Qlt_bool_false in Hc. apply Qlt_bool_false. lra. }
    assert (Hc4 : f_lt c 40 = false).
    { destruct c as [q|]; [|reflexivity]. simpl in *.
      apply Qlt_bool_false in Hc. apply Qlt_bool_false. lra. }
    rewrite Hn, Hn8, Hn15, Hs, Hs3, Hs1, Hb1, Hb2, Hc, Hc3, Hc4.
    destruct target as [[tw th]|].
    + assert (H1 : ((w <? tw) || (h <? th))%Z = false)
        by (apply orb_false_iff; rewrite !Z.ltb_ge; lia).
      now rewrite H1.
    + assert (H1 : ((w <? 1280) || (h <? 720))%Z = false)
        by (apply orb_false_iff; rewrite !Z.ltb_ge; lia).
      now rewrite H1.
  - intros self fr Hp. rewrite (enhance_frame_with self _ fr Hp).
    reflexivity.
Qed.

End Pipeline.
Lemma process_frames_in_order_witness :
  exists c' out,
    process_frames (stub_cv reported_stream true)
      (set_enhancement default_enhancement (new_enhancer "in.mp4" "out.mp4" None))
      reported_stream (mkWriter true []) 0
    = Ok (c', out, 3%Z)
    /\ vw_frames out = [grey 10; grey 100; grey 200].
Proof.
  destruct (process_frames_in_order (stub_cv reported_stream true)
              (set_enhancement default_enhancement
                 (new_enhancer "in.mp4" "out.mp4" None))
              default_enhancement reported_stream (mkWriter true []) 0
              eq_refl eq_refl) as (c' & out & Hrun & Hfr & _);
    [simpl; lia|].
  exists c', out. split; [exact Hrun | exact Hfr].
Defined.


Lemma clean_video_passes_through_witness :
  derive_enhancement None 1920 1080 (Num 120) (Num 60) (Num 700) (Num 2)
  = Ok default_enhancement.
Proof.
  refine (proj1 (clean_video_passes_through (stub_cv reported_stream true)
                   None 1920 1080 (Num 120) (Num 60) (Num 700) (Num 2)
                   _ _ _ _ _ _));
    try reflexivity. simpl. lia.
Defined.

End VideoPipelineFacts.

Module AudioSaveFacts.
Import Audio AudioMore AudioBufferFacts AudioPipelineFacts AudioProcessFacts
       AudioRateFacts.

(** ** Saving *)

(** X11. After a successful [process], [save_audio] hands the writer the
    buffer at the target sample rate under the configured output path, and
    returns that path exactly when the writer accepts it; a multi-channel
    buffer is handed over frames first, each frame holding one sample per
    channel.  With nothing loaded it returns [None] without writing. *)
Theorem save_after_process
    (L : Libs) (sf_write : string -> ndarray -> Z -> result unit)
    (self s : AudioCleaner) :
  process L self = Ok (true, s) ->
  (exists a b,
     audio s = Some a /\ is_stereo s = Some b
     /\ save_audio sf_write s
        = match sf_write (output_file self) (audio_to_save b a) (target_sr self) with
          | Ok _ => Some (output_file self)
          | Raise _ => None
          end
     /\ (forall rows, a = Arr2 rows -> b = true ->
         forall fr, In fr (channel_rows (audio_to_save b a)) ->
                    length fr = length rows))
  /\ (audio self = None -> save_audio sf_write self = None).
Proof.
  intros Hp. split.
  - destruct (process_success_state L self s Hp)
      as (a0 & rate & a & b & _ & Ha & _ & Hsr & Hb & _ & Hout).
    exists a, b. split; [exact Ha|]. split; [exact Hb|]. split.
    + unfold save_audio. rewrite Ha, Hsr, Hb, Hout. cbn [bind].
      destruct (sf_write _ _ _); reflexivity.
    + intros rows -> -> fr Hin. cbn in Hin. unfold np_transpose in Hin.
      apply in_map_iff in Hin. destruct Hin as (j & <- & _).
      apply length_map.
  - intros Hnone. unfold save_audio. now rewrite Hnone.
Qed.

Lemma save_after_process_witness :
  exists s,
    process (passthrough_libs clipped_stereo)
      (new_cleaner "clip.wav" "clip_cleaned.wav" 48000) = Ok (true, s)
    /\ save_audio (fun _ _ _ => Ok tt) s = Some "clip_cleaned.wav"%string.
Proof.
  destruct (process (passthrough_libs clipped_stereo)
              (new_cleaner "clip.wav" "clip_cleaned.wav" 48000))
    as [[ok s]|e] eqn:Hp; [|vm_compute in Hp; discriminate].
  assert (ok = true) by (vm_compute in Hp; now injection Hp as <- _).
  subst ok. exists s. split; [reflexivity|].
  destruct (save_after_process (passthrough_libs clipped_stereo)
              (fun _ _ _ => Ok tt)
              (new_cleaner "clip.wav" "clip_cleaned.wav" 48000) s Hp)
    as [(a & b & _ & _ & Hsave & _) _].
  exact Hsave.
Defined.

End AudioSaveFacts.

Module VideoOutcomeFacts.
Import Video VideoMore VideoStreamFacts VideoProcessFacts.

Section Outcome.

Context (cv : Cv).


(** X23. When the input cannot be opened, or is an empty stream without
    usable metadata, [process] returns [False] without creating an output
    stream and without deriving parameters; the object keeps the handle as
    [analyze_video] left it. *)
Theorem process_fails_without_output (self : VideoEnhancer) :
  let c := VideoCapture_open cv (input_file self) in
  isOpened c = false
  \/ (isOpened c = true /\ vc_pos c = 0%nat /\ vc_frames c = []
      /\ ((vc_frame_count c <= 0)%Z \/ vc_fps c <= 0)) ->
  exists s c',
    process cv self = Ok (false, s, None)
    /\ enhancement_params s = enhancement_params self
    /\ cap s = Some c' /\ isOpened c' = isOpened c.
Proof.
  intros c [Hclosed|(Hopen & Hpos & Hempty & Hmeta)].
  - unfold process, analyze_video. fold c. rewrite Hclosed. cbn.
    exists (set_cap c self), c. repeat split; try reflexivity; exact Hclosed.
  - destruct (analyze_video_recovery cv self Hopen Hpos Hmeta) as [Hzero _].
    fold c in Hzero. rewrite Hempty in Hzero.
    destruct (Hzero eq_refl) as (s & Hs & _ & _ & Hc).
    destruct (analyze_video_handle cv self s false Hs) as (c' & Hc' & _).
    unfold process. rewrite Hs. cbn.
    exists s, (set_pos 0 c). split; [reflexivity|]. split.
    + revert Hs. unfold analyze_video. fold c. rewrite Hopen. cbn [negb].
      rewrite recover_metadata_counts; [|exact Hopen|exact Hpos|].
      2:{ cbn. destruct Hmeta as [H|H].
          - apply Z.leb_le in H. now rewrite H.
          - apply Qle_bool_iff in H. rewrite H. apply orb_true_r. }
      rewrite Hempty. cbn.
      destruct (Qle_bool (vc_fps c) 0); cbn; intros [= <-]; reflexivity.
    + split; [exact Hc | reflexivity].
Qed.

End Outcome.


Lemma process_fails_without_output_witness :
  exists s,
    process (stub_cv (mkCapture false [] 0 0 0 0 0) true)
      (new_enhancer "missing.mp4" "out.mp4" None) = Ok (false, s, None).
Proof.
  destruct (process_fails_without_output
              (stub_cv (mkCapture false [] 0 0 0 0 0) true)
              (new_enhancer "missing.mp4" "out.mp4" None))
    as (s & c' & H & _); [left; reflexivity|].
  exists s. exact H.
Defined.

End VideoOutcomeFacts.

(** * Properties of the callers *)

Module AudioCallerFacts.
Import Audio AudioMore AudioCallers.

Section Cli.

Context (H : Host).

(** ** Command line *)

Lemma clean_files_dry_run (files : list PathInfo) (root : option string)
    (rate : Z) :
  clean_files H files root rate true = Ok 0%Z.
Proof. induction files as [|f files IH]; simpl; auto. Qed.

Lemma clean_files_past (f : PathInfo) (rest : list PathInfo)
    (root : option string) (rate : Z) :
  cleans H root rate f ->
  clean_files H (f :: rest) root rate false = clean_files H rest root rate false.
Proof.
  intros (s & out & Hp & Hs). simpl. now rewrite Hp, Hs.
Qed.

(** X24. Exit status of the command-line loop.  A dry run returns 0
    whatever the files are.  Otherwise the loop returns 0 when every file
    is processed and saved, and returns 1 at the first file whose
    processing returns [False] or whose saving fails, whatever files
    follow it (they are not processed, even if processing them would
    raise). *)
Theorem clean_files_exit_status (root : option string) (rate : Z)
    (done : list PathInfo) :
  Forall (cleans H root rate) done ->
  clean_files H done root rate false = Ok 0%Z
  /\ (forall f rest, fails H root rate f ->
        clean_files H (done ++ f :: rest) root rate false = Ok 1%Z)
  /\ (forall files, clean_files H files root rate true = Ok 0%Z).
Proof.
  intros Hdone. split; [|split].
  - induction Hdone as [|f done Hf _ IH]; [reflexivity|].
    now rewrite (clean_files_past f done root rate Hf).
  - intros f rest (ok & s & Hp & Hfail).
    induction Hdone as [|g done Hg _ IH].
    + simpl. rewrite Hp. destruct ok; [|reflexivity].
      destruct Hfail as [Hc| ->]; [discriminate | reflexivity].
    + cbn [app]. now rewrite (clean_files_past g _ root rate Hg).
  - intros files. apply clean_files_dry_run.
Qed.

(** X25. The file list of the command line: every entry is a regular
    file (directories are expanded one level, their sub-directories are
    dropped), and the listing fails exactly when some input is neither a
    directory nor a file, in which case [main] exits with status 2, as it
    does when the list is empty. *)
Theorem iter_audio_files_only_files (inputs : list string) :
  (forall files, _iter_audio_files H inputs = Some files ->
                 Forall (fun f => is_file H f = true) files)
  /\ (_iter_audio_files H inputs = None <->
      exists p, In p inputs
                /\ is_dir H (resolve H p) = false
                /\ is_file H (resolve H p) = false)
  /\ (forall out rate dry,
        _iter_audio_files H inputs = None
        \/ _iter_audio_files H inputs = Some [] ->
        main H inputs out rate dry = Ok 2%Z).
Proof.
  split; [|split].
  - induction inputs as [|p inputs IH]; simpl; intros files.
    + intros [= <-]. constructor.
    + destruct (is_dir H (resolve H p)) eqn:Hd.
      * destruct (_iter_audio_files H inputs) as [b|]; [|discriminate].
        intros [= <-]. apply Forall_app. split; [|now apply IH].
        apply Forall_forall. intros f Hf. apply filter_In in Hf. tauto.
      * destruct (is_file H (resolve H p)) eqn:Hf; [|discriminate].
        destruct (_iter_audio_files H inputs) as [b|]; [|discriminate].
        intros [= <-]. constructor; [exact Hf | now apply IH].
  - induction inputs as [|p inputs IH]; simpl.
    + split; [discriminate | intros (p & [] & _)].
    + destruct (is_dir H (resolve H p)) eqn:Hd.
      * destruct (_iter_audio_files H inputs) as [b|].
        -- split; [discriminate|]. intros (q & [<-|Hq] & Hqd & Hqf).
           ++ congruence.
           ++ assert (Hn : @None (list PathInfo) = None) by reflexivity.
              destruct IH as [_ IH]. discriminate IH. eauto.
        -- split; [|reflexivity]. intros _.
           destruct IH as [IH _]. destruct (IH eq_refl) as (q & Hq & Hrest).
           exists q. split; [now right | exact Hrest].
      * destruct (is_file H (resolve H p)) eqn:Hf.
        -- destruct (_iter_audio_files H inputs) as [b|].
           ++ split; [discriminate|]. intros (q & [<-|Hq] & Hqd & Hqf).
              ** congruence.
              ** destruct IH as [_ IH]. discriminate IH. eauto.
           ++ split; [|reflexivity]. intros _.
              destruct IH as [IH _]. destruct (IH eq_refl) as (q & Hq & Hrest).
              exists q. split; [now right | exact Hrest].
        -- split; [|reflexivity]. intros _. exists p. auto.
  - intros out rate dry [Hn|He]; unfold main; rewrite ?Hn, ?He; reflexivity.
Qed.

(** ** Batch processing *)

Lemma batch_count_from (files : list PathInfo) (out : option string) :
  forall s f,
    fold_left
      (fun '(successful, failed) input =>
         if batch_clean_one H input out
         then (S successful, failed) else (successful, S failed))
      files (s, f)
    = ((s + length (filter (fun i => batch_clean_one H i out) files))%nat,
       (f + length (filter (fun i => negb (batch_clean_one H i out)) files))%nat).
Proof.
  induction files as [|x files IH]; intros s f; simpl.
  - now rewrite !Nat.add_0_r.
  - destruct (batch_clean_one H x out); simpl; rewrite IH; f_equal; lia.
Qed.

Lemma filter_partition_length {A : Type} (g : A -> bool) (l : list A) :
  (length (filter g l) + length (filter (fun x => negb (g x)) l)
   = length l)%nat.
Proof.
  induction l as [|x l IH]; simpl; [reflexivity|].
  destruct (g x); simpl; lia.
Qed.

(** X26. The batch report: the two counters add up to the number of
    entries with an audio extension; a file counts as successful exactly
    when its processing returned [True] (whatever saving did), and an
    exception raised while processing counts as a failure instead of
    stopping the batch. *)
Theorem batch_counts_add_up (folder : string) (out : option string)
    (successful failed : nat) :
  process_audio_folder H folder out = Ok (Some (successful, failed)) ->
  exists entries,
    iterdir H folder = Ok entries
    /\ (successful + failed
        = length (filter (has_audio_extension H) entries))%nat
    /\ successful
       = length (filter (fun i => batch_clean_one H i out)
                        (filter (has_audio_extension H) entries))
    /\ (forall i, batch_clean_one H i out = true <->
                  exists s, process (libs H) (batch_cleaner H i out)
                            = Ok (true, s)).
Proof.
  unfold process_audio_folder.
  destruct (folder_exists H folder); cbn [negb]; [|discriminate].
  destruct (iterdir H folder) as [entries|]; [|discriminate].
  set (fs := filter (has_audio_extension H) entries).
  intros Hc.
  assert (Hc' : batch_count H fs out = (successful, failed))
    by (destruct fs; [discriminate | now injection Hc]).
  clear Hc. exists entries. split; [reflexivity|].
  unfold batch_count in Hc'. rewrite batch_count_from in Hc'.
  injection Hc' as <- <-. cbn [Nat.add].
  split; [apply filter_partition_length|]. split; [reflexivity|].
  intros i. unfold batch_clean_one.
  destruct (process (libs H) (batch_cleaner H i out)) as [[[|] s]|e].
  - split; [eauto | reflexivity].
  - split; [discriminate | intros (s' & Hs'); discriminate].
  - split; [discriminate | intros (s' & Hs'); discriminate].
Qed.

End Cli.

Lemma clean_files_exit_status_witness :
  clean_files stub_host [mkPath "a.wav" "a" ".wav"] None 48000 false = Ok 0%Z.
Proof.
  refine (proj1 (clean_files_exit_status stub_host None 48000
                   [mkPath "a.wav" "a" ".wav"] _)).
  constructor; [|constructor].
  unfold cleans. eexists. eexists. split; vm_compute; reflexivity.
Defined.

Lemma batch_counts_add_up_witness :
  exists entries,
    iterdir stub_host "media" = Ok entries
    /\ (1 + 0 = length (filter (has_audio_extension stub_host) entries))%nat.
Proof.
  destruct (batch_counts_add_up stub_host "media" None 1 0)
    as (entries & H1 & H2 & _); [vm_compute; reflexivity|].
  exists entries. split; assumption.
Defined.

End AudioCallerFacts.

Module VideoCallerFacts.
Import Video VideoMore VideoCallers VideoParamFacts.

(** X27. Every caller maps "1080p" and "4k" to their sizes and anything
    else, "original" included, to no target at all: the enhancer then
    runs in automatic mode, so a source below 1280x720 is upscaled (by 2
    below a width of 640, by 1.5 otherwise) even when "original" was
    asked for. *)
Theorem original_resolution_is_automatic (resolution : string) :
  gui_target_res resolution = batch_target_res resolution
  /\ (resolution <> "1080p"%string -> resolution <> "4k"%string ->
      batch_target_res resolution = None
      /\ forall w h b c s n p,
           (w < 1280 \/ h < 720)%Z ->
           derive_enhancement (batch_target_res resolution) w h b c s n = Ok p ->
           needs_upscaling p = true
           /\ upscale_factor p = if (w <? 640)%Z then 2 else 15 # 10)
  /\ batch_target_res "1080p" = Some (1920, 1080)%Z
  /\ batch_target_res "4k" = Some (3840, 2160)%Z
  /\ _RESOLUTION_MAP "1080p" = Some (batch_target_res "1080p")
  /\ _RESOLUTION_MAP "4k" = Some (batch_target_res "4k")
  /\ _RESOLUTION_MAP "auto" = Some None.
Proof.
  split.
  - unfold gui_target_res, batch_target_res.
    destruct (resolution =? "1080p")%string; [reflexivity|].
    destruct (resolution =? "4k")%string; [reflexivity|].
    destruct (resolution =? "original")%string; reflexivity.
  - split; [|repeat split].
    intros H1 H2.
    assert (Hnone : batch_target_res resolution = None).
    { unfold batch_target_res.
      apply String.eqb_neq in H1, H2. now rewrite H1, H2. }
    split; [exact Hnone|].
    intros w h b c s n p Hlow Hd. rewrite Hnone in Hd.
    destruct (derive_enhancement_upscaling None w h b c s n p Hd)
      as (p0 & Hp0 & Hn & Hf).
    rewrite Hn, Hf.
    assert (Hl : ((w <? 1280) || (h <? 720))%Z = true).
    { apply orb_true_iff. rewrite !Z.ltb_lt. exact Hlow. }
    rewrite Hl in Hp0.
    destruct (w <? 640)%Z; injection Hp0 as <-; split; reflexivity.
Qed.

Lemma original_resolution_is_automatic_witness :
  batch_target_res "original" = None
  /\ exists p,
       derive_enhancement (batch_target_res "original") 320 240 (Num 100)
         (Num 60) (Num 600) (Num 1) = Ok p
       /\ needs_upscaling p = true /\ upscale_factor p = 2.
Proof.
  destruct (original_resolution_is_automatic "original") as (_ & Hauto & _).
  destruct Hauto as [Hnone Hup]; [discriminate | discriminate |].
  split; [exact Hnone|].
  destruct (derive_enhancement (batch_target_res "original") 320 240 (Num 100)
              (Num 60) (Num 600) (Num 1)) as [p|e] eqn:Hd;
    [|vm_compute in Hd; discriminate].
  exists p. split; [reflexivity|].
  apply (Hup 320 240 (Num 100) (Num 60) (Num 600) (Num 1) p)%Z;
    [left; reflexivity | exact Hd].
Defined.

End VideoCallerFacts.

Module OutputNameFacts.
Import AudioMore VideoCallers.

Lemma append_cancel (a b c : string) : (a ++ b = a ++ c)%string -> b = c.
Proof.
  induction a as [|x a IH]; simpl; [auto|].
  intros [= H]. now apply IH.
Qed.

(** X28. Default output names.  When [os.path.splitext] splits the input
    into a root and an extension that is empty or starts with a dot, the
    cleaner created without an output file writes to the root followed by
    "_cleaned.wav" and the enhancer to the root, "_enhanced" and the
    extension; neither name is the input file, so the source is never
    overwritten by default. *)
Theorem default_output_is_not_the_input
    (splitext : string -> string * string) (input name ext : string)
    (rate : Z) (target : option (Z * Z)) :
  splitext input = (name, ext) ->
  (name ++ ext)%string = input ->
  ext = EmptyString \/ (exists rest, ext = ("." ++ rest)%string) ->
  Audio.output_file (init_cleaner splitext input None rate)
  = (name ++ "_cleaned.wav")%string
  /\ Audio.output_file (init_cleaner splitext input None rate) <> input
  /\ Video.output_file (init_enhancer splitext input None target)
     = (name ++ "_enhanced" ++ ext)%string
  /\ Video.output_file (init_enhancer splitext input None target) <> input
  /\ (forall o, Audio.output_file (init_cleaner splitext input (Some o) rate) = o)
  /\ (forall o, Video.output_file (init_enhancer splitext input (Some o) target)
                = o).
Proof.
  intros Hsplit Hjoin Hext.
  unfold init_cleaner, init_enhancer. rewrite Hsplit. cbn.
  split; [reflexivity|]. split.
  - rewrite <- Hjoin. intros Heq. apply append_cancel in Heq.
    destruct Hext as [->|(rest & ->)]; discriminate.
  - split; [reflexivity|]. split; [|split; reflexivity].
    rewrite <- Hjoin. intros Heq. apply append_cancel in Heq.
    apply (f_equal String.length) in Heq. simpl in Heq. lia.
Qed.

Lemma default_output_is_not_the_input_witness :
  Audio.output_file
    (init_cleaner (fun _ => ("talk"%string, ".mp3"%string)) "talk.mp3" None 48000)
  = "talk_cleaned.wav"%string
  /\ Video.output_file
       (init_enhancer (fun _ => ("talk"%string, ".mp3"%string)) "talk.mp3" None None)
     = "talk_enhanced.mp3"%string.
Proof.
  destruct (default_output_is_not_the_input
              (fun _ => ("talk"%string, ".mp3"%string)) "talk.mp3" "talk" ".mp3"
              48000 None eq_refl eq_refl)
    as (H1 & _ & H3 & _).
  - right. eexists. reflexivity.
  - split; assumption.
Defined.

End OutputNameFacts.

Module AudioMetricFacts.
Import Audio AudioMore AudioBufferFacts AudioPipelineFacts AudioProcessFacts
       AudioAnalysisFacts AudioRateFacts.

(** ** Order of the metrics *)

Lemma insert_sorted_members (x y : Q) (l : list Q) :
  In y (insert_sorted x l) <-> y = x \/ In y l.
Proof.
  split; [apply insert_sorted_In|].
  induction l as [|z l IH]; simpl.
  - intros [->|[]]. now left.
  - destruct (Qle_bool x z); simpl; intros [->|[->|H]]; auto.
Qed.

Lemma insert_sorted_ascending (x : Q) (l : list Q) :
  ascending l -> ascending (insert_sorted x l).
Proof.
  induction l as [|z l IH]; simpl; intros Hl.
  - split; [intros y []| exact I].
  - destruct Hl as [Hz Hl].
    destruct (Qle_bool x z) eqn:E.
    + apply Qle_bool_iff in E. simpl. split; [|split; assumption].
      intros y [<-|Hy]; [exact E|].
      apply Qle_trans with z; [exact E | now apply Hz].
    + assert (Hzx : z <= x).
      { destruct (Qlt_le_dec x z) as [Hlt|Hle]; [|exact Hle].
        exfalso. apply Qlt_le_weak in Hlt. apply Qle_bool_iff in Hlt.
        congruence. }
      simpl. split; [|now apply IH].
      intros y Hy. apply insert_sorted_members in Hy.
      destruct Hy as [->|Hy]; [exact Hzx | now apply Hz].
Qed.

Lemma np_sort_ascending (l : list Q) : ascending (np_sort l).
Proof.
  induction l as [|x l IH]; [exact I|].
  unfold np_sort in *. simpl. now apply insert_sorted_ascending.
Qed.

Lemma skipn_subset {A : Type} (n : nat) (l : list A) (x : A) :
  In x (skipn n l) -> In x l.
Proof.
  revert l. induction n as [|n IH]; intros [|y l]; simpl; try tauto.
  intros H. right. now apply IH.
Qed.

Lemma ascending_skipn (n : nat) (l : list Q) :
  ascending l -> ascending (skipn n l).
Proof.
  revert n. induction l as [|y l IH]; intros [|n] Hl; simpl; auto.
  destruct Hl. now apply IH.
Qed.

(** In an ascending list, what lies before a position is at most what
    lies after a later position. *)
Lemma ascending_split (l : list Q) :
  ascending l ->
  forall k m a b, (k <= m)%nat ->
    In a (firstn k l) -> In b (skipn m l) -> a <= b.
Proof.
  induction l as [|x l IH]; intros Hl k m a b Hkm Ha Hb.
  - destruct k; contradiction.
  - destruct Hl as [Hx Hl]. destruct k as [|k]; [contradiction|].
    destruct m as [|m]; [lia|]. simpl in Ha, Hb.
    destruct Ha as [<-|Ha].
    + apply Hx. eapply skipn_subset; eauto.
    + apply (IH Hl k m); [lia | exact Ha | exact Hb].
Qed.

Lemma Qsum_le_bound (l : list Q) (c : Q) :
  (forall x, In x l -> x <= c) ->
  Qsum l <= inject_Z (Z.of_nat (length l)) * c.
Proof.
  induction l as [|x l IH]; intros H.
  - change (0 <= 0 * c). lra.
  - cbn [Qsum length]. rewrite Nat2Z.inj_succ, <- Z.add_1_r, inject_Z_plus.
    pose proof (H x (or_introl eq_refl)).
    pose proof (IH (fun y Hy => H y (or_intror Hy))).
    change (inject_Z 1) with 1.
    setoid_replace ((inject_Z (Z.of_nat (length l)) + 1) * c)
      with (inject_Z (Z.of_nat (length l)) * c + c) by ring.
    lra.
Qed.

Lemma Qsum_ge_bound (l : list Q) (c : Q) :
  (forall x, In x l -> c <= x) ->
  inject_Z (Z.of_nat (length l)) * c <= Qsum l.
Proof.
  induction l as [|x l IH]; intros H.
  - change (0 * c <= 0). lra.
  - cbn [Qsum length]. rewrite Nat2Z.inj_succ, <- Z.add_1_r, inject_Z_plus.
    pose proof (H x (or_introl eq_refl)).
    pose proof (IH (fun y Hy => H y (or_intror Hy))).
    change (inject_Z 1) with 1.
    setoid_replace ((inject_Z (Z.of_nat (length l)) + 1) * c)
      with (inject_Z (Z.of_nat (length l)) * c + c) by ring.
    lra.
Qed.

Lemma np_mean_bounds (l : list Q) (lo hi : Q) :
  l <> [] ->
  (forall x, In x l -> lo <= x) -> (forall x, In x l -> x <= hi) ->
  exists m, np_mean l = Num m /\ lo <= m /\ m <= hi.
Proof.
  intros Hne Hlo Hhi. destruct l as [|y l]; [contradiction|].
  unfold np_mean. eexists. split; [reflexivity|].
  set (k := inject_Z (Z.of_nat (length (y :: l)))).
  assert (Hk : 0 < k).
  { subst k. change 0 with (inject_Z 0). rewrite <- Zlt_Qlt.
    cbn [length]. lia. }
  pose proof (Qsum_le_bound (y :: l) hi Hhi) as H1.
  pose proof (Qsum_ge_bound (y :: l) lo Hlo) as H2.
  fold k in H1, H2. split.
  - apply Qle_shift_div_l; [exact Hk|]. lra.
  - apply Qle_shift_div_r; [exact Hk|]. lra.
Qed.

(** X30. For a buffer of at least ten samples the three level metrics
    are numbers in order: 0 <= noise floor <= signal level <= peak. *)
Theorem metrics_are_ordered (L : Libs) (buf : list Q) (rate : Z)
    (snap : QualitySnapshot) :
  (10 <= length buf)%nat ->
  measure L buf rate = Ok snap ->
  exists nf sl pk,
    q_noise_floor snap = Num nf /\ q_signal_level snap = Num sl
    /\ q_peak snap = Num pk
    /\ 0 <= nf /\ nf <= sl /\ sl <= pk.
Proof.
  intros Hlen. unfold measure.
  destruct (np_max (map Qabs buf)) as [pk|] eqn:Hpk; cbn [bind]; [|discriminate].
  set (sorted := np_sort (map Qabs buf)).
  assert (Hn : length sorted = length buf)
    by (subst sorted; now rewrite np_sort_length, length_map).
  rewrite Hn.
  assert (Hasc : ascending sorted) by apply np_sort_ascending.
  assert (Hmem : forall x, In x sorted -> 0 <= x /\ x <= pk).
  { intros x Hx. apply np_sort_In in Hx. split.
    - apply in_map_iff in Hx. destruct Hx as (y & <- & _). apply Qabs_nonneg.
    - apply in_map_iff in Hx. destruct Hx as (y & <- & Hy).
      apply (abs_max_bound (Arr1 buf) pk y Hpk Hy). }
  set (k := (length buf / 10)%nat).
  set (m := (length buf / 2)%nat).
  assert (Hk1 : (1 <= k)%nat)
    by (subst k; apply Nat.div_le_lower_bound; lia).
  assert (Hkm : (k <= m)%nat).
  { subst k m. apply Nat.div_le_lower_bound; [lia|].
    pose proof (Nat.div_mod_eq (length buf) 10).
    pose proof (Nat.mod_upper_bound (length buf) 10). lia. }
  assert (Hm : (m < length buf)%nat)
    by (subst m; apply Nat.div_lt; lia).
  destruct (skipn m sorted) as [|b0 tail] eqn:Htail.
  { exfalso. apply (f_equal (@length Q)) in Htail.
    rewrite length_skipn in Htail. simpl in Htail. lia. }
  assert (Hb0 : In b0 (skipn m sorted)) by (rewrite Htail; now left).
  assert (Hfirst : firstn k sorted <> []).
  { intro E. apply (f_equal (@length Q)) in E.
    rewrite length_firstn in E. simpl in E. lia. }
  destruct (np_mean_bounds (firstn k sorted) 0 b0 Hfirst) as (nf & Hnf & Hnf0 & Hnfb).
  { intros x Hx. apply Hmem. eapply firstn_subset; eauto. }
  { intros x Hx. apply (ascending_split sorted Hasc k m); assumption. }
  destruct (np_mean_bounds (b0 :: tail) b0 pk) as (sl & Hsl & Hslb & Hslp).
  { discriminate. }
  { intros x [<-|Hx]; [apply Qle_refl|].
    pose proof (ascending_skipn m sorted Hasc) as Hbx.
    rewrite Htail in Hbx. destruct Hbx as [Hbx _]. now apply Hbx. }
  { intros x Hx. apply Hmem. apply (skipn_subset m). now rewrite Htail. }
  rewrite Hnf, Hsl. intros [= <-]. cbn.
  exists nf, sl, pk. repeat split; try assumption.
  apply Qle_trans with b0; assumption.
Qed.

Lemma metrics_are_ordered_witness :
  exists snap nf sl pk,
    measure (passthrough_libs clipped_stereo) quiet_buffer 44100 = Ok snap
    /\ q_noise_floor snap = Num nf /\ q_signal_level snap = Num sl
    /\ q_peak snap = Num pk /\ nf <= sl /\ sl <= pk.
Proof.
  destruct (measure (passthrough_libs clipped_stereo) quiet_buffer 44100)
    as [snap|e] eqn:Hm; [|vm_compute in Hm; discriminate].
  destruct (metrics_are_ordered (passthrough_libs clipped_stereo) quiet_buffer
              44100 snap) as (nf & sl & pk & H1 & H2 & H3 & _ & H5 & H6);
    [simpl; lia | exact Hm |].
  exists snap, nf, sl, pk. repeat split; assumption.
Defined.

(** ** Audio that needs no processing *)

(** X29. When the analysis returns [False], [process] runs no external
    correction: up to normalization the object is the analysed one, whose
    buffer is still the decoded array; the limiter flag is off, so the
    normalized object goes to resampling as it is. *)
Theorem clean_audio_is_only_normalized
    (L : Libs) (self loaded analysed : AudioCleaner) :
  load_audio L self = (true, loaded) ->
  analyze_quality L loaded = Ok (false, analysed) ->
  exists p,
    processing_params analysed = Some p
    /\ audio analysed = audio loaded
    /\ needs_limiting p = false
    /\ process_to_normalized L self
       = Ok (true, smart_normalize (normalization_target p) analysed)
    /\ limit_if_flagged L (smart_normalize (normalization_target p) analysed)
       = smart_normalize (normalization_target p) analysed.
Proof.
  intros Hl Hq.
  destruct (load_audio_loaded L self loaded Hl)
    as (a & rate & Ha & Hm & Hr & _).
  destruct (analyze_quality_loaded L _ _ _ _ _ _ Ha Hm Hr Hq)
    as (snap & _ & Hneeds & Hs).
  set (p := snd (derive_params snap)) in *.
  exists p.
  assert (Hp : processing_params analysed = Some p) by (rewrite Hs; reflexivity).
  assert (Hlim : needs_limiting p = false).
  { destruct (needs_limiting p) eqn:E; [|reflexivity].
    exfalso. subst p.
    assert (Hpk : f_gt (q_peak snap) (99 # 100) = true).
    { revert E. unfold derive_params, rule_peak, rule_noise_floor, rule_hf,
        rule_snr. split_ifs; simpl; intros H; try discriminate; reflexivity. }
    unfold derive_params in Hneeds. rewrite rule_peak_needs, Hpk in Hneeds.
    rewrite orb_true_r in Hneeds. discriminate. }
  split; [exact Hp|]. split; [rewrite Hs; reflexivity|].
  split; [exact Hlim|]. split.
  - unfold process_to_normalized. rewrite Hl. cbn [negb]. rewrite Hq.
    cbn [bind apply_corrections]. unfold param. rewrite Hp. reflexivity.
  - unfold limit_if_flagged.
    rewrite (proj2 (smart_normalize_layout _ analysed)), Hp, Hlim.
    reflexivity.
Qed.

Lemma clean_audio_is_only_normalized_witness :
  exists s,
    process_to_normalized (passthrough_libs (Arr1 quiet_buffer))
      (new_cleaner "clean.wav" "clean_cleaned.wav" 48000) = Ok (true, s)
    /\ limit_if_flagged (passthrough_libs (Arr1 quiet_buffer)) s = s.
Proof.
  destruct (load_audio (passthrough_libs (Arr1 quiet_buffer))
              (new_cleaner "clean.wav" "clean_cleaned.wav" 48000))
    as [ok loaded] eqn:Hl.
  assert (ok = true) by (vm_compute in Hl; now injection Hl as <- _).
  subst ok.
  destruct (analyze_quality (passthrough_libs (Arr1 quiet_buffer)) loaded)
    as [[needs analysed]|e] eqn:Hq;
    [|vm_compute in Hl; injection Hl as <-; vm_compute in Hq; discriminate].
  assert (needs = false).
  { vm_compute in Hl. injection Hl as <-. vm_compute in Hq.
    now injection Hq as <- _. }
  subst needs.
  destruct (clean_audio_is_only_normalized (passthrough_libs (Arr1 quiet_buffer))
              (new_cleaner "clean.wav" "clean_cleaned.wav" 48000)
              loaded analysed Hl Hq) as (p & _ & _ & _ & Hrun & Hlim).
  eexists. split; [exact Hrun | exact Hlim].
Defined.

End AudioMetricFacts.
